(** * signupfresh: the booking handler as a shallow embedding

    The server module of the repository ([CONFIG], [SHEETS], the slot
    cache, the rate limiter, the per-phone throttle, validation and
    sanitization, and the OPTIONS / GET / POST / PATCH branches of the
    exported [handler]) is embedded as pure functions over an explicit
    world state.

    Conventions of the embedding.
    - A JavaScript string is a [string]; its characters stand for UTF-16
      code units below 256.
    - A JavaScript number the handler computes with is an integer in the
      safe range, a [Z]; [NaN] is [None] of [option Z].
    - [undefined] (a missing field, an index past the end of an array,
      the result of [?.] on [undefined]) is [None].
    - The module-level objects [cache], [rateLimitMap] and
      [activeBookingsMap] are fields of the [World]; the two [Map]s are
      [gmap]s.  A function that mutates one of them returns the new one.
    - The spreadsheet is a pair of grids of text cells.  The Sheets calls
      [values.get], [values.batchGet] and [batchUpdate] are functions on
      it; each may throw, as decided by the [fails] field of the request's
      [Env].  A read returns what the API returns: rows cut to the columns
      of the range, without trailing empty cells and trailing empty rows.
      A [batchUpdate] applies all its requests or none.  Every call the
      handler issues is recorded, in order, in the [log] of the world.
    - [Date.now()], the two formatted time stamps and the date parser are
      inputs of a request, gathered in [Env].
    - [getSheets()] is taken to succeed; [log] (console output) and the
      response headers are left out; [res.status(s).json(b)] is the
      returned [Response]. *)

From Stdlib Require Import ZArith Ascii String DecimalString DecimalZ Decimal.
From stdpp Require Import gmap strings list fin_maps.

Local Open Scope Z_scope.

(** ** CONFIG *)

Module CONFIG.
Definition MAX_SLOTS_PER_BOOKING : Z := 10.
Definition MAX_NAME_LENGTH : Z := 100.
Definition MAX_EMAIL_LENGTH : Z := 254.
Definition MAX_PHONE_LENGTH : Z := 20.
Definition MAX_NOTES_LENGTH : Z := 500.
Definition MAX_CATEGORY_LENGTH : Z := 20.
Definition RATE_LIMIT_WINDOW : Z := 60000.
Definition RATE_LIMIT_MAX_REQUESTS : Z := 50.
Definition CACHE_TTL : Z := 30000.
Definition MAX_CONCURRENT_BOOKINGS : Z := 3.
End CONFIG.

(** Zero-based column indices of the two sheets ([SHEETS.*.COLS]). *)
Module SLOTS.
Definition DATE : nat := 0.
Definition LABEL : nat := 1.
Definition CAPACITY : nat := 2.
Definition TAKEN : nat := 3.
Definition AVAILABLE : nat := 4.
End SLOTS.

Module SIGNUPS.
Definition TIMESTAMP : nat := 0.
Definition DATE : nat := 1.
Definition SLOT_LABEL : nat := 2.
Definition NAME : nat := 3.
Definition EMAIL : nat := 4.
Definition PHONE : nat := 5.
Definition CATEGORY : nat := 6.
Definition NOTES : nat := 7.
Definition SLOT_ROW_ID : nat := 8.
Definition STATUS : nat := 9.
End SIGNUPS.

(** ** The JavaScript built-ins the handler uses *)

Module JS.

Definition code (c : ascii) : Z := Z.of_nat (nat_of_ascii c).

(** [\s] of a regular expression and the white space of [trim]. *)
Definition is_ws (c : ascii) : bool :=
  let n := code c in
  ((9 <=? n) && (n <=? 13)) || (n =? 32) || (n =? 160).

(** [\d] *)
Definition is_digit (c : ascii) : bool :=
  let n := code c in (48 <=? n) && (n <=? 57).

Definition len (s : string) : Z := Z.of_nat (String.length s).

Definition is_empty (s : string) : bool :=
  match s with EmptyString => true | String _ _ => false end.

(** Truthiness of a possibly missing string. *)
Definition truthy (o : option string) : bool :=
  match o with Some s => negb (is_empty s) | None => false end.

Fixpoint all_chars (p : ascii -> bool) (s : string) : bool :=
  match s with
  | EmptyString => true
  | String c r => p c && all_chars p r
  end.

Fixpoint filter_chars (p : ascii -> bool) (s : string) : string :=
  match s with
  | EmptyString => EmptyString
  | String c r => if p c then String c (filter_chars p r) else filter_chars p r
  end.

Fixpoint map_chars (f : ascii -> ascii) (s : string) : string :=
  match s with
  | EmptyString => EmptyString
  | String c r => String (f c) (map_chars f r)
  end.

Fixpoint trimStart (s : string) : string :=
  match s with
  | EmptyString => EmptyString
  | String c r => if is_ws c then trimStart r else s
  end.

Fixpoint trimEnd (s : string) : string :=
  match s with
  | EmptyString => EmptyString
  | String c r =>
      let r' := trimEnd r in
      if is_ws c && is_empty r' then EmptyString else String c r'
  end.

Definition trim (s : string) : string := trimEnd (trimStart s).

(** [s.substring(0, n)] for [n >= 0]. *)
Fixpoint take_chars (n : nat) (s : string) : string :=
  match n, s with
  | S k, String c r => String c (take_chars k r)
  | _, _ => EmptyString
  end.

Definition substring0 (n : Z) (s : string) : string := take_chars (Z.to_nat n) s.

Fixpoint startsWith (p s : string) : bool :=
  match p, s with
  | EmptyString, _ => true
  | String a p', String b s' => Ascii.eqb a b && startsWith p' s'
  | String _ _, EmptyString => false
  end.

(** [toLowerCase] on the code units below 256: the letters [A-Z] and the
    capital letters of Latin-1 move up by 32, every other unit stays.  In
    this range a text keeps its length; the built-in does not keep it in
    general (it maps U+0130 to two code units), so nothing is concluded
    here from the length of a lower-cased text. *)
Definition lower_char (c : ascii) : ascii :=
  let n := code c in
  if ((65 <=? n) && (n <=? 90)) || ((192 <=? n) && (n <=? 222) && negb (n =? 215))
  then ascii_of_nat (nat_of_ascii c + 32) else c.

Definition toLowerCase (s : string) : string := map_chars lower_char s.

(** The longest prefix of characters satisfying [p], and what follows it. *)
Fixpoint span_chars (p : ascii -> bool) (s : string) : string * string :=
  match s with
  | EmptyString => (EmptyString, EmptyString)
  | String c r =>
      if p c then let '(a, b) := span_chars p r in (String c a, b)
      else (EmptyString, s)
  end.

(** [String(n)] for an integer [n]. *)
Definition toString (z : Z) : string := NilZero.string_of_int (Z.to_int z).

Definition hex_val (c : ascii) : option Z :=
  let n := code c in
  if (48 <=? n) && (n <=? 57) then Some (n - 48)
  else if (97 <=? n) && (n <=? 102) then Some (n - 87)
  else if (65 <=? n) && (n <=? 70) then Some (n - 55)
  else None.

Definition is_hex (c : ascii) : bool :=
  match hex_val c with Some _ => true | None => false end.

Fixpoint hex_value (acc : Z) (s : string) : Z :=
  match s with
  | EmptyString => acc
  | String c r =>
      match hex_val c with
      | Some d => hex_value (16 * acc + d) r
      | None => acc
      end
  end.

Definition parse_decimal (s : string) : option Z :=
  let '(d, _) := span_chars is_digit s in
  if is_empty d then None else Z.of_uint <$> NilEmpty.uint_of_string d.

Definition parse_hex (s : string) : option Z :=
  let '(h, _) := span_chars is_hex s in
  if is_empty h then None else Some (hex_value 0 h).

(** The unsigned part of [parseInt]: a [0x] prefix selects radix 16,
    otherwise the longest decimal prefix is read; no digit gives [NaN]. *)
Definition parse_magnitude (s : string) : option Z :=
  match s with
  | String z (String x r) =>
      if Ascii.eqb z "0" && (Ascii.eqb x "x" || Ascii.eqb x "X")
      then parse_hex r else parse_decimal s
  | _ => parse_decimal s
  end.

(** [parseInt(s)] of a string: leading white space is skipped, then an
    optional sign, then the magnitude. *)
Definition parseInt_str (s : string) : option Z :=
  match trimStart s with
  | String c r =>
      if Ascii.eqb c "-" then Z.opp <$> parse_magnitude r
      else if Ascii.eqb c "+" then parse_magnitude r
      else parse_magnitude (String c r)
  | EmptyString => None
  end.

(** [parseInt(x)] where [x] is a string or [undefined]. *)
Definition parseInt (o : option string) : option Z :=
  match o with Some s => parseInt_str s | None => None end.

(** [n || 0] for a number [n]: [NaN] and [0] are falsy. *)
Definition or0 (o : option Z) : Z := default 0 o.

(** [n || null]: [NaN] and [0] become [null]. *)
Definition or_null (o : option Z) : option Z :=
  match o with Some 0 => None | _ => o end.

(** [s || d] for a possibly missing string. *)
Definition or_str (o : option string) (d : string) : string :=
  match o with
  | Some s => if is_empty s then d else s
  | None => d
  end.

(** [Math.max(0, n)], [NaN] being contagious. *)
Definition max0 (o : option Z) : option Z := Z.max 0 <$> o.

(** [x.split(',')[0]] *)
Definition split_comma_first (s : string) : string :=
  fst (span_chars (fun c => negb (Ascii.eqb c ",")) s).

(** [u.match(/\d+/)[0]]: the first run of digits, [null] when there is
    none. *)
Definition match_digits (s : string) : option string :=
  let '(_, t) := span_chars (fun c => negb (is_digit c)) s in
  let '(d, _) := span_chars is_digit t in
  if is_empty d then None else Some d.

(** [arr.join(sep)] *)
Fixpoint join (sep : string) (l : list string) : string :=
  match l with
  | [] => EmptyString
  | [x] => x
  | x :: r => x +:+ sep +:+ join sep r
  end.

End JS.

(** ** Server cache *)

(** One slot of the availability listing ([rows.map] in the GET branch). *)
Record Slot := mkSlot {
  slot_id : Z;
  slot_date : string;
  slot_label : string;
  slot_capacity : Z;
  slot_taken : Z;
  slot_available : Z
}.

(** [{ ok: true, dates: grouped }]: the groups in insertion order. *)
Abbreviation Listing := (list (string * list Slot)).

Record Cache := mkCache {
  cache_slots : option Listing;     (* [null] is [None] *)
  cache_timestamp : Z
}.

Definition cache_TTL : Z := CONFIG.CACHE_TTL.

Definition initial_cache : Cache := mkCache None 0.

Definition getCachedSlots (now : Z) (cache : Cache) : option Listing :=
  match cache_slots cache with
  | Some l => if now - cache_timestamp cache <? cache_TTL then Some l else None
  | None => None
  end.

Definition setCachedSlots (now : Z) (data : Listing) (cache : Cache) : Cache :=
  mkCache (Some data) now.

Definition invalidateCache (cache : Cache) : Cache := mkCache None 0.

(** ** Rate limiting *)

Definition recent_of (now : Z) (reqs : list Z) : list Z :=
  filter (fun t => now - t < CONFIG.RATE_LIMIT_WINDOW) reqs.

Definition cleanupRateLimitMap (now : Z) (rateLimitMap : gmap string (list Z))
    : gmap string (list Z) :=
  omap (fun timestamps =>
          let valid := recent_of now timestamps in
          match valid with [] => None | _ => Some valid end) rateLimitMap.

Definition checkRateLimit (now : Z) (identifier : string)
    (rateLimitMap : gmap string (list Z)) : bool * gmap string (list Z) :=
  let reqs := default [] (rateLimitMap !! identifier) in
  let recent := recent_of now reqs in
  if CONFIG.RATE_LIMIT_MAX_REQUESTS <=? Z.of_nat (length recent)
  then (false, rateLimitMap)
  else (true, <[identifier := recent ++ [now]]> rateLimitMap).

Definition checkConcurrentBookings (phone : string)
    (activeBookingsMap : gmap string Z) : bool :=
  let count := default 0 (activeBookingsMap !! phone) in
  count <? CONFIG.MAX_CONCURRENT_BOOKINGS.

Definition incrementActiveBookings (phone : string)
    (activeBookingsMap : gmap string Z) : gmap string Z :=
  let count := default 0 (activeBookingsMap !! phone) in
  <[phone := count + 1]> activeBookingsMap.

Definition decrementActiveBookings (phone : string)
    (activeBookingsMap : gmap string Z) : gmap string Z :=
  let count := default 0 (activeBookingsMap !! phone) in
  if 0 <? count then <[phone := count - 1]> activeBookingsMap
  else activeBookingsMap.

(** The count of in-flight bookings the throttle sees for a phone. *)
Definition active_count (phone : string) (activeBookingsMap : gmap string Z) : Z :=
  default 0 (activeBookingsMap !! phone).

(** ** Validation and sanitization *)

Definition sanitizeInput (str : option string) (maxLength : Z) : string :=
  match str with
  | None => ""
  | Some s =>
      if JS.is_empty s then ""
      else JS.substring0 maxLength
             (JS.filter_chars (fun c => negb (Ascii.eqb c "<" || Ascii.eqb c ">"))
                (JS.trim s))
  end.

(** [[^\s@]] *)
Definition email_char (c : ascii) : bool :=
  negb (JS.is_ws c) && negb (Ascii.eqb c "@").

(** A dot that is neither the first nor the last character. *)
Fixpoint has_inner_dot_from (s : string) : bool :=
  match s with
  | String c ((String _ _) as r) =>
      (Ascii.eqb c "." ) || has_inner_dot_from r
  | _ => false
  end.

Definition has_inner_dot (s : string) : bool :=
  match s with
  | String _ r => has_inner_dot_from r
  | EmptyString => false
  end.

(** [/^[^\s@]+@[^\s@]+\.[^\s@]+$/.test(email)]: the part before the first
    [@] is non-empty and free of white space; what follows the [@] is free
    of white space and of [@] and has a dot strictly inside it. *)
Definition emailRegex_test (email : string) : bool :=
  let '(loc, rest) := JS.span_chars email_char email in
  match rest with
  | String c dom =>
      Ascii.eqb c "@" && negb (JS.is_empty loc) &&
      JS.all_chars email_char dom && has_inner_dot dom
  | EmptyString => false
  end.

Definition isValidEmail (email : option string) : bool :=
  match email with
  | None => true
  | Some e =>
      if JS.is_empty e then true
      else emailRegex_test e && (JS.len e <=? CONFIG.MAX_EMAIL_LENGTH)
  end.

(** [[\d\s\-\+\(\)]] *)
Definition phone_char (c : ascii) : bool :=
  JS.is_digit c || JS.is_ws c || Ascii.eqb c "-" || Ascii.eqb c "+" ||
  Ascii.eqb c "(" || Ascii.eqb c ")".

Definition isValidPhone (phone : option string) : bool :=
  match phone with
  | None => false
  | Some p =>
      if JS.is_empty p then false
      else JS.all_chars phone_char p && (8 <=? JS.len p) && (JS.len p <=? 20)
  end.

(** An entry of [slotIds]: an integer, or any other JSON value (a
    fraction, a string, [null], ...), for which [Number.isInteger] is
    false. *)
Inductive SlotVal :=
| IntV (z : Z)
| OtherV.

Definition is_pos_int (v : SlotVal) : bool :=
  match v with IntV z => 0 <? z | OtherV => false end.

(** The number a validated entry stands for. *)
Definition slot_num (v : SlotVal) : Z :=
  match v with IntV z => z | OtherV => 0 end.

(** [req.body]: a JSON object; a field that is absent is [None].  String
    fields hold strings, the row ids of a cancellation hold integers. *)
Record Body := mkBody {
  b_name : option string;
  b_phone : option string;
  b_email : option string;
  b_category : option string;
  b_notes : option string;
  b_slotIds : option (list SlotVal);
  b_signupRowId : option Z;
  b_slotRowId : option Z
}.

(** [!s?.trim()] *)
Definition blank (o : option string) : bool :=
  match o with
  | Some s => JS.is_empty (JS.trim s)
  | None => true
  end.

(** [o.length > n] for a field that is present. *)
Definition longer_than (o : option string) (n : Z) : bool :=
  match o with Some s => n <? JS.len s | None => false end.

Definition push_if (c : bool) (msg : string) (errors : list string) : list string :=
  if c then errors ++ [msg] else errors.

(** [validateBookingRequest]: the list of error messages, or [None] when
    the function throws ([body.slotIds.every] on a missing [slotIds]). *)
Definition validateBookingRequest (body : Body) : option (list string) :=
  let errors := [] in
  let errors := push_if (blank (b_name body) || longer_than (b_name body) CONFIG.MAX_NAME_LENGTH)
                  "Name is required (max 100 characters)." errors in
  let errors := push_if (blank (b_phone body) || negb (isValidPhone (b_phone body)))
                  "Valid phone number is required." errors in
  let errors := push_if (JS.truthy (b_email body) && negb (isValidEmail (b_email body)))
                  "Invalid email address." errors in
  let errors := push_if (blank (b_category body) || longer_than (b_category body) CONFIG.MAX_CATEGORY_LENGTH)
                  "Valid category selection is required." errors in
  let errors := push_if (JS.truthy (b_notes body) && longer_than (b_notes body) CONFIG.MAX_NOTES_LENGTH)
                  "Notes must be less than 500 characters." errors in
  let errors := push_if (match b_slotIds body with
                         | Some ids => bool_decide (ids = [])
                         | None => true
                         end)
                  "At least one slot must be selected." errors in
  let errors := push_if (match b_slotIds body with
                         | Some ids => CONFIG.MAX_SLOTS_PER_BOOKING <? Z.of_nat (length ids)
                         | None => false
                         end)
                  "Only up to 10 slots allowed." errors in
  match b_slotIds body with
  | None => None
  | Some ids =>
      Some (push_if (negb (forallb is_pos_int ids)) "Invalid slot IDs provided." errors)
  end.

(** ** The spreadsheet store and the Sheets calls *)

Abbreviation Row := (list string).
Abbreviation Grid := (list (list string)).

(** The two sheets.  Index [0] of a grid is sheet row 1 (the header row);
    an empty cell is [""]; cells and rows past the end of the lists are
    empty.  The grid is unbounded: there is no row limit. *)
Record Store := mkStore {
  signups_grid : Grid;
  slots_grid : Grid
}.

Inductive SheetId := SignupsSheet | SlotsSheet.

Definition grid_of (st : Store) (sh : SheetId) : Grid :=
  match sh with SignupsSheet => signups_grid st | SlotsSheet => slots_grid st end.

Definition set_grid (st : Store) (sh : SheetId) (g : Grid) : Store :=
  match sh with
  | SignupsSheet => mkStore g (slots_grid st)
  | SlotsSheet => mkStore (signups_grid st) g
  end.

Definition is_nil {A} (l : list A) : bool :=
  match l with [] => true | _ => false end.

(** Drop the trailing elements that are empty: the Sheets API omits
    trailing empty cells of a row and trailing empty rows of a range. *)
Fixpoint strip_trailing {A} (e : A -> bool) (l : list A) : list A :=
  match l with
  | [] => []
  | x :: r =>
      let r' := strip_trailing e r in
      if e x && is_nil r' then [] else x :: r'
  end.

(** The content of a cell of the grid (zero-based row and column). *)
Definition cell_at (g : Grid) (r c : nat) : string :=
  default "" (g !! r ≫= fun row : Row => row !! c).

(** An A1 range [Sheet!<c0><r0>:<c1><r1>], columns zero-based and
    inclusive, rows one-based; [rg_row1 = None] is an open range such as
    [A2:J]. *)
Record Range := mkRange {
  rg_sheet : SheetId;
  rg_col0 : nat;
  rg_col1 : nat;
  rg_row0 : Z;
  rg_row1 : option Z
}.

(** [`${SHEETS.SIGNUPS.NAME}!${SHEETS.SIGNUPS.RANGE}`], that is [Signups!A2:J] *)
Definition signups_range : Range := mkRange SignupsSheet 0 9 2 None.
(** [Slots!A2:E] *)
Definition slots_range : Range := mkRange SlotsSheet 0 4 2 None.
(** [`Slots!A${id}:D${id}`] *)
Definition slot_row_range (id : Z) : Range := mkRange SlotsSheet 0 3 id (Some id).
(** [`Signups!A${n}:J${n}`] *)
Definition signup_row_range (n : Z) : Range := mkRange SignupsSheet 0 9 n (Some n).
(** [`Slots!D${n}`] *)
Definition taken_cell_range (n : Z) : Range := mkRange SlotsSheet 3 3 n (Some n).

(** What the API returns for one row of a range. *)
Definition row_view (c0 c1 : nat) (r : Row) : Row :=
  strip_trailing JS.is_empty (drop c0 (take (S c1) r)).

(** [response.data.values] of a range read; [[]] stands for an absent
    [values].  A range whose first row is below 1 is rejected. *)
Definition read_range (st : Store) (rg : Range) : option (list Row) :=
  if rg_row0 rg <? 1 then None
  else
    let rows := drop (Z.to_nat (rg_row0 rg - 1)) (grid_of st (rg_sheet rg)) in
    let rows := match rg_row1 rg with
                | Some r1 => take (Z.to_nat (r1 - rg_row0 rg + 1)) rows
                | None => rows
                end in
    Some (strip_trailing is_nil (row_view (rg_col0 rg) (rg_col1 rg) <$> rows)).

(** [userEnteredValue] *)
Inductive CellValue :=
| StringValue (s : string)
| NumberValue (n : option Z).

(** One request of a [batchUpdate]; [UpdateCells] carries the single cell
    the handler writes. *)
Inductive Directive :=
| AppendCells (sheetId : SheetId) (rows : list (list CellValue))
| UpdateCells (sheetId : SheetId) (startRowIndex endRowIndex : Z)
    (startColumnIndex endColumnIndex : Z) (value : CellValue).

(** What a cell shows after a value is entered; a [NaN] number is sent as
    [null] and leaves the cell empty. *)
Definition render (v : CellValue) : string :=
  match v with
  | StringValue s => s
  | NumberValue (Some z) => JS.toString z
  | NumberValue None => ""
  end.

Definition pad_to {A} (n : nat) (d : A) (l : list A) : list A :=
  l ++ replicate (n - length l) d.

Definition set_cell (g : Grid) (r c : nat) (v : string) : Grid :=
  let g' := pad_to (S r) [] g in
  let row := pad_to (S c) "" (default [] (g' !! r)) in
  <[r := <[c := v]> row]> g'.

Definition row_blank (r : Row) : bool := forallb JS.is_empty r.

(** [appendCells] adds the rows after the last row with data. *)
Definition append_rows (g : Grid) (rows : list Row) : Grid :=
  strip_trailing row_blank g ++ rows.

Definition apply_directive (st : Store) (d : Directive) : option Store :=
  match d with
  | AppendCells sh rows =>
      Some (set_grid st sh (append_rows (grid_of st sh) (map (map render) rows)))
  | UpdateCells sh r0 _ c0 _ v =>
      if (r0 <? 0) || (c0 <? 0) then None
      else Some (set_grid st sh
                   (set_cell (grid_of st sh) (Z.to_nat r0) (Z.to_nat c0) (render v)))
  end.

(** The directives of one [batchUpdate] are applied in order, all or none. *)
Fixpoint apply_batch (st : Store) (ds : list Directive) : option Store :=
  match ds with
  | [] => Some st
  | d :: r =>
      match apply_directive st d with
      | Some st' => apply_batch st' r
      | None => None
      end
  end.

Inductive Call :=
| ValuesGet (range : Range)
| ValuesBatchGet (ranges : list Range)
| BatchUpdate (requests : list Directive).

Definition is_write (c : Call) : bool :=
  match c with BatchUpdate _ => true | _ => false end.

(** ** Requests, responses and the world *)

Inductive Method := OPTIONS | GET | POST | PATCH | OtherMethod.

Record Request := mkRequest {
  method : Method;
  x_forwarded_for : option string;
  x_real_ip : option string;
  query_phone : option string;
  body : Body
}.

Record Booking := mkBooking {
  bk_signupRowId : Z;
  bk_timestamp : option string;
  bk_date : option string;
  bk_slotLabel : option string;
  bk_name : option string;
  bk_email : option string;
  bk_phone : option string;
  bk_category : option string;
  bk_notes : option string;
  bk_slotRowId : option Z;
  bk_status : string
}.

(** The JSON body of a response. [Error e] is [{ ok: false, error: e }],
    the other non-empty bodies carry [ok: true]. *)
Inductive Payload :=
| NoBody
| Error (error : string)
| Message (message : string)
| Bookings (bookings : list Booking)
| Dates (dates : Listing).

Record Response := mkResponse {
  status : Z;
  payload : Payload
}.

(** What a request observes of its environment. *)
Record Env := mkEnv {
  now_rate : Z;                      (* [Date.now()] in [checkRateLimit] *)
  now_cache_get : Z;                 (* [Date.now()] in [getCachedSlots] *)
  now_cache_set : Z;                 (* [Date.now()] in [setCachedSlots] *)
  nowStr : string;                   (* [new Date().toLocaleString(...)] *)
  isoNow : string;                   (* [new Date().toISOString()] *)
  today_ms : Z;                      (* local midnight of today *)
  date_ms : string -> option Z;      (* [new Date(s)], [None] when invalid *)
  fails : Call -> bool               (* the Sheets call throws *)
}.

Record World := mkWorld {
  store : Store;
  cache : Cache;
  rateLimitMap : gmap string (list Z);
  activeBookingsMap : gmap string Z;
  log : list Call                    (* the Sheets calls issued so far *)
}.

Definition log_call (c : Call) (w : World) : World :=
  mkWorld (store w) (cache w) (rateLimitMap w) (activeBookingsMap w) (log w ++ [c]).
Definition with_store (st : Store) (w : World) : World :=
  mkWorld st (cache w) (rateLimitMap w) (activeBookingsMap w) (log w).
Definition with_cache (c : Cache) (w : World) : World :=
  mkWorld (store w) c (rateLimitMap w) (activeBookingsMap w) (log w).
Definition with_rateLimitMap (m : gmap string (list Z)) (w : World) : World :=
  mkWorld (store w) (cache w) m (activeBookingsMap w) (log w).
Definition with_activeBookingsMap (m : gmap string Z) (w : World) : World :=
  mkWorld (store w) (cache w) (rateLimitMap w) m (log w).

(** [sheets.spreadsheets.values.get]: [None] when the call throws. *)
Definition values_get (env : Env) (rg : Range) (w : World) : option (list Row) * World :=
  let w' := log_call (ValuesGet rg) w in
  if fails env (ValuesGet rg) then (None, w') else (read_range (store w) rg, w').

(** [sheets.spreadsheets.values.batchGet]: one result per range, in order. *)
Definition values_batchGet (env : Env) (rgs : list Range) (w : World)
    : option (list (list Row)) * World :=
  let w' := log_call (ValuesBatchGet rgs) w in
  if fails env (ValuesBatchGet rgs) then (None, w')
  else (mapM (read_range (store w)) rgs, w').

(** [sheets.spreadsheets.batchUpdate]: [false] when the call throws, in
    which case nothing is written. *)
Definition batchUpdate (env : Env) (ds : list Directive) (w : World) : bool * World :=
  let w' := log_call (BatchUpdate ds) w in
  if fails env (BatchUpdate ds) then (false, w')
  else match apply_batch (store w) ds with
       | Some st' => (true, with_store st' w')
       | None => (false, w')
       end.

(** The periodic sweep ([setInterval], every 300000 ms). *)
Definition sweep (now : Z) (w : World) : World :=
  with_activeBookingsMap ∅ (with_rateLimitMap (cleanupRateLimitMap now (rateLimitMap w)) w).

(** ** The handler *)

(** A value placed in a signup row or spliced into a template string. *)
Inductive JSVal :=
| VStr (s : string)
| VNum (z : Z)
| VUndef.

Definition of_cell (o : option string) : JSVal :=
  match o with Some s => VStr s | None => VUndef end.

(** [String(v)] and [`${v}`] *)
Definition String_of (v : JSVal) : string :=
  match v with
  | VStr s => s
  | VNum z => JS.toString z
  | VUndef => "undefined"
  end.

Definition respond (st : Z) (p : Payload) : Response := mkResponse st p.

(** [req.headers['x-forwarded-for']?.split(',')[0] || req.headers['x-real-ip'] || 'unknown'] *)
Definition clientIP (req : Request) : string :=
  let first := JS.split_comma_first <$> x_forwarded_for req in
  if JS.truthy first then default "" first
  else if JS.truthy (x_real_ip req) then default "" (x_real_ip req)
  else "unknown".

(** *** GET ?phone= *)

Definition booking_of_row (idx : nat) (row : Row) : Booking :=
  {| bk_signupRowId := Z.of_nat idx + 2;
     bk_timestamp := row !! SIGNUPS.TIMESTAMP;
     bk_date := row !! SIGNUPS.DATE;
     bk_slotLabel := row !! SIGNUPS.SLOT_LABEL;
     bk_name := row !! SIGNUPS.NAME;
     bk_email := row !! SIGNUPS.EMAIL;
     bk_phone := row !! SIGNUPS.PHONE;
     bk_category := row !! SIGNUPS.CATEGORY;
     bk_notes := row !! SIGNUPS.NOTES;
     bk_slotRowId := JS.or_null (JS.parseInt (row !! SIGNUPS.SLOT_ROW_ID));
     bk_status := JS.or_str (row !! SIGNUPS.STATUS) "ACTIVE" |}.

Definition handle_lookup (env : Env) (qphone : option string) (w : World)
    : Response * World :=
  let lookupPhone := sanitizeInput qphone CONFIG.MAX_PHONE_LENGTH in
  if negb (isValidPhone (Some lookupPhone))
  then (respond 400 (Error "Invalid phone number format."), w)
  else
    match values_get env signups_range w with
    | (Some rows, w) =>
        let userBookings :=
          filter (fun b => JS.trim <$> bk_phone b = Some lookupPhone ∧ bk_status b = "ACTIVE")
                 (imap booking_of_row rows) in
        (respond 200 (Bookings userBookings), w)
    | (None, w) => (respond 500 (Error "Failed to fetch bookings."), w)
    end.

(** *** GET: the availability listing *)

Definition slot_of_row (idx : nat) (row : Row) : Slot :=
  {| slot_id := Z.of_nat idx + 2;
     slot_date := JS.or_str (row !! SLOTS.DATE) "";
     slot_label := JS.or_str (row !! SLOTS.LABEL) "";
     slot_capacity := JS.or0 (JS.parseInt (row !! SLOTS.CAPACITY));
     slot_taken := JS.or0 (JS.parseInt (row !! SLOTS.TAKEN));
     slot_available :=
       Z.max 0 (JS.or0 (JS.parseInt (row !! SLOTS.CAPACITY)) -
                JS.or0 (JS.parseInt (row !! SLOTS.TAKEN))) |}.

(** [slotDate >= today && slot.capacity > 0] *)
Definition slot_listed (env : Env) (slot : Slot) : bool :=
  match date_ms env (slot_date slot) with
  | Some d => (today_ms env <=? d) && (0 <? slot_capacity slot)
  | None => false
  end.

(** [if (!grouped[d]) grouped[d] = []; grouped[d].push(slot)] *)
Fixpoint group_push (grouped : Listing) (slot : Slot) : Listing :=
  match grouped with
  | [] => [(slot_date slot, [slot])]
  | (d, l) :: r =>
      if String.eqb d (slot_date slot) then (d, l ++ [slot]) :: r
      else (d, l) :: group_push r slot
  end.

Definition group_slots (env : Env) (slots : list Slot) : Listing :=
  fold_left (fun grouped slot =>
               if slot_listed env slot then group_push grouped slot else grouped)
            slots [].

Definition handle_listing (env : Env) (w : World) : Response * World :=
  match getCachedSlots (now_cache_get env) (cache w) with
  | Some cached => (respond 200 (Dates cached), w)
  | None =>
      match values_get env slots_range w with
      | (Some rows, w) =>
          let slots := imap slot_of_row rows in
          let result := group_slots env slots in
          let w := with_cache (setCachedSlots (now_cache_set env) result (cache w)) w in
          (respond 200 (Dates result), w)
      | (None, w) => (respond 500 (Error "Slots not available."), w)
      end
  end.

(** *** POST: create a booking *)

(** [updateRequests.push({ range: `Slots!D${slotId}`, values: [[taken + 1]] })] *)
Record UpdateRequest := mkUpdateRequest {
  u_range : string;
  u_value : Z
}.

(** The sanitized fields of a booking request. *)
Record Fields := mkFields {
  f_name : string;
  f_phone : string;
  f_email : string;
  f_category : string;
  f_notes : string
}.

(** The predicate of [existing.find] in the duplicate scan. *)
Definition is_duplicate (phone : string) (slotId : Z) (r : Row) : bool :=
  bool_decide (JS.trim <$> r !! SIGNUPS.PHONE = Some phone) &&
  bool_decide (JS.parseInt (r !! SIGNUPS.SLOT_ROW_ID) = Some slotId) &&
  JS.startsWith "ACTIVE" (JS.or_str (r !! SIGNUPS.STATUS) "ACTIVE").

(** How the [for] loop over [slotIds] ends: by a [return], by a throw, or
    by running to its end with the rows and updates it has built. *)
Inductive LoopResult :=
| LoopReturn (r : Response)
| LoopThrow
| LoopDone (signupRows : list (list JSVal)) (updateRequests : list UpdateRequest).

Fixpoint book_loop (env : Env) (f : Fields) (existing : list Row)
    (slotRanges : list (list Row)) (i : nat) (slotIds : list Z)
    (signupRows : list (list JSVal)) (updateRequests : list UpdateRequest)
    : LoopResult :=
  match slotIds with
  | [] => LoopDone signupRows updateRequests
  | slotId :: rest =>
      match slotRanges !! i with
      | None => LoopThrow
      | Some values =>
          match head values with
          | None => LoopReturn (respond 400 (Error "Slot data missing."))
          | Some row =>
              let date := row !! SLOTS.DATE in
              let label := row !! SLOTS.LABEL in
              let capacity := JS.or0 (JS.parseInt (row !! SLOTS.CAPACITY)) in
              let taken := JS.or0 (JS.parseInt (row !! SLOTS.TAKEN)) in
              match List.find (is_duplicate (f_phone f) slotId) existing with
              | Some _ =>
                  LoopReturn (respond 409 (Error
                    ("Already booked " +:+ String_of (of_cell label) +:+ " on " +:+
                     String_of (of_cell date) +:+ ".")))
              | None =>
                  if capacity <=? taken then
                    LoopReturn (respond 409 (Error
                      ("Slot " +:+ String_of (of_cell label) +:+ " on " +:+
                       String_of (of_cell date) +:+ " is full.")))
                  else
                    book_loop env f existing slotRanges (S i) rest
                      (signupRows ++
                         [[VStr (nowStr env); of_cell date; of_cell label;
                           VStr (f_name f); VStr (f_email f); VStr (f_phone f);
                           VStr (f_category f); VStr (f_notes f); VNum slotId;
                           VStr "ACTIVE"]])
                      (updateRequests ++
                         [mkUpdateRequest ("Slots!D" +:+ JS.toString slotId) (taken + 1)])
              end
          end
      end
  end.

(** One [updateCells] request of the batch write; [None] when building it
    throws ([match] finding no digits). *)
Definition update_directive (u : UpdateRequest) : option Directive :=
  match JS.match_digits (u_range u) with
  | None => None
  | Some d =>
      match JS.parseInt_str d with
      | None => None
      | Some n =>
          Some (UpdateCells SlotsSheet (n - 1) n 3 4
                  (NumberValue (JS.parseInt_str (JS.toString (u_value u)))))
      end
  end.

Definition booking_directives (signupRows : list (list JSVal))
    (updateRequests : list UpdateRequest) : option (list Directive) :=
  ds ← mapM update_directive updateRequests;
  Some (AppendCells SignupsSheet (map (map (fun c => StringValue (String_of c))) signupRows)
          :: ds).

(** The [catch] of the POST branch. *)
Definition booking_failed (phone : string) (w : World) : Response * World :=
  (respond 500 (Error "Booking could not be completed."),
   with_activeBookingsMap (decrementActiveBookings phone (activeBookingsMap w)) w).

(** The body of the [try] of the POST branch, after [incrementActiveBookings]. *)
Definition book (env : Env) (f : Fields) (slotIds : list Z) (w : World)
    : Response * World :=
  let phone := f_phone f in
  match values_batchGet env (slot_row_range <$> slotIds) w with
  | (None, w) => booking_failed phone w
  | (Some slotRanges, w) =>
      match values_get env signups_range w with
      | (None, w) => booking_failed phone w
      | (Some existing, w) =>
          match book_loop env f existing slotRanges 0 slotIds [] [] with
          | LoopReturn r => (r, w)
          | LoopThrow => booking_failed phone w
          | LoopDone signupRows updateRequests =>
              match booking_directives signupRows updateRequests with
              | None => booking_failed phone w
              | Some ds =>
                  match batchUpdate env ds w with
                  | (false, w) => booking_failed phone w
                  | (true, w) =>
                      let w := with_cache (invalidateCache (cache w)) w in
                      let w := with_activeBookingsMap
                                 (decrementActiveBookings phone (activeBookingsMap w)) w in
                      (respond 200 (Message "Booking successful!"), w)
                  end
              end
          end
      end
  end.

Definition handle_post (env : Env) (b : Body) (w : World) : Response * World :=
  match validateBookingRequest b with
  | None => (respond 500 (Error "Unexpected server error."), w)
  | Some errors =>
      if negb (is_nil errors)
      then (respond 400 (Error (JS.join "; " errors)), w)
      else
        let f := {| f_name := sanitizeInput (b_name b) CONFIG.MAX_NAME_LENGTH;
                    f_phone := sanitizeInput (b_phone b) CONFIG.MAX_PHONE_LENGTH;
                    f_email := JS.toLowerCase (sanitizeInput (b_email b) CONFIG.MAX_EMAIL_LENGTH);
                    f_category := sanitizeInput (b_category b) CONFIG.MAX_CATEGORY_LENGTH;
                    f_notes := sanitizeInput (b_notes b) CONFIG.MAX_NOTES_LENGTH |} in
        let slotIds := slot_num <$> default [] (b_slotIds b) in
        if negb (checkConcurrentBookings (f_phone f) (activeBookingsMap w))
        then (respond 429 (Error "Too many concurrent requests. Try again."), w)
        else
          let w := with_activeBookingsMap
                     (incrementActiveBookings (f_phone f) (activeBookingsMap w)) w in
          book env f slotIds w
  end.

(** *** PATCH: cancel a booking *)

(** [!n] for a possibly missing number. *)
Definition falsy_num (o : option Z) : bool :=
  match o with Some 0 => true | Some _ => false | None => true end.

(** [parseInt(slotResp.data.values?.[0]?.[0] || 0)] *)
Definition currentTaken_of (values : list Row) : option Z :=
  match head values ≫= head with
  | Some s => if JS.is_empty s then Some 0 else JS.parseInt_str s
  | None => Some 0
  end.

Definition cancel_directives (env : Env) (signupRowId slotRowId : Z)
    (newTaken : option Z) : list Directive :=
  [ UpdateCells SignupsSheet (signupRowId - 1) signupRowId 9 10
      (StringValue ("CANCELLED:" +:+ isoNow env));
    UpdateCells SlotsSheet (slotRowId - 1) slotRowId 3 4 (NumberValue newTaken) ].

Definition cancel_failed (w : World) : Response * World :=
  (respond 500 (Error "Cancellation failed."), w).

Definition handle_patch (env : Env) (b : Body) (w : World) : Response * World :=
  if falsy_num (b_signupRowId b) || falsy_num (b_slotRowId b) || negb (JS.truthy (b_phone b))
  then (respond 400 (Error "Missing cancellation parameters."), w)
  else
    let signupRowId := default 0 (b_signupRowId b) in
    let slotRowId := default 0 (b_slotRowId b) in
    let phone := default "" (b_phone b) in
    match values_get env (signup_row_range signupRowId) w with
    | (None, w) => cancel_failed w
    | (Some values, w) =>
        match head values with
        | None => (respond 404 (Error "Booking not found."), w)
        | Some row =>
            if negb (bool_decide (JS.trim <$> row !! SIGNUPS.PHONE = Some phone))
            then (respond 403 (Error "Phone number does not match booking."), w)
            else
              match values_get env (taken_cell_range slotRowId) w with
              | (None, w) => cancel_failed w
              | (Some slotValues, w) =>
                  let currentTaken := currentTaken_of slotValues in
                  let newTaken := JS.max0 ((fun t => t - 1) <$> currentTaken) in
                  match batchUpdate env (cancel_directives env signupRowId slotRowId newTaken) w with
                  | (false, w) => cancel_failed w
                  | (true, w) =>
                      let w := with_cache (invalidateCache (cache w)) w in
                      (respond 200 (Message "Booking cancelled successfully."), w)
                  end
              end
        end
    end.

(** *** The exported handler *)

Definition handler (env : Env) (req : Request) (w : World) : Response * World :=
  match method req with
  | OPTIONS => (respond 200 NoBody, w)
  | m =>
      match checkRateLimit (now_rate env) (clientIP req) (rateLimitMap w) with
      | (false, _) =>
          (respond 429 (Error "Too many requests. Please try again later."), w)
      | (true, rl) =>
          let w := with_rateLimitMap rl w in
          match m with
          | GET =>
              if JS.truthy (query_phone req)
              then handle_lookup env (query_phone req) w
              else handle_listing env w
          | POST => handle_post env (body req) w
          | PATCH => handle_patch env (body req) w
          | _ => (respond 405 (Error "Method not allowed."), w)
          end
      end
  end.

(** ** The client: the selection state and the phone check

    The browser code keeps the slots the user has picked in the
    module-level array [selectedSlots]; the array is only ever changed
    through [updateSelectedSlots], which [toggleSlot],
    [removeSlotFromSummary] and the resets call.  The array is the state
    passed through these functions; the changes they make to the page
    (classes, attributes, events, messages) are left out.  A slot id is a
    number, [NaN] being [None].  Before it sends a lookup the client
    checks the phone with its own [isValidPhone]. *)

Module Client.

Definition MAX_SLOTS_PER_BOOKING : nat := 10.

(** [{ id, date, label }] *)
Record Selected := mkSelected {
  id : option Z;
  date : string;
  label : string
}.

(** [a === b] for two numbers: [NaN] equals nothing. *)
Definition same_id (a b : option Z) : bool :=
  match a, b with
  | Some x, Some y => x =? y
  | _, _ => false
  end.

(** The filter of [updateSelectedSlots]: [slot.id], [slot.date] and
    [slot.label] are all truthy. *)
Definition valid_slot (slot : Selected) : bool :=
  match id slot with Some z => negb (z =? 0) | None => false end &&
  negb (JS.is_empty (date slot)) && negb (JS.is_empty (label slot)).

(** [updateSelectedSlots(newSlots)]: the new content of [selectedSlots]. *)
Definition updateSelectedSlots (newSlots : list Selected) : list Selected :=
  let validSlots := filter (fun slot => valid_slot slot = true) newSlots in
  take MAX_SLOTS_PER_BOOKING validSlots.

(** [toggleSlot(date, slotLabel, rowId, element)] *)
Definition toggleSlot (date slotLabel : string) (rowId : option Z)
    (selectedSlots : list Selected) : list Selected :=
  if existsb (fun slot => same_id (id slot) rowId) selectedSlots
  then updateSelectedSlots
         (filter (fun slot => same_id (id slot) rowId = false) selectedSlots)
  else if (MAX_SLOTS_PER_BOOKING <=? length selectedSlots)%nat
  then selectedSlots
  else updateSelectedSlots (selectedSlots ++ [mkSelected rowId date slotLabel]).

(** [removeSlotFromSummary(slotId)] *)
Definition removeSlotFromSummary (slotId : option Z)
    (selectedSlots : list Selected) : list Selected :=
  updateSelectedSlots
    (filter (fun slot => same_id (id slot) slotId = false) selectedSlots).

(** [slotIds] of the body [submitSignup] posts: [selectedSlots.map(s => s.id)],
    a [NaN] being sent as [null]. *)
Definition slotIds (selectedSlots : list Selected) : list SlotVal :=
  (fun slot => match id slot with Some z => IntV z | None => OtherV end) <$> selectedSlots.

(** [[\s\-\(\)\.]], the formatting characters [isValidPhone] removes. *)
Definition formatting_char (c : ascii) : bool :=
  JS.is_ws c || Ascii.eqb c "-" || Ascii.eqb c "(" || Ascii.eqb c ")" || Ascii.eqb c ".".

(** The client's [isValidPhone(phone)]: with the formatting characters
    removed, [/^\+?\d{10,15}$/]. *)
Definition isValidPhone (phone : option string) : bool :=
  match phone with
  | None => false
  | Some p =>
      if JS.is_empty p then false
      else
        let cleaned := JS.filter_chars (fun c => negb (formatting_char c)) p in
        let digits := match cleaned with
                      | String c r => if Ascii.eqb c "+" then r else cleaned
                      | EmptyString => cleaned
                      end in
        JS.all_chars JS.is_digit digits &&
        (10 <=? JS.len digits) && (JS.len digits <=? 15)
  end.

End Client.

(** * Vocabulary of the statements *)

(** A cell the API leaves out and an empty cell are the same cell. *)
Definition content (o : option string) : string := default "" o.

(** [parseInt(cell) || 0]: the number a cell stands for. *)
Definition cell_num (s : string) : Z := JS.or0 (JS.parseInt_str s).

(** [parseInt(cell || 0)], the reading of the cancellation path: [None]
    is [NaN]. *)
Definition cell_num_strict (s : string) : option Z :=
  if JS.is_empty s then Some 0 else JS.parseInt_str s.

Definition taken_of (r : Row) : Z := cell_num (content (r !! SLOTS.TAKEN)).
Definition capacity_of (r : Row) : Z := cell_num (content (r !! SLOTS.CAPACITY)).

Definition taken_at (g : Grid) (r : nat) : Z := cell_num (cell_at g r SLOTS.TAKEN).
Definition capacity_at (g : Grid) (r : nat) : Z := cell_num (cell_at g r SLOTS.CAPACITY).

(** The grid row index of sheet row [id]. *)
Definition row_index (id : Z) : nat := Z.to_nat (id - 1).

(** [0 <= taken <= capacity] on every row of the Slots sheet. *)
Definition row_ok (r : Row) : Prop := 0 <= taken_of r <= capacity_of r.
Definition slots_ok (st : Store) : Prop := Forall row_ok (slots_grid st).

(** The rate limiter lets the request in. *)
Definition allowed (env : Env) (req : Request) (w : World) : Prop :=
  fst (checkRateLimit (now_rate env) (clientIP req) (rateLimitMap w)) = true.

(** The world the branches of the handler start from, once the rate
    limiter has recorded the request. *)
Definition entered (env : Env) (req : Request) (w : World) : World :=
  with_rateLimitMap (snd (checkRateLimit (now_rate env) (clientIP req) (rateLimitMap w))) w.

(** A run of rate-limit checks of one identity at the given times. *)
Fixpoint run_checks (identifier : string) (nows : list Z)
    (m : gmap string (list Z)) : list bool * gmap string (list Z) :=
  match nows with
  | [] => ([], m)
  | now :: rest =>
      let '(ok, m1) := checkRateLimit now identifier m in
      let '(oks, m2) := run_checks identifier rest m1 in
      (ok :: oks, m2)
  end.

(** The writes among the calls of a log. *)
Definition writes (l : list Call) : list Call := List.filter is_write l.

(** ** A small deployment used for concrete runs *)

Module Demo.

Definition slots : Grid :=
  [ ["Date"; "Label"; "Capacity"; "Taken"; "Available"];
    ["2030-01-01"; "9am-10am"; "3"; "1"; "2"];
    ["2030-01-01"; "10am-12pm"; "2"; "2"; "0"];
    ["2030-01-02"; "9am-10am"; "2"; "0"; "2"];
    ["2030-01-02"; "10am-12pm"; "3"; "2"; "1"] ].

Definition signups : Grid :=
  [ ["Timestamp"; "Date"; "Slot"; "Name"; "Email"; "Phone"; "Category";
     "Notes"; "Slot Row"; "Status"];
    ["12/30/2029, 9:00:00 AM"; "2030-01-01"; "9am-10am"; "Al"; "";
     "5551234567"; "Adult"; ""; "2"; "ACTIVE"];
    ["12/30/2029, 9:05:00 AM"; "2030-01-02"; "10am-12pm"; "Bo"; "";
     "5557654321"; "Adult"; ""; "5"; "ACTIVE"] ].

Definition st : Store := mkStore signups slots.

Definition w : World := mkWorld st initial_cache ∅ ∅ [].

(** No Sheets call fails; every date parses to a day after today. *)
Definition env : Env :=
  {| now_rate := 1000000; now_cache_get := 1000001; now_cache_set := 1000002;
     nowStr := "12/31/2029, 8:00:00 AM"; isoNow := "2029-12-31T13:00:00.000Z";
     today_ms := 0; date_ms := fun _ => Some 1; fails := fun _ => false |}.

(** As [env], but every write fails. *)
Definition env_write_fails : Env :=
  {| now_rate := 1000000; now_cache_get := 1000001; now_cache_set := 1000002;
     nowStr := "12/31/2029, 8:00:00 AM"; isoNow := "2029-12-31T13:00:00.000Z";
     today_ms := 0; date_ms := fun _ => Some 1; fails := is_write |}.

Definition phone : string := "5551234567".

Definition booking_body (ids : option (list SlotVal)) : Body :=
  {| b_name := Some "Al"; b_phone := Some phone; b_email := None;
     b_category := Some "Adult"; b_notes := None; b_slotIds := ids;
     b_signupRowId := None; b_slotRowId := None |}.

Definition cancel_body (signupRowId slotRowId : Z) (p : string) : Body :=
  {| b_name := None; b_phone := Some p; b_email := None; b_category := None;
     b_notes := None; b_slotIds := None;
     b_signupRowId := Some signupRowId; b_slotRowId := Some slotRowId |}.

Definition request (m : Method) (b : Body) : Request :=
  {| method := m; x_forwarded_for := Some "203.0.113.7, 10.0.0.1";
     x_real_ip := None; query_phone := None; body := b |}.

Definition post (ids : list Z) : Request :=
  request POST (booking_body (Some (IntV <$> ids))).

Definition patch (signupRowId slotRowId : Z) (p : string) : Request :=
  request PATCH (cancel_body signupRowId slotRowId p).

Definition listing : Request := request GET (booking_body None).

(** Fifty request times, one second apart. *)
Definition times : list Z := (fun i => 1000 * Z.of_nat i) <$> seq 1 50.

End Demo.

(** The sanitized fields and the slot ids the POST branch works with. *)
Definition fields_of (b : Body) : Fields :=
  {| f_name := sanitizeInput (b_name b) CONFIG.MAX_NAME_LENGTH;
     f_phone := sanitizeInput (b_phone b) CONFIG.MAX_PHONE_LENGTH;
     f_email := JS.toLowerCase (sanitizeInput (b_email b) CONFIG.MAX_EMAIL_LENGTH);
     f_category := sanitizeInput (b_category b) CONFIG.MAX_CATEGORY_LENGTH;
     f_notes := sanitizeInput (b_notes b) CONFIG.MAX_NOTES_LENGTH |}.

Definition ids_of (b : Body) : list Z := slot_num <$> default [] (b_slotIds b).

(** The phone the throttle counts a booking request under. *)
Definition throttle_phone (b : Body) : string := f_phone (fields_of b).

(** The world in which the guarded part of a booking runs: the throttle
    has been acquired. *)
Definition acquired (b : Body) (w : World) : World :=
  with_activeBookingsMap
    (incrementActiveBookings (throttle_phone b) (activeBookingsMap w)) w.

(** A booking request reaches the guarded part: validation passes and the
    throttle lets it in. *)
Definition reaches_booking (b : Body) (w : World) : Prop :=
  validateBookingRequest b = Some [] /\
  checkConcurrentBookings (throttle_phone b) (activeBookingsMap w) = true.

(** Row [r] of the grid has nothing in columns [c0 .. c1]; such a row is
    absent from what a range read returns. *)
Definition row_empty (g : Grid) (r c0 c1 : nat) : bool :=
  forallb (fun c => JS.is_empty (cell_at g r c)) (seq c0 (S c1 - c0)).

(** The parameters of a cancellation are all present (truthy). *)
Definition cancel_params (b : Body) (signupRowId slotRowId : Z) (phone : string) : Prop :=
  b_signupRowId b = Some signupRowId /\ signupRowId <> 0 /\
  b_slotRowId b = Some slotRowId /\ slotRowId <> 0 /\
  b_phone b = Some phone /\ phone <> "".

(** The phone cell of the signup in sheet row [signupRowId], as stored. *)
Definition stored_phone (st : Store) (signupRowId : Z) : string :=
  cell_at (signups_grid st) (row_index signupRowId) SIGNUPS.PHONE.

(** The status cell of the signup in sheet row [signupRowId]. *)
Definition stored_status (st : Store) (signupRowId : Z) : string :=
  cell_at (signups_grid st) (row_index signupRowId) SIGNUPS.STATUS.

(** The taken cell of the slot in sheet row [slotRowId]. *)
Definition stored_taken (st : Store) (slotRowId : Z) : string :=
  cell_at (slots_grid st) (row_index slotRowId) SLOTS.TAKEN.

(** [Math.max(0, currentTaken - 1)] of a cancellation, from the stored
    taken cell. *)
Definition decremented (cell : string) : option Z :=
  JS.max0 ((fun t => t - 1) <$> cell_num_strict cell).

(** ** Bookings, as the store holds them *)

(** The status cell of a signup row starts with [ACTIVE]; an empty
    status cell counts as [ACTIVE]. *)
Definition is_active (row : Row) : bool :=
  JS.startsWith "ACTIVE" (JS.or_str (row !! SIGNUPS.STATUS) "ACTIVE").

(** The (phone, slotRowId) pair an ACTIVE signup row claims; rows whose
    slot cell holds no number claim nothing. *)
Definition active_key (row : Row) : option (string * Z) :=
  if is_active row
  then (fun id => (JS.trim (content (row !! SIGNUPS.PHONE)), id)) <$>
         JS.parseInt (row !! SIGNUPS.SLOT_ROW_ID)
  else None.

(** The pairs claimed by the rows of the Signups data range (row 2 on). *)
Definition active_keys (st : Store) : list (string * Z) :=
  omap active_key (drop 1 (signups_grid st)).

(** At most one ACTIVE signup row per (phone, slotRowId) pair. *)
Definition unique_active (st : Store) : Prop := NoDup (active_keys st).

(** What the two reads of a booking return. *)
Definition existing_of (st : Store) : list Row :=
  default [] (read_range st signups_range).

Definition slot_values (st : Store) (id : Z) : list Row :=
  default [] (read_range st (slot_row_range id)).

(** One turn of the loop of the POST branch: the response it returns with,
    or the slot row it goes on with. *)
Definition check_slot (phone : string) (existing : list Row) (slotId : Z)
    (values : list Row) : Response + Row :=
  match head values with
  | None => inl (respond 400 (Error "Slot data missing."))
  | Some row =>
      match List.find (is_duplicate phone slotId) existing with
      | Some _ =>
          inl (respond 409 (Error
            ("Already booked " +:+ String_of (of_cell (row !! SLOTS.LABEL)) +:+ " on " +:+
             String_of (of_cell (row !! SLOTS.DATE)) +:+ ".")))
      | None =>
          if JS.or0 (JS.parseInt (row !! SLOTS.CAPACITY)) <=?
             JS.or0 (JS.parseInt (row !! SLOTS.TAKEN))
          then inl (respond 409 (Error
            ("Slot " +:+ String_of (of_cell (row !! SLOTS.LABEL)) +:+ " on " +:+
             String_of (of_cell (row !! SLOTS.DATE)) +:+ " is full.")))
          else inr row
      end
  end.

(** The check of slot [id] against the store. *)
Definition slot_check (st : Store) (phone : string) (id : Z) : Response + Row :=
  check_slot phone (existing_of st) id (slot_values st id).

(** The response of the first requested slot that fails its check. *)
Fixpoint first_failure (st : Store) (phone : string) (ids : list Z) : option Response :=
  match ids with
  | [] => None
  | id :: rest =>
      match slot_check st phone id with
      | inl r => Some r
      | inr _ => first_failure st phone rest
      end
  end.

(** The signup row and the update the loop builds for a slot that passes. *)
Definition signup_row (env : Env) (f : Fields) (slotId : Z) (row : Row) : list JSVal :=
  [VStr (nowStr env); of_cell (row !! SLOTS.DATE); of_cell (row !! SLOTS.LABEL);
   VStr (f_name f); VStr (f_email f); VStr (f_phone f);
   VStr (f_category f); VStr (f_notes f); VNum slotId; VStr "ACTIVE"].

Definition update_request (slotId : Z) (row : Row) : UpdateRequest :=
  mkUpdateRequest ("Slots!D" +:+ JS.toString slotId)
    (JS.or0 (JS.parseInt (row !! SLOTS.TAKEN)) + 1).

(** The loop, with the values of each slot given by its id. *)
Fixpoint loop_from (env : Env) (f : Fields) (existing : list Row)
    (values_of : Z -> list Row) (ids : list Z)
    (rows : list (list JSVal)) (ups : list UpdateRequest) : LoopResult :=
  match ids with
  | [] => LoopDone rows ups
  | id :: rest =>
      match check_slot (f_phone f) existing id (values_of id) with
      | inl r => LoopReturn r
      | inr row =>
          loop_from env f existing values_of rest
            (rows ++ [signup_row env f id row]) (ups ++ [update_request id row])
      end
  end.

(** The text of the signup row appended for slot [id]. *)
Definition appended_row (env : Env) (f : Fields) (st : Store) (id : Z) : Row :=
  String_of <$> signup_row env f id (default [] (head (slot_values st id))).

(** The Slots grid after the taken cell of each booked slot is set to one
    more than the booking read. *)
Definition bump_taken (st : Store) (ids : list Z) : Grid :=
  foldl (fun g id =>
           set_cell g (row_index id) SLOTS.TAKEN
             (JS.toString (taken_at (slots_grid st) (row_index id) + 1)))
        (slots_grid st) ids.

(** The row of slot [id] the booking works with ([[]] when it is missing). *)
Definition seen_row (st : Store) (id : Z) : Row := default [] (head (slot_values st id)).

(** The directives of the batch write of a booking whose slots all pass. *)
Definition booking_write (env : Env) (f : Fields) (st : Store) (ids : list Z)
    : list Directive :=
  AppendCells SignupsSheet
    ((fun id => (fun c => StringValue (String_of c)) <$> signup_row env f id (seen_row st id))
       <$> ids)
  :: ((fun id => UpdateCells SlotsSheet (id - 1) id 3 4
                   (NumberValue (Some (taken_at (slots_grid st) (row_index id) + 1))))
        <$> ids).

(** The store after that write. *)
Definition booked_store (env : Env) (f : Fields) (st : Store) (ids : list Z) : Store :=
  mkStore (append_rows (signups_grid st) (appended_row env f st <$> ids))
          (bump_taken st ids).

(** The world after the two reads of a booking. *)
Definition after_reads (ids : list Z) (w : World) : World :=
  log_call (ValuesGet signups_range)
    (log_call (ValuesBatchGet (slot_row_range <$> ids)) w).

(** Slot [id] fails a check of the booking loop: its row is missing, the
    phone holds an ACTIVE signup for it, or it is full. *)
Definition slot_fails (st : Store) (phone : string) (id : Z) : bool :=
  row_empty (slots_grid st) (row_index id) 0 3 ||
  bool_decide ((phone, id) ∈ active_keys st) ||
  (capacity_at (slots_grid st) (row_index id) <=? taken_at (slots_grid st) (row_index id)).

(** The answer to a request whose first failing slot is [id]. *)
Definition rejection (st : Store) (phone : string) (id : Z) : Response :=
  let label := String_of (of_cell (seen_row st id !! SLOTS.LABEL)) in
  let date := String_of (of_cell (seen_row st id !! SLOTS.DATE)) in
  if row_empty (slots_grid st) (row_index id) 0 3
  then respond 400 (Error "Slot data missing.")
  else if bool_decide ((phone, id) ∈ active_keys st)
  then respond 409 (Error ("Already booked " +:+ label +:+ " on " +:+ date +:+ "."))
  else respond 409 (Error ("Slot " +:+ label +:+ " on " +:+ date +:+ " is full.")).

(** The store after the batch write of a cancellation. *)
Definition cancelled_store (env : Env) (st : Store) (signupRowId slotRowId : Z) : Store :=
  mkStore
    (set_cell (signups_grid st) (row_index signupRowId) SIGNUPS.STATUS
       ("CANCELLED:" +:+ isoNow env))
    (set_cell (slots_grid st) (row_index slotRowId) SLOTS.TAKEN
       (render (NumberValue (decremented (stored_taken st slotRowId))))).

#[global] Instance row_ok_dec (r : Row) : Decision (row_ok r).
Proof. unfold row_ok. apply _. Defined.

#[global] Instance slots_ok_dec (st : Store) : Decision (slots_ok st).
Proof. unfold slots_ok. apply _. Defined.

#[global] Instance unique_active_dec (st : Store) : Decision (unique_active st).
Proof. unfold unique_active. apply _. Defined.

(** Requests handled one after the other, each with its environment. *)
Fixpoint run (steps : list (Env * Request)) (w : World) : World :=
  match steps with
  | [] => w
  | (env, req) :: rest => run rest (snd (handler env req w))
  end.

(** The slot the listing shows for grid row [idx + 1] (sheet row
    [idx + 2]), from the cells of columns A to D. *)
Definition slot_at (g : Grid) (idx : nat) : Slot :=
  {| slot_id := Z.of_nat idx + 2;
     slot_date := cell_at g (S idx) SLOTS.DATE;
     slot_label := cell_at g (S idx) SLOTS.LABEL;
     slot_capacity := capacity_at g (S idx);
     slot_taken := taken_at g (S idx);
     slot_available := Z.max 0 (capacity_at g (S idx) - taken_at g (S idx)) |}.

(** ** Vocabulary of the properties of the remaining code *)

(** A listing request: a GET without a [phone] in its query. *)
Definition is_listing (req : Request) : Prop :=
  method req = GET /\ JS.truthy (query_phone req) = false.

(** A lookup request: a GET with a [phone] in its query. *)
Definition is_lookup (req : Request) : Prop :=
  method req = GET /\ JS.truthy (query_phone req) = true.

(** The time stamps a rate-limit check at [now] counts for an identity. *)
Definition counted (now : Z) (identifier : string) (m : gmap string (list Z)) : list Z :=
  recent_of now (default [] (m !! identifier)).

(** The clock readings of a run of checks never go back. *)
Fixpoint nondecreasing (now : Z) (ts : list Z) : Prop :=
  match ts with
  | [] => True
  | t :: rest => now <= t /\ nondecreasing t rest
  end.

(** The in-flight count of every phone is between 0 and the ceiling. *)
Definition throttle_ok (m : gmap string Z) : Prop :=
  map_Forall (fun _ c => 0 <= c <= CONFIG.MAX_CONCURRENT_BOOKINGS) m.

#[global] Instance allowed_dec (env : Env) (req : Request) (w : World) :
  Decision (allowed env req w).
Proof. unfold allowed. apply _. Defined.

#[global] Instance Method_eq_dec : EqDecision Method.
Proof. solve_decision. Defined.

(** The text holds no angle bracket. *)
Definition no_angle (s : string) : bool :=
  JS.all_chars (fun c => negb (Ascii.eqb c "<" || Ascii.eqb c ">")) s.

(** The slots of a list the listing shows under date [d]. *)
Definition listed_under (env : Env) (d : string) (slots : list Slot) : list Slot :=
  filter (fun s => slot_listed env s = true /\ slot_date s = d) slots.

(** What holds of the groups after the slots [seen] have been handled. *)
Definition grouped_ok (env : Env) (g : Listing) (seen : list Slot) : Prop :=
  NoDup (g.*1) /\
  (forall d l, (d, l) ∈ g -> l <> [] /\ l = listed_under env d seen) /\
  (forall s, s ∈ seen -> slot_listed env s = true -> slot_date s ∈ g.*1).

(** The phone a lookup searches for. *)
Definition lookup_phone (req : Request) : string :=
  sanitizeInput (query_phone req) CONFIG.MAX_PHONE_LENGTH.

(** Sheet row [n] of the Signups sheet as a read of columns A to J
    returns it. *)
Definition signup_view (st : Store) (n : Z) : Row :=
  row_view 0 9 (default [] (signups_grid st !! row_index n)).

(** The booking a lookup reports for sheet row [n]. *)
Definition booking_at (st : Store) (n : Z) : Booking :=
  booking_of_row (Z.to_nat (n - 2)) (signup_view st n).

(** Sheet row [n], a data row, holds a signup that a lookup of [phone]
    lists: the trimmed phone cell is [phone] and the status cell is empty
    or exactly [ACTIVE]. *)
Definition lists_row (st : Store) (phone : string) (n : Z) : Prop :=
  2 <= n /\ JS.trim (stored_phone st n) = phone /\
  (stored_status st n = "" \/ stored_status st n = "ACTIVE").

(** The bookings a lookup of [phone] answers with. *)
Definition lookup_bookings (st : Store) (phone : string) : list Booking :=
  filter (fun b => JS.trim <$> bk_phone b = Some phone /\ bk_status b = "ACTIVE")
         (imap booking_of_row (existing_of st)).

(** Row 1 of the Signups sheet, the header row, holds some text. *)
Definition has_header (st : Store) : Prop :=
  row_empty (signups_grid st) 0 0 9 = false.

(** The Sheets calls a request issues stay within the quota of a request:
    at most three calls, at most one of them a write, and a write only as
    the last call. *)
Definition within_quota (calls : list Call) : Prop :=
  (length calls <= 3)%nat /\ (length (writes calls) <= 1)%nat /\
  writes calls = writes (drop (length calls - 1) calls).

(** What the pattern [/^[^\s@]+@[^\s@]+\.[^\s@]+$/] denotes: a text
    [local@a.b] whose three parts are non-empty and hold neither white
    space nor [@]. *)
Definition email_shape (e : string) : Prop :=
  exists loc a b,
    e = loc +:+ "@" +:+ a +:+ "." +:+ b /\
    loc <> "" /\ a <> "" /\ b <> "" /\
    JS.all_chars email_char loc = true /\
    JS.all_chars email_char a = true /\
    JS.all_chars email_char b = true.

(** ** The client's selection *)

(** What the user does to the selection. *)
Inductive Action :=
| Toggle (date slotLabel : string) (rowId : option Z)
| Remove (slotId : option Z)
| Clear.

Definition act (a : Action) (selectedSlots : list Client.Selected) : list Client.Selected :=
  match a with
  | Toggle d l r => Client.toggleSlot d l r selectedSlots
  | Remove i => Client.removeSlotFromSummary i selectedSlots
  | Clear => Client.updateSelectedSlots []
  end.

(** The selection after a series of actions, starting from the empty
    selection of a fresh page. *)
Definition selection_after (actions : list Action) : list Client.Selected :=
  foldl (fun sel a => act a sel) [] actions.

(** Every selected slot is complete, no slot id is selected twice and at
    most ten slots are selected. *)
Definition selection_ok (selectedSlots : list Client.Selected) : Prop :=
  Forall (fun slot => Client.valid_slot slot = true) selectedSlots /\
  NoDup (Client.id <$> selectedSlots) /\
  (length selectedSlots <= Client.MAX_SLOTS_PER_BOOKING)%nat.

(** The text holds a dot. *)
Definition has_dot (s : string) : bool :=
  negb (JS.all_chars (fun c => negb (Ascii.eqb c ".")) s).

(** The body of a response is [{ ok: false, error }]. *)
Definition is_error (p : Payload) : bool :=
  match p with Error _ => true | _ => false end.

(** A response is a success (200, with a body that is not an error) or
    one of the seven failures the handler knows, with an error body. *)
Definition answer_ok (r : Response) : Prop :=
  (status r = 200 /\ is_error (payload r) = false) \/
  ((status r = 400 \/ status r = 403 \/ status r = 404 \/ status r = 405 \/
    status r = 409 \/ status r = 429 \/ status r = 500) /\
   is_error (payload r) = true).

(** The signup row in sheet row [n] ([[]] when the sheet ends before). *)
Definition signup_row_at (st : Store) (n : Z) : Row :=
  default [] (signups_grid st !! row_index n).

(** The environment of a request made [ms] milliseconds after those of
    [Demo.env]. *)
Definition env_after (ms : Z) : Env :=
  {| now_rate := now_rate Demo.env + ms; now_cache_get := now_cache_get Demo.env + ms;
     now_cache_set := now_cache_set Demo.env + ms;
     nowStr := nowStr Demo.env; isoNow := isoNow Demo.env;
     today_ms := 0; date_ms := fun _ => Some 1; fails := fun _ => false |}.

(** * Properties *)

Example parseInt_samples :
  JS.parseInt (Some "12abc") = Some 12 /\ JS.parseInt (Some "  -7") = Some (-7) /\
  JS.parseInt (Some "0x1f") = Some 31 /\ JS.parseInt (Some "abc") = None /\
  JS.parseInt (Some "") = None /\ JS.parseInt None = None /\
  JS.parseInt (Some "007") = Some 7 /\ JS.parseInt (Some "0") = Some 0 /\
  JS.toString 1234 = "1234" /\ JS.toString (-40) = "-40" /\ JS.toString 0 = "0" /\
  JS.trim "  a b  " = "a b" /\ JS.match_digits "Slots!D42" = Some "42".
Proof. repeat split; reflexivity. Qed.

Example isValidEmail_samples :
  isValidEmail (Some "al@example.org") = true /\ isValidEmail (Some "a@b.c.d") = true /\
  isValidEmail (Some "a@b..c") = true /\ isValidEmail None = true /\
  isValidEmail (Some "a@b.") = false /\ isValidEmail (Some "a@.c") = false /\
  isValidEmail (Some "@b.c") = false /\ isValidEmail (Some "a b@c.d") = false /\
  isValidEmail (Some "a@b@c.d") = false /\ isValidEmail (Some "a@bc") = false.
Proof. repeat split; reflexivity. Qed.

Example isValidPhone_samples :
  isValidPhone (Some "5551234567") = true /\ isValidPhone (Some "+1 (555) 123-4567") = true /\
  isValidPhone (Some "1234567") = false /\ isValidPhone (Some "555-CALL-NOW") = false /\
  isValidPhone (Some "123456789012345678901") = false /\ isValidPhone None = false.
Proof. repeat split; reflexivity. Qed.

(** ** Trailing-empty stripping *)

Section strip.
Context {A : Type} (e : A -> bool).

Lemma strip_trailing_split (l : list A) :
  exists k, l = strip_trailing e l ++ k /\ Forall (fun x => e x = true) k.
Proof.
  induction l as [|x r [k [Hr Hk]]]; simpl.
  - exists []. split; [done | constructor].
  - destruct (e x) eqn:Hx; simpl.
    + destruct (strip_trailing e r) as [|y r'] eqn:Hs; simpl.
      * exists (x :: k). simpl in Hr. subst r. split; [done | by constructor].
      * exists k. by rewrite Hr at 1.
    + exists k. by rewrite Hr at 1.
Qed.

Lemma strip_trailing_lookup_Some (l : list A) i x :
  strip_trailing e l !! i = Some x -> l !! i = Some x.
Proof.
  destruct (strip_trailing_split l) as [k [Hl _]].
  intros H. rewrite Hl. by apply lookup_app_l_Some.
Qed.

Lemma strip_trailing_lookup_None (l : list A) i :
  strip_trailing e l !! i = None ->
  l !! i = None \/ exists x, l !! i = Some x /\ e x = true.
Proof.
  destruct (strip_trailing_split l) as [k [Hl Hk]].
  intros H. apply lookup_ge_None in H.
  destruct (l !! i) as [x|] eqn:Hx; [right | by left].
  exists x. split; [done|].
  rewrite Hl, lookup_app_r in Hx by done.
  rewrite Forall_forall in Hk. apply Hk. by eapply list_elem_of_lookup_2.
Qed.

Lemma strip_trailing_keep (l : list A) i x :
  l !! i = Some x -> e x = false -> strip_trailing e l !! i = Some x.
Proof.
  intros Hx Hne.
  destruct (strip_trailing e l !! i) as [y|] eqn:Hy.
  - apply strip_trailing_lookup_Some in Hy. congruence.
  - apply strip_trailing_lookup_None in Hy as [Hy | [y [Hy He]]]; congruence.
Qed.

Lemma strip_trailing_nil (l : list A) :
  strip_trailing e l = [] <-> Forall (fun x => e x = true) l.
Proof.
  split.
  - destruct (strip_trailing_split l) as [k [Hl Hk]].
    intros H. rewrite H in Hl. simpl in Hl. by subst.
  - induction 1 as [|x r Hx _ IH]; simpl; [done|]. by rewrite Hx, IH.
Qed.

Lemma strip_trailing_elem (l : list A) x :
  x ∈ strip_trailing e l -> x ∈ l.
Proof.
  destruct (strip_trailing_split l) as [k [Hl _]].
  intros H. rewrite Hl. apply elem_of_app. by left.
Qed.

Lemma strip_trailing_length (l : list A) :
  (length (strip_trailing e l) <= length l)%nat.
Proof.
  destruct (strip_trailing_split l) as [k [Hl _]].
  rewrite Hl at 2. rewrite length_app. lia.
Qed.

Lemma strip_trailing_filter (p : A -> bool) (l : list A) :
  (forall x, e x = true -> p x = false) ->
  List.filter p (strip_trailing e l) = List.filter p l.
Proof.
  intros Hp. destruct (strip_trailing_split l) as [k [Hl Hk]].
  rewrite Hl at 2. rewrite List.filter_app.
  assert (List.filter p k = []) as ->; [|by rewrite app_nil_r].
  clear Hl. induction Hk as [|x k Hx _ IH]; simpl; [done|]. by rewrite (Hp x Hx).
Qed.
End strip.

(** ** Cells as the API shows them *)

Lemma is_empty_true s : JS.is_empty s = true <-> s = "".
Proof. destruct s; simpl; split; congruence. Qed.

Lemma is_empty_false s : JS.is_empty s = false <-> s <> "".
Proof. destruct s; simpl; split; congruence. Qed.

Lemma row_view_content c0 c1 (r : Row) i :
  (c0 + i <= c1)%nat ->
  content (row_view c0 c1 r !! i) = content (r !! (c0 + i)%nat).
Proof.
  intros Hi. unfold row_view.
  assert (drop c0 (take (S c1) r) !! i = r !! (c0 + i)%nat) as Hraw.
  { rewrite lookup_drop. apply lookup_take_lt. lia. }
  destruct (strip_trailing JS.is_empty (drop c0 (take (S c1) r)) !! i) as [x|] eqn:Hx.
  - apply strip_trailing_lookup_Some in Hx. by rewrite <- Hraw, Hx.
  - apply strip_trailing_lookup_None in Hx as [Hx | [x [Hx He]]];
      rewrite <- Hraw, Hx; simpl; [done|].
    symmetry. by apply is_empty_true.
Qed.

Lemma row_view_beyond c0 c1 (r : Row) i :
  (c1 < c0 + i)%nat -> row_view c0 c1 r !! i = None.
Proof.
  intros Hi. unfold row_view.
  destruct (strip_trailing _ _ !! i) eqn:Hx; [|done].
  apply strip_trailing_lookup_Some in Hx.
  rewrite lookup_drop in Hx. apply lookup_lt_Some in Hx.
  rewrite length_take in Hx. lia.
Qed.

Lemma row_view_no_empty c0 c1 (r : Row) i :
  row_view c0 c1 r !! i = Some "" ->
  exists j, (i < j)%nat /\ exists s, row_view c0 c1 r !! j = Some s.
Proof.
  unfold row_view. generalize (drop c0 (take (S c1) r)). intros l. revert i.
  induction l as [|x l IH]; intros i; simpl; [done|].
  destruct (JS.is_empty x && is_nil (strip_trailing JS.is_empty l)) eqn:Hc; [done|].
  destruct i as [|i]; simpl.
  - intros [= ->]. simpl in Hc.
    destruct (strip_trailing JS.is_empty l) as [|y l'] eqn:Hl; [done|].
    exists 1%nat. split; [lia|]. by exists y.
  - intros H. destruct (IH _ H) as [j [Hj [s Hs]]].
    exists (S j). split; [lia|]. by exists s.
Qed.

Lemma parseInt_content o : JS.parseInt o = JS.parseInt_str (content o).
Proof. by destruct o. Qed.

Lemma or_str_content o d : JS.or_str o d = JS.or_str (Some (content o)) d.
Proof. by destruct o. Qed.

Lemma trim_is_content (o : option string) (p : string) :
  p <> "" -> JS.trim <$> o = Some p <-> JS.trim (content o) = p.
Proof.
  intros Hp. destruct o as [s|]; simpl.
  - split; congruence.
  - split; [done|]. intros H. by rewrite <- H in Hp.
Qed.

(** ** Strings *)

Lemma trimEnd_idem s : JS.trimEnd (JS.trimEnd s) = JS.trimEnd s.
Proof.
  induction s as [|c r IH]; simpl; [done|].
  destruct (JS.is_ws c && JS.is_empty (JS.trimEnd r)) eqn:Hc; simpl; [done|].
  by rewrite IH, Hc.
Qed.

Lemma trimStart_head s :
  JS.trimStart s = "" \/
  exists c r, JS.trimStart s = String c r /\ JS.is_ws c = false.
Proof.
  induction s as [|c r IH]; simpl; [by left|].
  destruct (JS.is_ws c) eqn:Hc; [done|]. right. by exists c, r.
Qed.

Lemma trim_idem s : JS.trim (JS.trim s) = JS.trim s.
Proof.
  unfold JS.trim. destruct (trimStart_head s) as [-> | [c [r [-> Hc]]]]; [done|].
  simpl. rewrite Hc. simpl. rewrite Hc. simpl. rewrite Hc. simpl.
  by rewrite trimEnd_idem.
Qed.

Lemma all_chars_trimStart p s :
  JS.all_chars p s = true -> JS.all_chars p (JS.trimStart s) = true.
Proof.
  induction s as [|c r IH]; simpl; [done|].
  intros [Hc Hr]%andb_prop. destruct (JS.is_ws c); [auto|]. simpl. by rewrite Hc, Hr.
Qed.

Lemma all_chars_trimEnd p s :
  JS.all_chars p s = true -> JS.all_chars p (JS.trimEnd s) = true.
Proof.
  induction s as [|c r IH]; simpl; [done|].
  intros [Hc Hr]%andb_prop.
  destruct (JS.is_ws c && JS.is_empty (JS.trimEnd r)); simpl; [done|].
  by rewrite Hc, IH.
Qed.

Lemma length_trimStart s : (String.length (JS.trimStart s) <= String.length s)%nat.
Proof.
  induction s as [|c r IH]; simpl; [done|]. destruct (JS.is_ws c); simpl; lia.
Qed.

Lemma length_trimEnd s : (String.length (JS.trimEnd s) <= String.length s)%nat.
Proof.
  induction s as [|c r IH]; simpl; [done|].
  destruct (JS.is_ws c && JS.is_empty (JS.trimEnd r)); simpl; lia.
Qed.

Lemma filter_chars_all p s : JS.all_chars p s = true -> JS.filter_chars p s = s.
Proof.
  induction s as [|c r IH]; simpl; [done|].
  intros [Hc Hr]%andb_prop. by rewrite Hc, IH.
Qed.

Lemma all_chars_impl (p q : ascii -> bool) s :
  (forall c, p c = true -> q c = true) ->
  JS.all_chars p s = true -> JS.all_chars q s = true.
Proof.
  intros Hpq. induction s as [|c r IH]; simpl; [done|].
  intros [Hc Hr]%andb_prop. by rewrite (Hpq c Hc), IH.
Qed.

Lemma take_chars_all n s : (String.length s <= n)%nat -> JS.take_chars n s = s.
Proof.
  revert n. induction s as [|c r IH]; intros [|n]; simpl; try done; try lia.
  intros H. rewrite IH; [done | lia].
Qed.

Lemma span_chars_all p s : JS.all_chars p s = true -> JS.span_chars p s = (s, "").
Proof.
  induction s as [|c r IH]; simpl; [done|].
  intros [Hc Hr]%andb_prop. by rewrite Hc, (IH Hr).
Qed.

Lemma phone_char_no_angle c :
  phone_char c = true -> negb (Ascii.eqb c "<" || Ascii.eqb c ">") = true.
Proof. destruct c as [[] [] [] [] [] [] [] []]; vm_compute; congruence. Qed.

(** A phone number that passes [isValidPhone] is sanitized by trimming
    alone. *)
Lemma sanitize_valid_phone p :
  isValidPhone (Some p) = true ->
  sanitizeInput (Some p) CONFIG.MAX_PHONE_LENGTH = JS.trim p.
Proof.
  unfold isValidPhone, sanitizeInput.
  destruct (JS.is_empty p); [done|].
  intros [[Hch Hlo]%andb_prop Hhi]%andb_prop.
  rewrite filter_chars_all.
  - apply take_chars_all. unfold JS.trim, JS.len, CONFIG.MAX_PHONE_LENGTH in *.
    pose proof (length_trimEnd (JS.trimStart p)). pose proof (length_trimStart p).
    apply Z.leb_le in Hhi. lia.
  - apply (all_chars_impl phone_char); [apply phone_char_no_angle|].
    by apply all_chars_trimEnd, all_chars_trimStart.
Qed.

Lemma sanitize_valid_phone_trimmed p :
  isValidPhone (Some p) = true ->
  JS.trim (sanitizeInput (Some p) CONFIG.MAX_PHONE_LENGTH) =
  sanitizeInput (Some p) CONFIG.MAX_PHONE_LENGTH.
Proof. intros H. rewrite (sanitize_valid_phone _ H). apply trim_idem. Qed.

(** ** Numbers and their decimal text *)

Lemma string_of_uint_digits d :
  JS.all_chars JS.is_digit (NilEmpty.string_of_uint d) = true.
Proof. induction d; simpl; try done; by rewrite IHd. Qed.

Lemma digit_facts c :
  JS.is_digit c = true ->
  JS.is_ws c = false /\ Ascii.eqb c "-" = false /\ Ascii.eqb c "+" = false /\
  Ascii.eqb c "x" = false /\ Ascii.eqb c "X" = false.
Proof. destruct c as [[] [] [] [] [] [] [] []]; vm_compute; intros; by repeat split. Qed.

Lemma parse_decimal_digits s :
  s <> "" -> JS.all_chars JS.is_digit s = true ->
  JS.parse_magnitude s = Z.of_uint <$> NilEmpty.uint_of_string s.
Proof.
  intros Hne Hall.
  assert (JS.parse_decimal s = Z.of_uint <$> NilEmpty.uint_of_string s) as Hd.
  { unfold JS.parse_decimal. rewrite (span_chars_all _ _ Hall).
    destruct s; [done|]. done. }
  destruct s as [|a [|b r]]; try done.
  unfold JS.parse_magnitude. simpl in Hall.
  apply andb_prop in Hall as [_ [Hb _]%andb_prop].
  destruct (digit_facts b Hb) as (_ & _ & _ & -> & ->).
  by rewrite andb_false_r.
Qed.

Lemma parseInt_digits s :
  s <> "" -> JS.all_chars JS.is_digit s = true ->
  JS.parseInt_str s = Z.of_uint <$> NilEmpty.uint_of_string s.
Proof.
  intros Hne Hall. unfold JS.parseInt_str.
  destruct s as [|a r]; [done|].
  pose proof Hall as Hall'. simpl in Hall'.
  apply andb_prop in Hall' as [Ha _].
  destruct (digit_facts a Ha) as (Hws & Hm & Hp & _).
  assert (JS.trimStart (String a r) = String a r) as -> by (simpl; by rewrite Hws).
  cbv iota beta. rewrite Hm, Hp. by apply parse_decimal_digits.
Qed.

Lemma string_of_uint_nonempty d : d <> Nil -> NilEmpty.string_of_uint d <> "".
Proof. by destruct d. Qed.

Lemma toString_pos p :
  JS.toString (Z.pos p) = NilEmpty.string_of_uint (Pos.to_uint p).
Proof.
  unfold JS.toString. simpl.
  pose proof (DecimalPos.Unsigned.to_uint_nonnil p).
  by destruct (Pos.to_uint p).
Qed.

Lemma of_uint_to_uint p : Z.of_uint (Pos.to_uint p) = Z.pos p.
Proof. exact (DecimalZ.of_to (Z.pos p)). Qed.

Lemma parse_magnitude_pos p :
  JS.parse_magnitude (JS.toString (Z.pos p)) = Some (Z.pos p).
Proof.
  rewrite toString_pos, parse_decimal_digits.
  - by rewrite NilEmpty.usu; simpl; rewrite of_uint_to_uint.
  - apply string_of_uint_nonempty, DecimalPos.Unsigned.to_uint_nonnil.
  - apply string_of_uint_digits.
Qed.

Lemma toString_digits z :
  0 <= z -> JS.toString z <> "" /\ JS.all_chars JS.is_digit (JS.toString z) = true.
Proof.
  destruct z as [|p|p]; [done| |done]. intros _. rewrite toString_pos. split.
  - apply string_of_uint_nonempty, DecimalPos.Unsigned.to_uint_nonnil.
  - apply string_of_uint_digits.
Qed.

(** Reading back the decimal text of an integer gives the integer. *)
Lemma parseInt_toString z : JS.parseInt_str (JS.toString z) = Some z.
Proof.
  destruct z as [|p|p]; [done| |].
  - destruct (toString_digits (Z.pos p)) as [Hne Hall]; [done|].
    rewrite parseInt_digits by done.
    rewrite <- parse_decimal_digits by done. apply parse_magnitude_pos.
  - unfold JS.parseInt_str.
    replace (JS.toString (Z.neg p)) with (String "-" (JS.toString (Z.pos p))).
    + simpl JS.trimStart. cbv iota beta. rewrite parse_magnitude_pos. done.
    + unfold JS.toString. simpl.
      pose proof (DecimalPos.Unsigned.to_uint_nonnil p). by destruct (Pos.to_uint p).
Qed.

Lemma match_digits_slots_range z :
  0 < z -> JS.match_digits ("Slots!D" +:+ JS.toString z) = Some (JS.toString z).
Proof.
  intros Hz. destruct (toString_digits z) as [Hne Hall]; [lia|].
  unfold JS.match_digits. simpl.
  destruct (JS.toString z) as [|a r] eqn:Hs; [done|].
  pose proof Hall as Hall'. simpl in Hall'. apply andb_prop in Hall' as [Ha _].
  simpl. rewrite Ha. simpl.
  change (if JS.is_digit a then _ else _) with (JS.span_chars JS.is_digit (String a r)).
  by rewrite (span_chars_all _ _ Hall).
Qed.

(** ** Rate limiter *)

Section filter_facts.
Context {A : Type} (P : A -> Prop) `{!forall x, Decision (P x)}.

Lemma filter_all (l : list A) : Forall P l -> filter P l = l.
Proof.
  induction 1 as [|x l Hx _ IH]; [done|].
  rewrite filter_cons. destruct (decide (P x)); [by rewrite IH | done].
Qed.

Lemma filter_none (l : list A) : Forall (fun x => ~ P x) l -> filter P l = [].
Proof.
  induction 1 as [|x l Hx _ IH]; [done|].
  rewrite filter_cons. destruct (decide (P x)); [done | by rewrite IH].
Qed.
End filter_facts.

Lemma checkRateLimit_allow now id (m : gmap string (list Z)) :
  Forall (fun t => now - t < CONFIG.RATE_LIMIT_WINDOW) (default [] (m !! id)) ->
  (length (default [] (m !! id)) < 50)%nat ->
  checkRateLimit now id m = (true, <[id := default [] (m !! id) ++ [now]]> m).
Proof.
  intros Hall Hlen. unfold checkRateLimit, recent_of.
  rewrite (filter_all _ _ Hall).
  destruct (CONFIG.RATE_LIMIT_MAX_REQUESTS <=? _) eqn:Hc; [|done].
  apply Z.leb_le in Hc. unfold CONFIG.RATE_LIMIT_MAX_REQUESTS in Hc. lia.
Qed.

Lemma checkRateLimit_deny now id (m : gmap string (list Z)) :
  Forall (fun t => now - t < CONFIG.RATE_LIMIT_WINDOW) (default [] (m !! id)) ->
  (50 <= length (default [] (m !! id)))%nat ->
  checkRateLimit now id m = (false, m).
Proof.
  intros Hall Hlen. unfold checkRateLimit, recent_of.
  rewrite (filter_all _ _ Hall).
  destruct (CONFIG.RATE_LIMIT_MAX_REQUESTS <=? _) eqn:Hc; [done|].
  apply Z.leb_gt in Hc. unfold CONFIG.RATE_LIMIT_MAX_REQUESTS in Hc. lia.
Qed.

Lemma checkRateLimit_aged now id (m : gmap string (list Z)) :
  Forall (fun t => CONFIG.RATE_LIMIT_WINDOW <= now - t) (default [] (m !! id)) ->
  checkRateLimit now id m = (true, <[id := [now]]> m).
Proof.
  intros Hall. unfold checkRateLimit, recent_of.
  rewrite filter_none; [done|].
  eapply Forall_impl; [exact Hall|]. simpl. intros t Ht. lia.
Qed.

(** A denial leaves the whole table as it was. *)
Lemma checkRateLimit_denied_unchanged now id (m : gmap string (list Z)) :
  fst (checkRateLimit now id m) = false -> snd (checkRateLimit now id m) = m.
Proof. unfold checkRateLimit. by destruct (_ <=? _). Qed.

Lemma run_checks_allowed id (ts : list Z) :
  forall (m : gmap string (list Z)),
    Forall (fun a => Forall (fun b => b - a < CONFIG.RATE_LIMIT_WINDOW) ts)
           (default [] (m !! id) ++ ts) ->
    (length (default [] (m !! id)) + length ts <= 50)%nat ->
    fst (run_checks id ts m) = replicate (length ts) true /\
    default [] (snd (run_checks id ts m) !! id) = default [] (m !! id) ++ ts.
Proof.
  induction ts as [|now rest IH]; intros m Hwin Hlen; simpl.
  - by rewrite app_nil_r.
  - simpl in Hlen.
    rewrite checkRateLimit_allow; [| |lia].
    + set (m1 := <[id := default [] (m !! id) ++ [now]]> m).
      assert (default [] (m1 !! id) = default [] (m !! id) ++ [now]) as Hm1.
      { unfold m1. by rewrite lookup_insert_eq. }
      destruct (IH m1) as [Hoks Hfin].
      * rewrite Hm1, <- app_assoc. simpl.
        eapply Forall_impl; [exact Hwin|]. simpl. intros a Ha.
        by apply Forall_cons in Ha as [_ Ha].
      * rewrite Hm1, length_app. simpl. lia.
      * destruct (run_checks id rest m1) as [oks m2]. simpl in *.
        rewrite Hoks, Hfin, Hm1, <- app_assoc. done.
    + apply Forall_app in Hwin as [Hcur _].
      eapply Forall_impl; [exact Hcur|]. simpl. intros a Ha.
      by apply Forall_cons in Ha as [Ha _].
Qed.

(** C6.  With the ceiling of 50 requests per window of 60000 ms: the
    first 50 requests of an identity that fall within one window are each
    allowed and recorded; a 51st request inside the window is denied and
    the table (so the identity's list of time stamps) is left unchanged;
    once the recorded time stamps are a full window old a request is
    allowed again. *)
Theorem C6_rate_limiter_window (id : string) (m : gmap string (list Z))
    (ts : list Z) (t51 later : Z) :
  default [] (m !! id) = [] ->
  length ts = 50%nat ->
  Forall (fun a => Forall (fun b => b - a < CONFIG.RATE_LIMIT_WINDOW) ts) ts ->
  Forall (fun t => t51 - t < CONFIG.RATE_LIMIT_WINDOW) ts ->
  Forall (fun t => CONFIG.RATE_LIMIT_WINDOW <= later - t) ts ->
  let m50 := snd (run_checks id ts m) in
  fst (run_checks id ts m) = replicate 50 true /\
  m50 !! id = Some ts /\
  checkRateLimit t51 id m50 = (false, m50) /\
  checkRateLimit later id m50 = (true, <[id := [later]]> m50).
Proof.
  intros Hfresh Hlen Hwin H51 Hlater m50.
  destruct (run_checks_allowed id ts m) as [Hoks Hfin].
  { by rewrite Hfresh. }
  { rewrite Hfresh, Hlen. simpl. lia. }
  rewrite Hfresh in Hfin. simpl in Hfin. fold m50 in Hfin.
  assert (m50 !! id = Some ts) as Hm50.
  { destruct (m50 !! id) as [l|] eqn:Hl; simpl in Hfin; [by subst|].
    subst ts. done. }
  rewrite Hlen in Hoks. repeat split; try done.
  - apply checkRateLimit_deny; rewrite Hm50; simpl; [done | lia].
  - apply checkRateLimit_aged. by rewrite Hm50.
Qed.

Lemma C6_rate_limiter_window_witness :
  let m50 := snd (run_checks "203.0.113.7" Demo.times ∅) in
  fst (run_checks "203.0.113.7" Demo.times ∅) = replicate 50 true /\
  m50 !! "203.0.113.7" = Some Demo.times /\
  checkRateLimit 50500 "203.0.113.7" m50 = (false, m50) /\
  checkRateLimit 200000 "203.0.113.7" m50 = (true, <["203.0.113.7" := [200000]]> m50).
Proof.
  apply (C6_rate_limiter_window "203.0.113.7" ∅ Demo.times 50500 200000).
  - reflexivity.
  - reflexivity.
  - apply (bool_decide_unpack _). vm_compute. exact I.
  - apply (bool_decide_unpack _). vm_compute. exact I.
  - apply (bool_decide_unpack _). vm_compute. exact I.
Defined.

(** ** The shape of the handler *)

Lemma entered_fields env req w :
  store (entered env req w) = store w /\ cache (entered env req w) = cache w /\
  activeBookingsMap (entered env req w) = activeBookingsMap w /\
  log (entered env req w) = log w.
Proof. done. Qed.

Lemma handler_denied env req w :
  method req <> OPTIONS -> ~ allowed env req w ->
  handler env req w =
  (respond 429 (Error "Too many requests. Please try again later."), w).
Proof.
  unfold handler, allowed. intros Hm Hadm.
  destruct (checkRateLimit _ _ _) as [[] rl]; simpl in *; [done|].
  by destruct (method req).
Qed.

Lemma handler_post env req w :
  method req = POST -> allowed env req w ->
  handler env req w = handle_post env (body req) (entered env req w).
Proof.
  unfold handler, allowed, entered. intros -> Hadm.
  destruct (checkRateLimit _ _ _) as [[] rl]; simpl in *; done.
Qed.

Lemma handler_patch env req w :
  method req = PATCH -> allowed env req w ->
  handler env req w = handle_patch env (body req) (entered env req w).
Proof.
  unfold handler, allowed, entered. intros -> Hadm.
  destruct (checkRateLimit _ _ _) as [[] rl]; simpl in *; done.
Qed.

Lemma handler_listing env req w :
  method req = GET -> JS.truthy (query_phone req) = false -> allowed env req w ->
  handler env req w = handle_listing env (entered env req w).
Proof.
  unfold handler, allowed, entered. intros -> Hq Hadm.
  destruct (checkRateLimit _ _ _) as [[] rl]; simpl in *; [|done].
  by rewrite Hq.
Qed.

(** A response other than 429 means the rate limiter let the request in. *)
Lemma handler_not_429_allowed env req w :
  method req <> OPTIONS ->
  status (fst (handler env req w)) <> 429 -> allowed env req w.
Proof.
  intros Hm Hst. unfold allowed.
  destruct (fst (checkRateLimit _ _ _)) eqn:Hadm; [done|].
  rewrite handler_denied in Hst; [done | done |].
  unfold allowed. by rewrite Hadm.
Qed.

(** An early [return] of the loop is a 400 or a 409 with an error body. *)
Lemma book_loop_return env f existing slotRanges slotIds :
  forall i rows ups r,
    book_loop env f existing slotRanges i slotIds rows ups = LoopReturn r ->
    (status r = 400 \/ status r = 409) /\ exists e, payload r = Error e.
Proof.
  induction slotIds as [|slotId rest IH]; intros i rows ups r; simpl; [done|].
  repeat case_match; try done; try (intros [= <-]; simpl; eauto).
  apply IH.
Qed.

Ltac open_book :=
  unfold book, booking_failed, values_batchGet, values_get, batchUpdate;
  repeat (case_match; simplify_eq; simpl in * ).

Lemma book_200 env f slotIds w :
  status (fst (book env f slotIds w)) = 200 ->
  exists slotRanges existing signupRows updateRequests ds st',
    mapM (read_range (store w)) (slot_row_range <$> slotIds) = Some slotRanges /\
    read_range (store w) signups_range = Some existing /\
    book_loop env f existing slotRanges 0 slotIds [] [] = LoopDone signupRows updateRequests /\
    booking_directives signupRows updateRequests = Some ds /\
    apply_batch (store w) ds = Some st' /\
    book env f slotIds w =
    (respond 200 (Message "Booking successful!"),
     mkWorld st' (mkCache None 0) (rateLimitMap w)
       (decrementActiveBookings (f_phone f) (activeBookingsMap w))
       (log w ++ [ValuesBatchGet (slot_row_range <$> slotIds)] ++
          [ValuesGet signups_range] ++ [BatchUpdate ds])).
Proof.
  open_book; intros Hst; try done.
  - match goal with
    | H : book_loop _ _ _ _ _ _ _ _ = LoopReturn _ |- _ =>
        apply book_loop_return in H as [[?|?] _]; congruence
    end.
  - eexists _, _, _, _, _, _. repeat split; try done.
    unfold with_activeBookingsMap, with_cache, with_store, log_call, invalidateCache.
    simpl. by rewrite <- !app_assoc.
Qed.

Lemma handle_post_book env b w :
  reaches_booking b w ->
  handle_post env b w = book env (fields_of b) (ids_of b) (acquired b w).
Proof.
  intros [Hv Hc]. unfold handle_post. rewrite Hv. simpl.
  unfold throttle_phone, fields_of in Hc. simpl in Hc. by rewrite Hc.
Qed.

Lemma handle_post_other env b w :
  ~ reaches_booking b w ->
  snd (handle_post env b w) = w /\ status (fst (handle_post env b w)) <> 200.
Proof.
  intros Hn. unfold handle_post.
  destruct (validateBookingRequest b) as [errors|] eqn:Hv; [|done].
  destruct errors as [|e errors]; simpl; [|done].
  destruct (checkConcurrentBookings _ _) eqn:Hc; simpl; [|done].
  destruct Hn. by split.
Qed.

Lemma handle_post_200 env b w :
  status (fst (handle_post env b w)) = 200 -> reaches_booking b w.
Proof.
  intros Hst. destruct (validateBookingRequest b) as [[|e errors]|] eqn:Hv.
  - destruct (checkConcurrentBookings (throttle_phone b) (activeBookingsMap w)) eqn:Hc;
      [done|].
    destruct (handle_post_other env b w) as [_ H]; [|done].
    intros [_ H']. congruence.
  - destruct (handle_post_other env b w) as [_ H]; [|done]. intros [H' _]. congruence.
  - destruct (handle_post_other env b w) as [_ H]; [|done]. intros [H' _]. congruence.
Qed.

Ltac open_patch :=
  unfold handle_patch, cancel_failed, values_get, batchUpdate;
  repeat (case_match; simplify_eq; simpl in * ).

Lemma handle_patch_200 env b w :
  status (fst (handle_patch env b w)) = 200 ->
  cache (snd (handle_patch env b w)) = mkCache None 0.
Proof. open_patch; intros Hst; done. Qed.

(** ** Cache *)

Lemma getCachedSlots_empty now c : cache_slots c = None -> getCachedSlots now c = None.
Proof. unfold getCachedSlots. by intros ->. Qed.

Lemma handle_listing_miss env w :
  cache_slots (cache w) = None ->
  log (snd (handle_listing env w)) = log w ++ [ValuesGet slots_range] /\
  (fails env (ValuesGet slots_range) = false ->
   exists rows, read_range (store w) slots_range = Some rows /\
     fst (handle_listing env w) =
     respond 200 (Dates (group_slots env (imap slot_of_row rows)))).
Proof.
  intros Hc. unfold handle_listing. rewrite getCachedSlots_empty by done.
  unfold values_get. destruct (fails env _); simpl.
  - split; [done|]. done.
  - split; [done|]. intros _. eexists. split; [reflexivity|]. done.
Qed.

(** C9.  A booking (POST) or cancellation (PATCH) that succeeds, i.e.
    answers 200 after its write, leaves the slot cache empty; so the next
    listing read that the rate limiter lets in, at whatever time, finds no
    valid cache entry, issues a read of the Slots range and answers from
    what the store holds. *)
Theorem C9_write_invalidates_cache (env : Env) (req : Request) (w : World) :
  method req = POST \/ method req = PATCH ->
  status (fst (handler env req w)) = 200 ->
  let w' := snd (handler env req w) in
  cache w' = mkCache None 0 /\
  forall env' req',
    method req' = GET -> JS.truthy (query_phone req') = false ->
    allowed env' req' w' ->
    getCachedSlots (now_cache_get env') (cache w') = None /\
    log (snd (handler env' req' w')) = log w' ++ [ValuesGet slots_range] /\
    (fails env' (ValuesGet slots_range) = false ->
     exists rows, read_range (store w') slots_range = Some rows /\
       fst (handler env' req' w') =
       respond 200 (Dates (group_slots env' (imap slot_of_row rows)))).
Proof.
  intros Hm Hst w'.
  assert (allowed env req w) as Hadm.
  { apply handler_not_429_allowed; [destruct Hm as [-> | ->]; done|]. by rewrite Hst. }
  assert (cache w' = mkCache None 0) as Hcache.
  { unfold w'. destruct Hm as [Hm | Hm].
    - rewrite handler_post in * by done.
      pose proof (handle_post_200 _ _ _ Hst) as Hr.
      rewrite handle_post_book in * by done.
      destruct (book_200 _ _ _ _ Hst) as (? & ? & ? & ? & ? & ? & _ & _ & _ & _ & _ & ->).
      done.
    - rewrite handler_patch in * by done. by apply handle_patch_200. }
  split; [done|]. intros env' req' Hg Hq Hadm'.
  split; [by rewrite Hcache|].
  rewrite handler_listing by done.
  destruct (handle_listing_miss env' (entered env' req' w')) as [Hlog Hresp].
  { change (cache_slots (cache w') = None). by rewrite Hcache. }
  split; [exact Hlog | exact Hresp].
Qed.

Lemma C9_write_invalidates_cache_witness :
  let w' := snd (handler Demo.env (Demo.post [4]) Demo.w) in
  cache w' = mkCache None 0 /\
  forall env' req',
    method req' = GET -> JS.truthy (query_phone req') = false ->
    allowed env' req' w' ->
    getCachedSlots (now_cache_get env') (cache w') = None /\
    log (snd (handler env' req' w')) = log w' ++ [ValuesGet slots_range] /\
    (fails env' (ValuesGet slots_range) = false ->
     exists rows, read_range (store w') slots_range = Some rows /\
       fst (handler env' req' w') =
       respond 200 (Dates (group_slots env' (imap slot_of_row rows)))).
Proof.
  apply (C9_write_invalidates_cache Demo.env (Demo.post [4]) Demo.w).
  - left. reflexivity.
  - vm_compute. reflexivity.
Defined.

(** ** Reading one row *)

Lemma take1_drop {A} (l : list A) k : take 1 (drop k l) = option_list (l !! k).
Proof.
  revert k. induction l as [|x l IH]; intros [|k]; simpl; done.
Qed.

Lemma cell_at_row (g : Grid) r c (row : list string) :
  g !! r = Some row -> cell_at g r c = content (row !! c).
Proof. unfold cell_at. by intros ->. Qed.

Lemma cell_at_no_row (g : Grid) r c : g !! r = None -> cell_at g r c = "".
Proof. unfold cell_at. by intros ->. Qed.

Lemma row_empty_true (g : Grid) r c0 c1 :
  row_empty g r c0 c1 = true <->
  forall i, (c0 + i <= c1)%nat -> cell_at g r (c0 + i) = "".
Proof.
  unfold row_empty. rewrite forallb_forall. split.
  - intros H i Hi. apply is_empty_true, H, in_seq. lia.
  - intros H c [Hlo Hhi]%in_seq. apply is_empty_true.
    replace c with (c0 + (c - c0))%nat by lia. apply H. lia.
Qed.

Lemma row_view_nil c0 c1 (row : list string) :
  row_view c0 c1 row = [] <->
  forall i, (c0 + i <= c1)%nat -> content (row !! (c0 + i)%nat) = "".
Proof.
  split.
  - intros Hnil i Hi. rewrite <- (row_view_content c0 c1) by done. by rewrite Hnil.
  - intros Hall. unfold row_view. apply strip_trailing_nil, Forall_lookup.
    intros j x Hx. apply is_empty_true.
    rewrite lookup_drop in Hx. apply lookup_take_Some in Hx as [Hx Hj].
    specialize (Hall j ltac:(lia)). by rewrite Hx in Hall.
Qed.

(** What a read of the single row [n] returns: no row when the row is
    empty in the columns of the range, else the row as the API shows it. *)
Lemma read_single_row st sh c0 c1 n :
  1 <= n ->
  let g := grid_of st sh in
  if row_empty g (row_index n) c0 c1
  then read_range st (mkRange sh c0 c1 n (Some n)) = Some []
  else exists row : list string,
      read_range st (mkRange sh c0 c1 n (Some n)) = Some [row] /\
      forall i, (c0 + i <= c1)%nat ->
                content (row !! i) = cell_at g (row_index n) (c0 + i).
Proof.
  intros Hn g. unfold read_range. simpl.
  destruct (n <? 1) eqn:Hlt; [apply Z.ltb_lt in Hlt; lia|].
  replace (Z.to_nat (n - n + 1)) with 1%nat by lia.
  fold g. fold (row_index n). rewrite take1_drop.
  destruct (g !! row_index n) as [row|] eqn:Hrow; simpl.
  - destruct (row_empty g (row_index n) c0 c1) eqn:He.
    + rewrite row_empty_true in He.
      assert (row_view c0 c1 row = []) as ->; [|done].
      apply row_view_nil. intros i Hi. rewrite <- (cell_at_row g _ _ _ Hrow). by apply He.
    + destruct (row_view c0 c1 row) as [|x v] eqn:Hv.
      * rewrite row_view_nil in Hv.
        assert (row_empty g (row_index n) c0 c1 = true); [|congruence].
        apply row_empty_true. intros i Hi. rewrite (cell_at_row g _ _ _ Hrow). by apply Hv.
      * simpl. exists (x :: v). split; [done|].
        intros i Hi. rewrite (cell_at_row g _ _ _ Hrow), <- Hv. by apply row_view_content.
  - assert (row_empty g (row_index n) c0 c1 = true) as ->; [|done].
    apply row_empty_true. intros i Hi. by apply cell_at_no_row.
Qed.

(** ** Writing one cell *)

Lemma length_pad_to {A} n (d : A) l : length (pad_to n d l) = (n `max` length l)%nat.
Proof. unfold pad_to. rewrite length_app, length_replicate. lia. Qed.

Lemma pad_to_default {A} n (d : A) l i :
  default d (pad_to n d l !! i) = default d (l !! i).
Proof.
  unfold pad_to. destruct (decide (i < length l)%nat) as [Hi|Hi].
  - by rewrite lookup_app_l.
  - rewrite lookup_app_r by lia. rewrite (lookup_ge_None_2 l i) by lia.
    destruct (replicate _ _ !! _) eqn:Hr; [|done].
    by apply lookup_replicate in Hr as [-> _].
Qed.

Lemma cell_at_default (g : Grid) r c :
  cell_at g r c = content (default [] (g !! r) !! c).
Proof. unfold cell_at. by destruct (g !! r). Qed.

Lemma cell_at_set_cell (g : Grid) r c v r' c' :
  cell_at (set_cell g r c v) r' c' =
  if decide (r' = r /\ c' = c) then v else cell_at g r' c'.
Proof.
  unfold set_cell.
  set (g' := pad_to (S r) [] g).
  set (row := pad_to (S c) "" (default [] (g' !! r))).
  assert (r < length g')%nat as Hr by (unfold g'; rewrite length_pad_to; lia).
  assert (c < length row)%nat as Hc by (unfold row; rewrite length_pad_to; lia).
  assert (forall k, default [] (g' !! k) = default [] (g !! k)) as Hg'
    by (intros k; apply pad_to_default).
  destruct (decide (r' = r)) as [->|Hne].
  - rewrite (cell_at_row _ _ _ _ (list_lookup_insert_eq _ _ _ Hr)).
    destruct (decide (c' = c)) as [->|Hnc].
    + rewrite decide_True by done. by rewrite list_lookup_insert_eq.
    + rewrite decide_False by (intros [_ ?]; done).
      rewrite list_lookup_insert_ne by done.
      unfold row, content. rewrite pad_to_default, Hg'. symmetry. apply cell_at_default.
  - rewrite decide_False by (intros [? _]; done).
    rewrite !cell_at_default, list_lookup_insert_ne by done. by rewrite Hg'.
Qed.

Lemma length_set_cell (g : Grid) r c v :
  length (set_cell g r c v) = (S r `max` length g)%nat.
Proof. unfold set_cell. by rewrite length_insert, length_pad_to. Qed.

Lemma set_cell_lookup_beyond (g : Grid) r c v k :
  (length g <= k)%nat -> k <> r ->
  set_cell g r c v !! k = None \/ set_cell g r c v !! k = Some [].
Proof.
  intros Hk Hne. unfold set_cell. rewrite list_lookup_insert_ne by done.
  unfold pad_to. rewrite lookup_app_r by done.
  destruct (replicate _ _ !! _) eqn:Hr; [|by left].
  apply lookup_replicate in Hr as [-> _]. by right.
Qed.

(** ** Cancellation *)

Lemma handle_patch_params env b w sid tid phone :
  cancel_params b sid tid phone ->
  handle_patch env b w =
  match values_get env (signup_row_range sid) w with
  | (None, w) => cancel_failed w
  | (Some values, w) =>
      match head values with
      | None => (respond 404 (Error "Booking not found."), w)
      | Some row =>
          if negb (bool_decide (JS.trim <$> row !! SIGNUPS.PHONE = Some phone))
          then (respond 403 (Error "Phone number does not match booking."), w)
          else
            match values_get env (taken_cell_range tid) w with
            | (None, w) => cancel_failed w
            | (Some slotValues, w) =>
                let newTaken := JS.max0 ((fun t => t - 1) <$> currentTaken_of slotValues) in
                match batchUpdate env (cancel_directives env sid tid newTaken) w with
                | (false, w) => cancel_failed w
                | (true, w) =>
                    (respond 200 (Message "Booking cancelled successfully."),
                     with_cache (invalidateCache (cache w)) w)
                end
            end
      end
  end.
Proof.
  intros (Hs & Hs0 & Ht & Ht0 & Hp & Hp0). unfold handle_patch.
  rewrite Hs, Ht, Hp. simpl.
  destruct sid; [done| |]; destruct tid; try done;
    destruct phone; try done.
Qed.

(** The signup row a cancellation reads and the phone it compares. *)
Lemma read_signup_row st sid phone :
  1 <= sid -> phone <> "" ->
  if row_empty (signups_grid st) (row_index sid) 0 9
  then read_range st (signup_row_range sid) = Some []
  else exists row : list string,
      read_range st (signup_row_range sid) = Some [row] /\
      (JS.trim <$> row !! SIGNUPS.PHONE = Some phone <->
       JS.trim (stored_phone st sid) = phone).
Proof.
  intros Hsid Hp. pose proof (read_single_row st SignupsSheet 0 9 sid Hsid) as H.
  simpl in H. destruct (row_empty _ _ _ _); [done|].
  destruct H as [row [Hread Hcells]]. exists row. split; [done|].
  rewrite trim_is_content by done. unfold stored_phone.
  by rewrite <- (Hcells SIGNUPS.PHONE) by (unfold SIGNUPS.PHONE; lia).
Qed.

Lemma stored_phone_row_present st sid phone :
  phone <> "" -> JS.trim (stored_phone st sid) = phone ->
  row_empty (signups_grid st) (row_index sid) 0 9 = false /\
  (row_index sid < length (signups_grid st))%nat.
Proof.
  intros Hp Hph. split.
  - destruct (row_empty _ _ _ _) eqn:He; [|done].
    rewrite row_empty_true in He. specialize (He SIGNUPS.PHONE ltac:(unfold SIGNUPS.PHONE; lia)).
    unfold stored_phone in Hph. simpl in He. rewrite He in Hph. by subst.
  - destruct (decide (row_index sid < length (signups_grid st))%nat); [done|].
    unfold stored_phone in Hph. rewrite cell_at_no_row in Hph; [by subst|].
    apply lookup_ge_None. lia.
Qed.

(** C8.  A cancellation whose signup row is absent is answered 404
    "Booking not found."; one whose stored phone differs from the
    caller's is answered 403; in both cases the store is unchanged and the
    only Sheets call issued is the read of the signup row: neither the
    status cell nor the taken cell is written. *)
Theorem C8_unauthorized_cancel_writes_nothing (env : Env) (req : Request) (w : World)
    (signupRowId slotRowId : Z) (phone : string) :
  method req = PATCH ->
  allowed env req w ->
  cancel_params (body req) signupRowId slotRowId phone ->
  1 <= signupRowId ->
  fails env (ValuesGet (signup_row_range signupRowId)) = false ->
  let absent := row_empty (signups_grid (store w)) (row_index signupRowId) 0 9 in
  absent = true \/ JS.trim (stored_phone (store w) signupRowId) <> phone ->
  let res := handler env req w in
  fst res = (if absent then respond 404 (Error "Booking not found.")
             else respond 403 (Error "Phone number does not match booking.")) /\
  store (snd res) = store w /\
  log (snd res) = log w ++ [ValuesGet (signup_row_range signupRowId)].
Proof.
  intros Hm Hadm Hpar Hsid Hfail absent Hcase res. unfold res.
  rewrite handler_patch by done.
  rewrite (handle_patch_params _ _ _ _ _ _ Hpar).
  unfold values_get. rewrite Hfail.
  assert (phone <> "") as Hp by apply Hpar.
  pose proof (read_signup_row (store w) signupRowId phone Hsid Hp) as Hread.
  fold absent in Hread. change (store (entered env req w)) with (store w).
  destruct absent.
  - rewrite Hread. done.
  - destruct Hread as [row [-> Hiff]]. destruct Hcase as [|Hne]; [done|].
    simpl. rewrite bool_decide_false; [done|]. by rewrite Hiff.
Qed.

Lemma C8_unauthorized_cancel_writes_nothing_witness :
  let res := handler Demo.env (Demo.patch 2 2 "5550000000") Demo.w in
  fst res = respond 403 (Error "Phone number does not match booking.") /\
  store (snd res) = store Demo.w /\
  log (snd res) = log Demo.w ++ [ValuesGet (signup_row_range 2)].
Proof.
  apply (C8_unauthorized_cancel_writes_nothing Demo.env (Demo.patch 2 2 "5550000000")
           Demo.w 2 2 "5550000000").
  - reflexivity.
  - reflexivity.
  - repeat split; discriminate.
  - lia.
  - reflexivity.
  - right. vm_compute. discriminate.
Defined.

(** A cancellation of a signup row that is not there, and one with
    another phone. *)
Example unauthorized_cancel_scenarios :
  let absent := handler Demo.env (Demo.patch 9 2 Demo.phone) Demo.w in
  let other := handler Demo.env (Demo.patch 2 2 "5550000000") Demo.w in
  fst absent = respond 404 (Error "Booking not found.") /\
  store (snd absent) = store Demo.w /\ writes (log (snd absent)) = [] /\
  fst other = respond 403 (Error "Phone number does not match booking.") /\
  store (snd other) = store Demo.w /\ writes (log (snd other)) = [].
Proof. vm_compute. done. Qed.

Lemma read_taken_cell st tid :
  1 <= tid ->
  exists slotValues,
    read_range st (taken_cell_range tid) = Some slotValues /\
    currentTaken_of slotValues = cell_num_strict (stored_taken st tid).
Proof.
  intros Htid. pose proof (read_single_row st SlotsSheet 3 3 tid Htid) as H.
  simpl in H. unfold stored_taken, SLOTS.TAKEN.
  destruct (row_empty _ _ _ _) eqn:He.
  - exists []. split; [done|].
    rewrite row_empty_true in He. specialize (He 0%nat ltac:(lia)). simpl in He.
    by rewrite He.
  - destruct H as [row [Hread Hcells]]. exists [row]. split; [done|].
    specialize (Hcells 0%nat ltac:(lia)). simpl in Hcells. rewrite <- Hcells.
    unfold currentTaken_of. simpl. by destruct row.
Qed.

(** C7.  A cancellation whose signup row is there and whose stored phone
    is the caller's phone, whatever the status cell holds, issues after its
    two reads exactly one batched write, of two directives: the status
    cell (column J) of the signup row becomes [CANCELLED:<timestamp>] and
    the taken cell (column D) of the slot row becomes [max(0, taken - 1)].
    When the write goes through, the answer is 200, these two cells are the
    only cells that change, and the Signups sheet keeps all its rows. *)
Theorem C7_cancel_flips_status_and_decrements (env : Env) (req : Request) (w : World)
    (signupRowId slotRowId : Z) (phone : string) :
  method req = PATCH ->
  allowed env req w ->
  cancel_params (body req) signupRowId slotRowId phone ->
  1 <= signupRowId -> 1 <= slotRowId ->
  fails env (ValuesGet (signup_row_range signupRowId)) = false ->
  fails env (ValuesGet (taken_cell_range slotRowId)) = false ->
  JS.trim (stored_phone (store w) signupRowId) = phone ->
  let res := handler env req w in
  let newTaken := decremented (stored_taken (store w) slotRowId) in
  let ds := [ UpdateCells SignupsSheet (signupRowId - 1) signupRowId 9 10
                (StringValue ("CANCELLED:" +:+ isoNow env));
              UpdateCells SlotsSheet (slotRowId - 1) slotRowId 3 4
                (NumberValue newTaken) ] in
  log (snd res) =
    log w ++ [ValuesGet (signup_row_range signupRowId);
              ValuesGet (taken_cell_range slotRowId); BatchUpdate ds] /\
  (forall t, cell_num_strict (stored_taken (store w) slotRowId) = Some t ->
             newTaken = Some (Z.max 0 (t - 1))) /\
  (fails env (BatchUpdate ds) = false ->
   fst res = respond 200 (Message "Booking cancelled successfully.") /\
   (forall r c,
       cell_at (signups_grid (store (snd res))) r c =
       if decide (r = row_index signupRowId /\ c = SIGNUPS.STATUS)
       then "CANCELLED:" +:+ isoNow env
       else cell_at (signups_grid (store w)) r c) /\
   (forall r c,
       cell_at (slots_grid (store (snd res))) r c =
       if decide (r = row_index slotRowId /\ c = SLOTS.TAKEN)
       then render (NumberValue newTaken)
       else cell_at (slots_grid (store w)) r c) /\
   length (signups_grid (store (snd res))) = length (signups_grid (store w))).
Proof.
  intros Hm Hadm Hpar Hsid Htid Hf1 Hf2 Hphone res newTaken ds. unfold res.
  assert (phone <> "") as Hp by apply Hpar.
  destruct (stored_phone_row_present _ _ _ Hp Hphone) as [Hpresent Hlen].
  rewrite handler_patch by done.
  rewrite (handle_patch_params _ _ _ _ _ _ Hpar).
  unfold values_get. rewrite Hf1.
  change (store (entered env req w)) with (store w).
  pose proof (read_signup_row (store w) signupRowId phone Hsid Hp) as Hread.
  rewrite Hpresent in Hread. destruct Hread as [row [-> Hiff]].
  change (head [row]) with (Some row). cbv iota beta.
  rewrite bool_decide_true by (by apply Hiff). simpl negb. cbv iota.
  rewrite Hf2.
  change (store (log_call _ (entered env req w))) with (store w).
  destruct (read_taken_cell (store w) slotRowId Htid) as [slotValues [-> Hcur]].
  cbv zeta. rewrite Hcur. fold (decremented (stored_taken (store w) slotRowId)).
  fold newTaken. change (cancel_directives env signupRowId slotRowId newTaken) with ds.
  unfold batchUpdate.
  change (store (log_call _ (log_call _ (entered env req w)))) with (store w).
  assert (apply_batch (store w) ds =
          Some (mkStore
                  (set_cell (signups_grid (store w)) (row_index signupRowId)
                     SIGNUPS.STATUS ("CANCELLED:" +:+ isoNow env))
                  (set_cell (slots_grid (store w)) (row_index slotRowId)
                     SLOTS.TAKEN (render (NumberValue newTaken))))) as Happly.
  { unfold ds, apply_batch, apply_directive.
    destruct (signupRowId - 1 <? 0) eqn:H1; [apply Z.ltb_lt in H1; lia|].
    destruct (slotRowId - 1 <? 0) eqn:H2; [apply Z.ltb_lt in H2; lia|].
    simpl. done. }
  rewrite Happly.
  split; [|split].
  - destruct (fails env (BatchUpdate ds)); simpl; by rewrite <- !app_assoc.
  - intros t Ht. unfold newTaken, decremented. by rewrite Ht.
  - intros ->. simpl. repeat split.
    + intros r c. apply cell_at_set_cell.
    + intros r c. apply cell_at_set_cell.
    + rewrite length_set_cell. lia.
Qed.

Lemma C7_cancel_flips_status_and_decrements_witness :
  let res := handler Demo.env (Demo.patch 3 5 "5557654321") Demo.w in
  let newTaken := decremented (stored_taken (store Demo.w) 5) in
  let ds := [ UpdateCells SignupsSheet (3 - 1) 3 9 10
                (StringValue ("CANCELLED:" +:+ isoNow Demo.env));
              UpdateCells SlotsSheet (5 - 1) 5 3 4 (NumberValue newTaken) ] in
  log (snd res) =
    log Demo.w ++ [ValuesGet (signup_row_range 3);
                   ValuesGet (taken_cell_range 5); BatchUpdate ds] /\
  (forall t, cell_num_strict (stored_taken (store Demo.w) 5) = Some t ->
             newTaken = Some (Z.max 0 (t - 1))) /\
  (fails Demo.env (BatchUpdate ds) = false ->
   fst res = respond 200 (Message "Booking cancelled successfully.") /\
   (forall r c,
       cell_at (signups_grid (store (snd res))) r c =
       if decide (r = row_index 3 /\ c = SIGNUPS.STATUS)
       then "CANCELLED:" +:+ isoNow Demo.env
       else cell_at (signups_grid (store Demo.w)) r c) /\
   (forall r c,
       cell_at (slots_grid (store (snd res))) r c =
       if decide (r = row_index 5 /\ c = SLOTS.TAKEN)
       then render (NumberValue newTaken)
       else cell_at (slots_grid (store Demo.w)) r c) /\
   length (signups_grid (store (snd res))) = length (signups_grid (store Demo.w))).
Proof.
  apply (C7_cancel_flips_status_and_decrements Demo.env (Demo.patch 3 5 "5557654321")
           Demo.w 3 5 "5557654321").
  - reflexivity.
  - reflexivity.
  - repeat split; discriminate.
  - lia.
  - lia.
  - reflexivity.
  - reflexivity.
  - reflexivity.
Defined.

(** The cancellation of the scenario: signup row 3 of phone 5557654321 on
    slot row 5 (taken 2). *)
Example cancel_scenario :
  let res := handler Demo.env (Demo.patch 3 5 "5557654321") Demo.w in
  status (fst res) = 200 /\
  stored_taken (store (snd res)) 5 = "1" /\
  stored_status (store (snd res)) 3 = "CANCELLED:2029-12-31T13:00:00.000Z".
Proof. vm_compute. done. Qed.

(** ** The booking loop *)

Lemma book_loop_aligned env f existing (values_of : Z -> list (list string)) ids :
  forall (pre : list (list (list string))) rows ups,
    book_loop env f existing (pre ++ (values_of <$> ids)) (length pre) ids rows ups =
    loop_from env f existing values_of ids rows ups.
Proof.
  induction ids as [|id rest IH]; intros pre rows ups; simpl; [done|].
  rewrite list_lookup_middle by done.
  unfold check_slot.
  destruct (head (values_of id)) as [row|]; [|done].
  destruct (List.find _ _); [done|].
  destruct (_ <=? _); [done|].
  specialize (IH (pre ++ [values_of id])).
  rewrite length_app, <- app_assoc in IH. simpl in IH.
  replace (length pre + 1)%nat with (S (length pre)) in IH by lia.
  apply IH.
Qed.

Lemma loop_from_failure env f st ids :
  forall rows ups r,
    first_failure st (f_phone f) ids = Some r ->
    loop_from env f (existing_of st) (slot_values st) ids rows ups = LoopReturn r.
Proof.
  induction ids as [|id rest IH]; intros rows ups r; simpl; [done|].
  unfold slot_check. destruct (check_slot _ _ _ _); [by intros [= ->]|].
  apply IH.
Qed.

Lemma loop_from_done env f st ids :
  forall rows ups,
    first_failure st (f_phone f) ids = None ->
    loop_from env f (existing_of st) (slot_values st) ids rows ups =
    LoopDone
      (rows ++ ((fun id => signup_row env f id (default [] (head (slot_values st id)))) <$> ids))
      (ups ++ ((fun id => update_request id (default [] (head (slot_values st id)))) <$> ids))
    /\ Forall (fun id => exists row, slot_check st (f_phone f) id = inr row) ids.
Proof.
  induction ids as [|id rest IH]; intros rows ups; simpl.
  - intros _. by rewrite !app_nil_r.
  - unfold slot_check at 1.
    destruct (check_slot _ _ _ _) as [r|row] eqn:Hc; [done|]. intros Hrest.
    destruct (IH (rows ++ [signup_row env f id row]) (ups ++ [update_request id row]) Hrest)
      as [-> Hall].
    assert (head (slot_values st id) = Some row) as ->.
    { unfold check_slot in Hc. destruct (head _); [|done].
      repeat case_match; congruence. }
    simpl. rewrite <- !app_assoc. simpl. split; [done|].
    constructor; [|done]. exists row. exact Hc.
Qed.

Lemma read_signups_range st : read_range st signups_range = Some (existing_of st).
Proof. done. Qed.

Lemma read_slot_rows st ids :
  Forall (fun id => 1 <= id) ids ->
  mapM (read_range st) (slot_row_range <$> ids) = Some (slot_values st <$> ids).
Proof.
  intros Hids. apply mapM_Some, Forall2_fmap, Forall_Forall2_diag.
  eapply Forall_impl; [exact Hids|]. simpl. intros id Hid.
  unfold slot_values, read_range. simpl.
  destruct (id <? 1) eqn:Hlt; [apply Z.ltb_lt in Hlt; lia | done].
Qed.

(** ** Validation *)

Lemma push_if_nil c msg errors :
  push_if c msg errors = [] -> c = false /\ errors = [].
Proof.
  unfold push_if. destruct c; [|done].
  intros H. by apply app_eq_nil in H as [_ ?].
Qed.

Lemma validate_ok b :
  validateBookingRequest b = Some [] ->
  exists ids p,
    b_slotIds b = Some ids /\ ids <> [] /\ forallb is_pos_int ids = true /\
    (length ids <= 10)%nat /\
    b_phone b = Some p /\ isValidPhone (Some p) = true /\ JS.trim p <> "".
Proof.
  unfold validateBookingRequest.
  destruct (b_slotIds b) as [ids|]; [|done].
  intros [= H].
  repeat (apply push_if_nil in H as [?%negb_false_iff H] ||
          apply push_if_nil in H as [? H]).
  destruct (b_phone b) as [p|] eqn:Hp; [|done].
  exists ids, p.
  repeat match goal with
         | H : _ || _ = false |- _ => apply orb_false_elim in H as [? ?]
         end.
  repeat split; try done.
  - intros ->. done.
  - match goal with H : (_ <? _) = false |- _ => apply Z.ltb_ge in H end.
    unfold CONFIG.MAX_SLOTS_PER_BOOKING in *. lia.
  - by apply negb_false_iff.
  - simpl in *. by apply is_empty_false.
Qed.

Lemma pos_ints ids :
  forallb is_pos_int ids = true -> Forall (fun id => 1 <= id) (slot_num <$> ids).
Proof.
  intros H. apply Forall_fmap, Forall_forall. intros v Hv.
  rewrite forallb_forall in H. specialize (H v). rewrite <- list_elem_of_In in H.
  specialize (H Hv). destruct v as [z|]; simpl in *; [|done].
  apply Z.ltb_lt in H. lia.
Qed.

(** What validation guarantees about the request that goes on. *)
Lemma validated_request b :
  validateBookingRequest b = Some [] ->
  Forall (fun id => 1 <= id) (ids_of b) /\ ids_of b <> [] /\
  throttle_phone b <> "" /\ JS.trim (throttle_phone b) = throttle_phone b.
Proof.
  intros (ids & p & Hids & Hne & Hpos & _ & Hp & Hvalid & Htrim)%validate_ok.
  unfold ids_of, throttle_phone, fields_of. cbn [f_phone]. rewrite Hids, Hp.
  cbn [default]. repeat split.
  - by apply pos_ints.
  - by destruct ids.
  - by rewrite sanitize_valid_phone.
  - by apply sanitize_valid_phone_trimmed.
Qed.

(** ** The batch write of a booking *)

Lemma seen_row_cells st id i :
  1 <= id -> (i <= 3)%nat ->
  content (seen_row st id !! i) = cell_at (slots_grid st) (row_index id) i.
Proof.
  intros Hid Hi. pose proof (read_single_row st SlotsSheet 0 3 id Hid) as H.
  simpl in H. unfold seen_row, slot_values. fold (slot_row_range id) in H.
  destruct (row_empty _ _ _ _) eqn:He.
  - rewrite H. simpl. rewrite row_empty_true in He. symmetry. by apply (He i).
  - destruct H as [row [-> Hcells]]. simpl. by apply (Hcells i).
Qed.

Lemma seen_row_taken st id :
  1 <= id ->
  JS.or0 (JS.parseInt (seen_row st id !! SLOTS.TAKEN)) = taken_at (slots_grid st) (row_index id).
Proof.
  intros Hid. unfold taken_at, cell_num.
  by rewrite parseInt_content, seen_row_cells by (done || unfold SLOTS.TAKEN; lia).
Qed.

Lemma seen_row_capacity st id :
  1 <= id ->
  JS.or0 (JS.parseInt (seen_row st id !! SLOTS.CAPACITY)) =
  capacity_at (slots_grid st) (row_index id).
Proof.
  intros Hid. unfold capacity_at, cell_num.
  by rewrite parseInt_content, seen_row_cells by (done || unfold SLOTS.CAPACITY; lia).
Qed.

Lemma update_directive_request st id :
  1 <= id ->
  update_directive (update_request id (seen_row st id)) =
  Some (UpdateCells SlotsSheet (id - 1) id 3 4
          (NumberValue (Some (taken_at (slots_grid st) (row_index id) + 1)))).
Proof.
  intros Hid. unfold update_directive, update_request. simpl.
  rewrite match_digits_slots_range by lia.
  rewrite !parseInt_toString. by rewrite seen_row_taken.
Qed.

Lemma booking_directives_built env f st ids :
  Forall (fun id => 1 <= id) ids ->
  booking_directives
    ((fun id => signup_row env f id (seen_row st id)) <$> ids)
    ((fun id => update_request id (seen_row st id)) <$> ids) =
  Some (booking_write env f st ids).
Proof.
  intros Hids. unfold booking_directives, booking_write.
  assert (mapM update_directive ((fun id => update_request id (seen_row st id)) <$> ids) =
          Some ((fun id => UpdateCells SlotsSheet (id - 1) id 3 4
                   (NumberValue (Some (taken_at (slots_grid st) (row_index id) + 1))))
                  <$> ids)) as ->.
  { apply mapM_Some, Forall2_fmap, Forall_Forall2_diag.
    eapply Forall_impl; [exact Hids|]. simpl. intros id Hid.
    by apply update_directive_request. }
  simpl. by rewrite <- list_fmap_compose.
Qed.

Lemma apply_batch_cons st d ds :
  apply_batch st (d :: ds) =
  match apply_directive st d with
  | Some st' => apply_batch st' ds
  | None => None
  end.
Proof. done. Qed.

Lemma apply_taken_updates (v : Z -> Z) ids :
  Forall (fun id => 1 <= id) ids ->
  forall st,
    apply_batch st
      ((fun id => UpdateCells SlotsSheet (id - 1) id 3 4 (NumberValue (Some (v id)))) <$> ids) =
    Some (mkStore (signups_grid st)
            (foldl (fun g id => set_cell g (row_index id) SLOTS.TAKEN (JS.toString (v id)))
                   (slots_grid st) ids)).
Proof.
  induction 1 as [|id rest Hid _ IH]; intros st; [by destruct st|].
  rewrite fmap_cons, apply_batch_cons. unfold apply_directive.
  destruct (id - 1 <? 0) eqn:Hlt; [apply Z.ltb_lt in Hlt; lia|].
  change (3 <? 0) with false. cbn [orb]. rewrite IH. done.
Qed.

Lemma apply_booking_write env f st ids :
  Forall (fun id => 1 <= id) ids ->
  apply_batch st (booking_write env f st ids) = Some (booked_store env f st ids).
Proof.
  intros Hids. unfold booking_write. rewrite apply_batch_cons.
  unfold apply_directive.
  rewrite (apply_taken_updates (fun id => taken_at (slots_grid st) (row_index id) + 1))
    by done.
  simpl. unfold booked_store, bump_taken, appended_row, seen_row. f_equal. f_equal. f_equal.
  rewrite <- list_fmap_compose. done.
Qed.

(** ** The guarded part of a booking *)

Lemma book_spec env f ids w :
  Forall (fun id => 1 <= id) ids ->
  fails env (ValuesBatchGet (slot_row_range <$> ids)) = false ->
  fails env (ValuesGet signups_range) = false ->
  book env f ids w =
  match first_failure (store w) (f_phone f) ids with
  | Some r => (r, after_reads ids w)
  | None =>
      let ds := booking_write env f (store w) ids in
      if fails env (BatchUpdate ds)
      then booking_failed (f_phone f) (log_call (BatchUpdate ds) (after_reads ids w))
      else (respond 200 (Message "Booking successful!"),
            mkWorld (booked_store env f (store w) ids) (mkCache None 0)
              (rateLimitMap w)
              (decrementActiveBookings (f_phone f) (activeBookingsMap w))
              (log (after_reads ids w) ++ [BatchUpdate ds]))
  end.
Proof.
  intros Hids Hf1 Hf2. unfold book, values_batchGet. rewrite Hf1.
  rewrite read_slot_rows by done.
  unfold values_get. rewrite Hf2.
  change (store (log_call _ w)) with (store w).
  rewrite read_signups_range.
  pose proof (book_loop_aligned env f (existing_of (store w)) (slot_values (store w))
                ids [] [] []) as Hal.
  simpl in Hal. rewrite Hal. clear Hal.
  fold (after_reads ids w).
  destruct (first_failure (store w) (f_phone f) ids) as [r|] eqn:Hff.
  - by rewrite (loop_from_failure env f (store w) ids [] [] r Hff).
  - destruct (loop_from_done env f (store w) ids [] [] Hff) as [-> _].
    rewrite !app_nil_l. fold (seen_row (store w)).
    change (fun id => signup_row env f id (default [] (head (slot_values (store w) id))))
      with (fun id => signup_row env f id (seen_row (store w) id)).
    change (fun id => update_request id (default [] (head (slot_values (store w) id))))
      with (fun id => update_request id (seen_row (store w) id)).
    rewrite booking_directives_built by done.
    cbv zeta. unfold batchUpdate.
    destruct (fails env (BatchUpdate _)); [done|].
    change (store (after_reads ids w)) with (store w).
    rewrite apply_booking_write by done. done.
Qed.

Lemma book_read_failure env f ids w :
  fails env (ValuesBatchGet (slot_row_range <$> ids)) = true \/
  fails env (ValuesGet signups_range) = true ->
  exists w',
    book env f ids w = booking_failed (f_phone f) w' /\
    store w' = store w /\ cache w' = cache w /\
    activeBookingsMap w' = activeBookingsMap w /\ writes (log w') = writes (log w).
Proof.
  intros Hfail. unfold book, values_batchGet.
  destruct (fails env (ValuesBatchGet _)) eqn:Hf1.
  - eexists. split; [reflexivity|]. repeat split.
    simpl. unfold writes. by rewrite List.filter_app, app_nil_r.
  - destruct Hfail as [|Hf2]; [done|].
    destruct (mapM _ _).
    + unfold values_get. rewrite Hf2. eexists. split; [reflexivity|]. repeat split.
      simpl. unfold writes. by rewrite !List.filter_app, !app_nil_r.
    + eexists. split; [reflexivity|]. repeat split.
      simpl. unfold writes. by rewrite List.filter_app, app_nil_r.
Qed.

(** The store after the guarded part: untouched, or the booked store of a
    request all of whose slots passed. *)
Lemma book_store env f ids w :
  Forall (fun id => 1 <= id) ids ->
  (store (snd (book env f ids w)) = store w /\ status (fst (book env f ids w)) <> 200) \/
  (first_failure (store w) (f_phone f) ids = None /\
   store (snd (book env f ids w)) = booked_store env f (store w) ids /\
   status (fst (book env f ids w)) = 200).
Proof.
  intros Hids.
  destruct (fails env (ValuesBatchGet (slot_row_range <$> ids))) eqn:Hf1.
  { destruct (book_read_failure env f ids w) as (w' & -> & Hst & _); [by left|]. by left. }
  destruct (fails env (ValuesGet signups_range)) eqn:Hf2.
  { destruct (book_read_failure env f ids w) as (w' & -> & Hst & _); [by right|]. by left. }
  rewrite book_spec by done.
  destruct (first_failure _ _ _) as [r|] eqn:Hff.
  - left. split; [done|].
    pose proof (loop_from_failure env f (store w) ids [] [] r Hff) as Hl.
    rewrite <- (book_loop_aligned env f _ _ ids [] [] []) in Hl.
    apply book_loop_return in Hl as [[?|?] _]; simpl; congruence.
  - cbv zeta. destruct (fails env (BatchUpdate _)); [by left | by right].
Qed.

(** ** The checks of the loop, read off the grid *)

Lemma is_duplicate_view phone id (row : list string) :
  phone <> "" ->
  is_duplicate phone id (row_view 0 9 row) = true <-> active_key row = Some (phone, id).
Proof.
  intros Hp. unfold is_duplicate, active_key, is_active.
  assert (forall i, (i <= 9)%nat ->
            content (row_view 0 9 row !! i) = content (row !! i)) as Hc.
  { intros i Hi. by apply (row_view_content 0 9 row i). }
  rewrite (or_str_content (row_view 0 9 row !! SIGNUPS.STATUS)),
          (or_str_content (row !! SIGNUPS.STATUS)).
  rewrite (parseInt_content (row_view 0 9 row !! SIGNUPS.SLOT_ROW_ID)),
          (parseInt_content (row !! SIGNUPS.SLOT_ROW_ID)).
  rewrite !Hc by (unfold SIGNUPS.STATUS, SIGNUPS.SLOT_ROW_ID; lia).
  rewrite !andb_true_iff, !bool_decide_eq_true, trim_is_content by done.
  rewrite Hc by (unfold SIGNUPS.PHONE; lia).
  destruct (JS.startsWith _ _); [|by split; [intros [_ ?]|]].
  destruct (JS.parseInt_str _) as [z|]; simpl; [|by split; [intros [[_ ?] _]|]].
  split.
  - intros [[-> [= ->]] _]. done.
  - intros [= -> ->]. done.
Qed.

Lemma existing_of_rows st :
  existing_of st = strip_trailing is_nil (row_view 0 9 <$> drop 1 (signups_grid st)).
Proof. done. Qed.

Lemma find_duplicate st phone id :
  phone <> "" ->
  is_Some (List.find (is_duplicate phone id) (existing_of st)) <->
  (phone, id) ∈ active_keys st.
Proof.
  intros Hp. unfold active_keys. rewrite list_elem_of_omap, existing_of_rows. split.
  - intros [x Hx]. apply List.find_some in Hx as [Hin Hdup].
    apply list_elem_of_In, strip_trailing_elem, list_elem_of_fmap in Hin
      as [row [-> Hrow]].
    exists row. split; [done|]. by apply is_duplicate_view.
  - intros [row [Hrow Hkey]]. apply (is_duplicate_view _ _ _ Hp) in Hkey.
    destruct (List.find _ _) as [x|] eqn:Hfind; [done|]. exfalso.
    apply list_elem_of_lookup in Hrow as [i Hi].
    assert ((row_view 0 9 <$> drop 1 (signups_grid st)) !! i = Some (row_view 0 9 row)) as Hv.
    { by rewrite list_lookup_fmap, Hi. }
    apply (strip_trailing_keep is_nil) in Hv.
    + assert (is_duplicate phone id (row_view 0 9 row) = false); [|congruence].
      apply (List.find_none _ _ Hfind (row_view 0 9 row)).
      apply list_elem_of_In. by eapply list_elem_of_lookup_2.
    + destruct (row_view 0 9 row); [|done]. done.
Qed.

Lemma slot_check_grid st phone id :
  1 <= id -> phone <> "" ->
  slot_check st phone id =
  if slot_fails st phone id then inl (rejection st phone id) else inr (seen_row st id).
Proof.
  intros Hid Hp. unfold slot_check, check_slot, slot_fails, rejection.
  pose proof (read_single_row st SlotsSheet 0 3 id Hid) as Hread. simpl in Hread.
  fold (slot_row_range id) in Hread.
  pose proof (seen_row_capacity st id Hid) as Hcap.
  pose proof (seen_row_taken st id Hid) as Htak.
  unfold seen_row in *. unfold slot_values in *.
  destruct (row_empty _ _ _ _); simpl.
  - by rewrite Hread.
  - destruct Hread as [row [Hread _]]. rewrite Hread in *. simpl in *.
    pose proof (find_duplicate st phone id Hp) as Hdup.
    destruct (List.find _ _) as [x|].
    + rewrite bool_decide_true by (apply Hdup; eauto). done.
    + rewrite bool_decide_false by (intros [? ?]%Hdup; done). simpl.
      rewrite Hcap, Htak. by destruct (_ <=? _).
Qed.

(** The first failing slot decides the answer. *)
Lemma first_failure_grid st phone ids :
  Forall (fun id => 1 <= id) ids -> phone <> "" ->
  first_failure st phone ids = rejection st phone <$> List.find (slot_fails st phone) ids.
Proof.
  intros Hids Hp. induction Hids as [|id rest Hid _ IH]; [done|].
  simpl. rewrite slot_check_grid by done.
  destruct (slot_fails st phone id); [done | exact IH].
Qed.

(** ** All or nothing *)

Lemma find_first_failing {A} (p : A -> bool) (l : list A) :
  Exists (fun x => p x = true) l -> exists x, List.find p l = Some x /\ p x = true.
Proof.
  induction 1 as [x l Hx | x l _ IH]; simpl.
  - rewrite Hx. by exists x.
  - destruct (p x) eqn:Hpx; [by exists x | exact IH].
Qed.

Lemma rejection_shape st phone id :
  (status (rejection st phone id) = 400 \/ status (rejection st phone id) = 409) /\
  exists e, payload (rejection st phone id) = Error e.
Proof.
  unfold rejection. destruct (row_empty _ _ _ _); [simpl; eauto|].
  destruct (bool_decide _); simpl; eauto.
Qed.

(** A request with a failing slot is answered by the first one and stops
    after its two reads. *)
Lemma rejected_at_first_failure env req w id :
  method req = POST ->
  allowed env req w ->
  reaches_booking (body req) (entered env req w) ->
  fails env (ValuesBatchGet (slot_row_range <$> ids_of (body req))) = false ->
  fails env (ValuesGet signups_range) = false ->
  List.find (slot_fails (store w) (throttle_phone (body req))) (ids_of (body req)) = Some id ->
  fst (handler env req w) = rejection (store w) (throttle_phone (body req)) id /\
  store (snd (handler env req w)) = store w /\
  log (snd (handler env req w)) =
    log w ++ [ValuesBatchGet (slot_row_range <$> ids_of (body req));
              ValuesGet signups_range].
Proof.
  intros Hm Hadm Hreach Hf1 Hf2 Hfind.
  destruct (validated_request _ (proj1 Hreach)) as (Hids & _ & Hp & _).
  rewrite handler_post by done. rewrite handle_post_book by done.
  rewrite book_spec by done.
  change (store (acquired (body req) (entered env req w))) with (store w).
  change (f_phone (fields_of (body req))) with (throttle_phone (body req)).
  rewrite first_failure_grid by done. rewrite Hfind.
  repeat split. simpl. by rewrite <- app_assoc.
Qed.

(** C4.  Booking is all or nothing.  When any requested slot fails its
    check (its row is missing, the phone already holds an ACTIVE signup
    for it, or taken >= capacity), the request is answered with the error
    of the first such slot, a 400 or a 409; the store is left as it was
    and the only Sheets calls issued are the two reads: no signup row is
    appended and no taken cell is written, for any slot of the request.
    In particular, when that first failing slot has its row, is not
    already booked by the phone and is full, the answer is 409 with the
    error "Slot <label> on <date> is full.". *)
Theorem C4_booking_all_or_nothing (env : Env) (req : Request) (w : World) :
  method req = POST ->
  allowed env req w ->
  reaches_booking (body req) (entered env req w) ->
  let ids := ids_of (body req) in
  let phone := throttle_phone (body req) in
  fails env (ValuesBatchGet (slot_row_range <$> ids)) = false ->
  fails env (ValuesGet signups_range) = false ->
  Exists (fun id => slot_fails (store w) phone id = true) ids ->
  let res := handler env req w in
  exists id,
    List.find (slot_fails (store w) phone) ids = Some id /\
    fst res = rejection (store w) phone id /\
    (status (fst res) = 400 \/ status (fst res) = 409) /\
    (exists e, payload (fst res) = Error e) /\
    store (snd res) = store w /\
    log (snd res) = log w ++ [ValuesBatchGet (slot_row_range <$> ids);
                              ValuesGet signups_range] /\
    (row_empty (slots_grid (store w)) (row_index id) 0 3 = false ->
     (phone, id) ∉ active_keys (store w) ->
     fst res = respond 409 (Error
       ("Slot " +:+ String_of (of_cell (seen_row (store w) id !! SLOTS.LABEL)) +:+
        " on " +:+ String_of (of_cell (seen_row (store w) id !! SLOTS.DATE)) +:+
        " is full."))).
Proof.
  intros Hm Hadm Hreach ids phone Hf1 Hf2 Hfails res.
  destruct (find_first_failing _ _ Hfails) as [id [Hfind Hid]].
  exists id. split; [done|].
  destruct (rejected_at_first_failure env req w id Hm Hadm Hreach Hf1 Hf2 Hfind)
    as (Hres & Hst & Hlog).
  fold res in Hres, Hst, Hlog. rewrite Hres.
  destruct (rejection_shape (store w) phone id) as [Hstatus He].
  repeat split; try done.
  intros Hrow Hkey. unfold rejection.
  rewrite Hrow, bool_decide_false by done. done.
Qed.

Lemma C4_booking_all_or_nothing_witness :
  let res := handler Demo.env (Demo.post [4; 3; 5]) Demo.w in
  exists id,
    List.find (slot_fails (store Demo.w) Demo.phone) [4; 3; 5] = Some id /\
    fst res = rejection (store Demo.w) Demo.phone id /\
    (status (fst res) = 400 \/ status (fst res) = 409) /\
    (exists e, payload (fst res) = Error e) /\
    store (snd res) = store Demo.w /\
    log (snd res) = log Demo.w ++ [ValuesBatchGet (slot_row_range <$> [4; 3; 5]);
                                   ValuesGet signups_range] /\
    (row_empty (slots_grid (store Demo.w)) (row_index id) 0 3 = false ->
     (Demo.phone, id) ∉ active_keys (store Demo.w) ->
     fst res = respond 409 (Error
       ("Slot " +:+ String_of (of_cell (seen_row (store Demo.w) id !! SLOTS.LABEL)) +:+
        " on " +:+ String_of (of_cell (seen_row (store Demo.w) id !! SLOTS.DATE)) +:+
        " is full."))).
Proof.
  apply (C4_booking_all_or_nothing Demo.env (Demo.post [4; 3; 5]) Demo.w).
  - reflexivity.
  - reflexivity.
  - split; reflexivity.
  - reflexivity.
  - reflexivity.
  - apply Exists_cons_tl, Exists_cons_hd. reflexivity.
Defined.

(** The full-slot scenario: slot row 3 has capacity 2 and taken 2. *)
Example full_slot_scenario :
  let res := handler Demo.env (Demo.post [3]) Demo.w in
  fst res = respond 409 (Error "Slot 10am-12pm on 2030-01-01 is full.") /\
  store (snd res) = store Demo.w /\
  writes (log (snd res)) = [].
Proof. vm_compute. done. Qed.

(** ** The throttle around a booking *)

Lemma active_count_increment p (m : gmap string Z) :
  active_count p (incrementActiveBookings p m) = active_count p m + 1.
Proof. unfold active_count, incrementActiveBookings. by rewrite lookup_insert_eq. Qed.

Lemma active_count_decrement p (m : gmap string Z) :
  active_count p (decrementActiveBookings p m) = Z.max 0 (active_count p m - 1) \/
  active_count p m < 0.
Proof.
  unfold active_count, decrementActiveBookings.
  destruct (0 <? default 0 (m !! p)) eqn:Hc.
  - apply Z.ltb_lt in Hc. left. rewrite lookup_insert_eq. simpl. lia.
  - apply Z.ltb_ge in Hc. destruct (decide (default 0 (m !! p) = 0)); [left | right]; lia.
Qed.

(** On the exits that run [decrementActiveBookings] (success and the
    [catch]) the count is back at its value before the attempt. *)
Lemma throttle_released_after_write env b w :
  reaches_booking b w ->
  0 <= active_count (throttle_phone b) (activeBookingsMap w) ->
  Forall (fun id => 1 <= id) (ids_of b) ->
  fails env (ValuesBatchGet (slot_row_range <$> ids_of b)) = false ->
  fails env (ValuesGet signups_range) = false ->
  first_failure (store w) (throttle_phone b) (ids_of b) = None ->
  active_count (throttle_phone b) (activeBookingsMap (snd (handle_post env b w))) =
  active_count (throttle_phone b) (activeBookingsMap w).
Proof.
  intros Hreach Hnn Hids Hf1 Hf2 Hff.
  rewrite handle_post_book by done. rewrite book_spec by done.
  change (store (acquired b w)) with (store w).
  change (f_phone (fields_of b)) with (throttle_phone b). rewrite Hff. cbv zeta.
  pose proof (active_count_increment (throttle_phone b) (activeBookingsMap w)) as Hinc.
  pose proof (active_count_decrement (throttle_phone b)
                (incrementActiveBookings (throttle_phone b) (activeBookingsMap w))) as Hdec.
  destruct (fails env (BatchUpdate _)); simpl;
    change (f_phone (fields_of b)) with (throttle_phone b) in *; lia.
Qed.

(** On the three early [return]s of the loop nothing releases the
    throttle: the count stays one above its value before the attempt. *)
Lemma throttle_kept_after_early_return env b w r :
  reaches_booking b w ->
  Forall (fun id => 1 <= id) (ids_of b) ->
  fails env (ValuesBatchGet (slot_row_range <$> ids_of b)) = false ->
  fails env (ValuesGet signups_range) = false ->
  first_failure (store w) (throttle_phone b) (ids_of b) = Some r ->
  fst (handle_post env b w) = r /\
  active_count (throttle_phone b) (activeBookingsMap (snd (handle_post env b w))) =
  active_count (throttle_phone b) (activeBookingsMap w) + 1.
Proof.
  intros Hreach Hids Hf1 Hf2 Hff.
  rewrite handle_post_book by done. rewrite book_spec by done.
  change (store (acquired b w)) with (store w).
  change (f_phone (fields_of b)) with (throttle_phone b). rewrite Hff.
  split; [done|]. apply active_count_increment.
Qed.

(** C1.  The count of in-flight bookings of a phone is not restored on
    every exit.  In the demo deployment the phone starts at 0.  A booking
    that succeeds, and one whose write fails, leave it at 0.  A booking
    of the full slot 3, of the already booked slot 2, or of the missing
    slot 9 is answered 409, 409 and 400 and leaves the count at 1; after
    three such requests the phone is refused (429) on a free slot. *)
Theorem C1_early_return_keeps_throttle :
  let count w := active_count Demo.phone (activeBookingsMap w) in
  let after req w := snd (handler Demo.env req w) in
  count Demo.w = 0 /\
  (status (fst (handler Demo.env (Demo.post [4]) Demo.w)) = 200 /\
   count (after (Demo.post [4]) Demo.w) = 0) /\
  (status (fst (handler Demo.env_write_fails (Demo.post [4]) Demo.w)) = 500 /\
   count (snd (handler Demo.env_write_fails (Demo.post [4]) Demo.w)) = 0) /\
  (fst (handler Demo.env (Demo.post [3]) Demo.w) =
     respond 409 (Error "Slot 10am-12pm on 2030-01-01 is full.") /\
   count (after (Demo.post [3]) Demo.w) = 1) /\
  (fst (handler Demo.env (Demo.post [2]) Demo.w) =
     respond 409 (Error "Already booked 9am-10am on 2030-01-01.") /\
   count (after (Demo.post [2]) Demo.w) = 1) /\
  (fst (handler Demo.env (Demo.post [9]) Demo.w) =
     respond 400 (Error "Slot data missing.") /\
   count (after (Demo.post [9]) Demo.w) = 1) /\
  (let w3 := after (Demo.post [3]) (after (Demo.post [3]) (after (Demo.post [3]) Demo.w)) in
   count w3 = 3 /\
   fst (handler Demo.env (Demo.post [4]) w3) =
     respond 429 (Error "Too many concurrent requests. Try again.")).
Proof. vm_compute. repeat split; reflexivity. Qed.

(** ** The validation gate *)

(** Whenever [slotIds] is an array, a request that fails validation is
    answered 400 with the joined messages, before the throttle or the
    store is touched. *)
Lemma validation_errors_answer_400 env req w errors :
  method req = POST -> allowed env req w ->
  validateBookingRequest (body req) = Some errors -> errors <> [] ->
  handler env req w =
  (respond 400 (Error (JS.join "; " errors)), entered env req w).
Proof.
  intros Hm Hadm Hv Hne. rewrite handler_post by done.
  unfold handle_post. rewrite Hv. by destruct errors.
Qed.

(** A missing [slotIds] makes [validateBookingRequest] throw, whatever
    the other fields hold; the outer [catch] answers 500. *)
Lemma missing_slotIds_answer_500 env req w :
  method req = POST -> allowed env req w ->
  b_slotIds (body req) = None ->
  handler env req w =
  (respond 500 (Error "Unexpected server error."), entered env req w).
Proof.
  intros Hm Hadm Hs. rewrite handler_post by done.
  unfold handle_post, validateBookingRequest. by rewrite Hs.
Qed.

(** C5.  A POST whose body lacks [slotIds] (the other fields being
    valid) is not answered 400: [body.slotIds.every] throws and the
    answer is 500 "Unexpected server error.".  The other validation
    failures are answered 400, e.g. an empty [slotIds] and a missing name;
    none of these requests reaches the throttle or the store. *)
Theorem C5_missing_slotIds_answers_500 :
  let untouched w' :=
    store w' = store Demo.w /\ activeBookingsMap w' = activeBookingsMap Demo.w /\
    log w' = [] in
  let missing := Demo.request POST (Demo.booking_body None) in
  let empty := Demo.request POST (Demo.booking_body (Some [])) in
  let noname :=
    Demo.request POST
      {| b_name := None; b_phone := Some Demo.phone; b_email := None;
         b_category := Some "Adult"; b_notes := None; b_slotIds := Some [IntV 4];
         b_signupRowId := None; b_slotRowId := None |} in
  validateBookingRequest (body missing) = None /\
  fst (handler Demo.env missing Demo.w) = respond 500 (Error "Unexpected server error.") /\
  untouched (snd (handler Demo.env missing Demo.w)) /\
  fst (handler Demo.env empty Demo.w) =
    respond 400 (Error "At least one slot must be selected.") /\
  untouched (snd (handler Demo.env empty Demo.w)) /\
  fst (handler Demo.env noname Demo.w) =
    respond 400 (Error "Name is required (max 100 characters).") /\
  untouched (snd (handler Demo.env noname Demo.w)).
Proof. vm_compute. repeat split; reflexivity. Qed.

(** ** The store after a request *)

Lemma falsy_num_false o : falsy_num o = false -> exists z, o = Some z /\ z <> 0.
Proof. destruct o as [[| |]|]; simpl; try done; eauto. Qed.

Lemma handle_patch_store env b w :
  (store (snd (handle_patch env b w)) = store w /\
   status (fst (handle_patch env b w)) <> 200) \/
  (exists sid tid phone,
      cancel_params b sid tid phone /\ 1 <= sid /\ 1 <= tid /\
      JS.trim (stored_phone (store w) sid) = phone /\
      status (fst (handle_patch env b w)) = 200 /\
      store (snd (handle_patch env b w)) = cancelled_store env (store w) sid tid).
Proof.
  destruct (falsy_num (b_signupRowId b) || falsy_num (b_slotRowId b) ||
            negb (JS.truthy (b_phone b))) eqn:Hpar.
  { left. unfold handle_patch. by rewrite Hpar. }
  apply orb_false_elim in Hpar as [[Hs Ht]%orb_false_elim Hp].
  apply falsy_num_false in Hs as [sid [Hs Hs0]].
  apply falsy_num_false in Ht as [tid [Ht Ht0]].
  apply negb_false_iff in Hp.
  destruct (b_phone b) as [phone|] eqn:Hph; [|done]. simpl in Hp.
  apply negb_true_iff, is_empty_false in Hp.
  assert (cancel_params b sid tid phone) as Hparams by done.
  rewrite (handle_patch_params env b w sid tid phone Hparams).
  unfold values_get.
  destruct (fails env (ValuesGet (signup_row_range sid))); [by left|].
  destruct (decide (1 <= sid)) as [Hsid|Hsid]; cycle 1.
  { left. unfold read_range. simpl.
    destruct (sid <? 1) eqn:Hlt; [done | apply Z.ltb_ge in Hlt; lia]. }
  pose proof (read_signup_row (store w) sid phone Hsid Hp) as Hread.
  destruct (row_empty _ _ _ _); [rewrite Hread; by left|].
  destruct Hread as [row [-> Hiff]].
  change (head [row]) with (Some row). cbv iota beta.
  destruct (bool_decide _) eqn:Hdec; simpl negb; cbv iota; [|by left].
  apply bool_decide_eq_true, Hiff in Hdec.
  destruct (fails env (ValuesGet (taken_cell_range tid))); [by left|].
  change (store (log_call _ w)) with (store w).
  destruct (decide (1 <= tid)) as [Htid|Htid]; cycle 1.
  { left. unfold read_range. simpl.
    destruct (tid <? 1) eqn:Hlt; [done | apply Z.ltb_ge in Hlt; lia]. }
  destruct (read_taken_cell (store w) tid Htid) as [slotValues [-> Hcur]].
  cbv zeta. rewrite Hcur. fold (decremented (stored_taken (store w) tid)).
  unfold batchUpdate.
  destruct (fails env (BatchUpdate _)); [by left|].
  change (store (log_call _ (log_call _ w))) with (store w).
  unfold cancel_directives, apply_batch, apply_directive.
  destruct (sid - 1 <? 0) eqn:H1; [apply Z.ltb_lt in H1; lia|].
  destruct (tid - 1 <? 0) eqn:H2; [apply Z.ltb_lt in H2; lia|].
  right. exists sid, tid, phone. repeat split; try done; apply Hparams.
Qed.

Lemma handle_lookup_store env q w : store (snd (handle_lookup env q w)) = store w.
Proof.
  unfold handle_lookup, values_get.
  destruct (negb _); [done|]. destruct (fails env _); [done|].
  by destruct (read_range _ _).
Qed.

Lemma handle_listing_store env w : store (snd (handle_listing env w)) = store w.
Proof.
  unfold handle_listing, values_get.
  destruct (getCachedSlots _ _); [done|]. destruct (fails env _); [done|].
  by destruct (read_range _ _).
Qed.

(** Every request leaves the store as it was (and if it is a POST or a
    PATCH it is then not answered 200), or is a booking answered 200 that
    wrote the booked store, or is a cancellation answered 200 that wrote
    the cancelled store. *)
Lemma handler_store env req w :
  let res := handler env req w in
  (store (snd res) = store w /\
   (method req = POST \/ method req = PATCH -> status (fst res) <> 200)) \/
  (method req = POST /\ status (fst res) = 200 /\
   validateBookingRequest (body req) = Some [] /\
   first_failure (store w) (throttle_phone (body req)) (ids_of (body req)) = None /\
   store (snd res) = booked_store env (fields_of (body req)) (store w) (ids_of (body req))) \/
  (method req = PATCH /\ status (fst res) = 200 /\
   exists sid tid phone,
     cancel_params (body req) sid tid phone /\ 1 <= sid /\ 1 <= tid /\
     JS.trim (stored_phone (store w) sid) = phone /\
     store (snd res) = cancelled_store env (store w) sid tid).
Proof.
  intros res. unfold res.
  destruct (fst (checkRateLimit (now_rate env) (clientIP req) (rateLimitMap w))) eqn:Hadm;
    cycle 1.
  { left. unfold handler.
    destruct (checkRateLimit _ _ _) as [[] rl]; simpl in *; [done|].
    destruct (method req); (split; [done|]); by intros [|]. }
  destruct (method req) eqn:Hm.
  - left. unfold handler. rewrite Hm. split; [done|]. by intros [|].
  - left. split; [|by intros [|]]. unfold handler. rewrite Hm.
    destruct (checkRateLimit _ _ _) as [[] rl]; simpl in *; [|done].
    destruct (JS.truthy _); [by rewrite handle_lookup_store | by rewrite handle_listing_store].
  - rewrite handler_post by done.
    destruct (validateBookingRequest (body req)) as [[|e errs]|] eqn:Hv;
      try (left;
           destruct (handle_post_other env (body req) (entered env req w)) as [-> ?];
           [intros [? _]; congruence | done]).
    destruct (checkConcurrentBookings (throttle_phone (body req)) (activeBookingsMap w))
      eqn:Hc; cycle 1.
    { left. destruct (handle_post_other env (body req) (entered env req w)) as [-> ?];
        [intros [_ ?]; simpl in *; congruence | done]. }
    rewrite handle_post_book by done.
    destruct (validated_request _ Hv) as (Hids & _).
    destruct (book_store env (fields_of (body req)) (ids_of (body req))
                (acquired (body req) (entered env req w)) Hids)
      as [[Hst Hn] | (Hff & Hst & H200)].
    + by left.
    + right. left. repeat split; try done.
  - rewrite handler_patch by done.
    destruct (handle_patch_store env (body req) (entered env req w))
      as [[Hst Hn] | (sid & tid & phone & Hpar & Hs & Ht & Hph & H200 & Hst)].
    + by left.
    + right. right. repeat split; try done. by exists sid, tid, phone.
  - left. split; [|by intros [|]]. unfold handler. rewrite Hm.
    by destruct (checkRateLimit _ _ _) as [[] rl].
Qed.

(** ** Taken stays between 0 and capacity *)

Lemma cell_num_empty : cell_num "" = 0.
Proof. done. Qed.

Lemma cell_num_toString z : cell_num (JS.toString z) = z.
Proof. unfold cell_num. by rewrite parseInt_toString. Qed.

Lemma slots_ok_cells st :
  slots_ok st <->
  forall r, 0 <= taken_at (slots_grid st) r <= capacity_at (slots_grid st) r.
Proof.
  unfold slots_ok, row_ok, taken_at, capacity_at, taken_of, capacity_of.
  rewrite Forall_lookup. split.
  - intros H r. destruct (slots_grid st !! r) as [row|] eqn:Hrow.
    + rewrite !(cell_at_row _ _ _ _ Hrow). by apply (H r).
    + rewrite !cell_at_no_row by done. by rewrite cell_num_empty.
  - intros H r row Hrow. specialize (H r). by rewrite !(cell_at_row _ _ _ _ Hrow) in H.
Qed.

Lemma fold_set_cell_cell (val : nat -> string) c0 (rs : list nat) :
  forall (g : list (list string)) r c,
    cell_at (foldl (fun g r => set_cell g r c0 (val r)) g rs) r c =
    if decide (c = c0 /\ r ∈ rs) then val r else cell_at g r c.
Proof.
  induction rs as [|a rest IH]; intros g r c; simpl.
  - rewrite decide_False; [done|]. intros [_ H]. by apply elem_of_nil in H.
  - rewrite IH, cell_at_set_cell.
    destruct (decide (c = c0 /\ r ∈ rest)) as [[-> Hin]|Hn].
    + rewrite decide_True; [done|]. split; [done|]. by apply list_elem_of_further.
    + destruct (decide (r = a /\ c = c0)) as [[-> ->]|Hn'].
      * rewrite decide_True; [done|]. split; [done|]. apply list_elem_of_here.
      * rewrite decide_False; [done|]. intros [-> Hin].
        apply elem_of_cons in Hin as [->|Hin]; [by apply Hn' | by apply Hn].
Qed.

(** The Slots grid after a booking: the taken cell of each booked row
    holds one more than before, every other cell is as before. *)
Lemma bump_taken_cell st ids r c :
  cell_at (bump_taken st ids) r c =
  if decide (c = SLOTS.TAKEN /\ r ∈ row_index <$> ids)
  then JS.toString (taken_at (slots_grid st) r + 1)
  else cell_at (slots_grid st) r c.
Proof.
  unfold bump_taken.
  rewrite <- (foldl_fmap
    (fun g r => set_cell g r SLOTS.TAKEN (JS.toString (taken_at (slots_grid st) r + 1)))
    (slots_grid st) ids row_index).
  apply (fold_set_cell_cell
           (fun r => JS.toString (taken_at (slots_grid st) r + 1)) SLOTS.TAKEN).
Qed.

Lemma first_failure_none st phone ids :
  Forall (fun id => 1 <= id) ids -> phone <> "" ->
  first_failure st phone ids = None ->
  Forall (fun id => slot_fails st phone id = false) ids.
Proof.
  intros Hids Hp. rewrite first_failure_grid by done.
  intros Hnone. apply Forall_forall. intros id Hin.
  destruct (List.find _ _) eqn:Hfind; [done|].
  apply (List.find_none _ _ Hfind). by apply list_elem_of_In.
Qed.

Lemma slot_passes st phone id :
  slot_fails st phone id = false ->
  row_empty (slots_grid st) (row_index id) 0 3 = false /\
  ((phone, id) ∉ active_keys st) /\
  taken_at (slots_grid st) (row_index id) < capacity_at (slots_grid st) (row_index id).
Proof.
  unfold slot_fails. intros [[H1 H2]%orb_false_elim H3]%orb_false_elim.
  apply bool_decide_eq_false in H2. apply Z.leb_gt in H3. done.
Qed.

Lemma decremented_render st tid cap :
  0 <= taken_at (slots_grid st) (row_index tid) <= cap ->
  0 <= cell_num (render (NumberValue (decremented (stored_taken st tid)))) <= cap.
Proof.
  unfold taken_at, stored_taken, decremented, cell_num_strict.
  set (cell := cell_at (slots_grid st) (row_index tid) SLOTS.TAKEN).
  intros Ht. destruct (JS.is_empty cell) eqn:He.
  - simpl. rewrite cell_num_toString. lia.
  - unfold cell_num in Ht.
    destruct (JS.parseInt_str cell) as [t|]; simpl in *.
    + rewrite cell_num_toString. lia.
    + rewrite cell_num_empty. lia.
Qed.

Lemma bump_taken_capacity st ids r :
  capacity_at (bump_taken st ids) r = capacity_at (slots_grid st) r.
Proof.
  unfold capacity_at. rewrite bump_taken_cell.
  rewrite decide_False; [done|]. by intros [? _].
Qed.

Lemma bump_taken_taken st ids r :
  r ∈ row_index <$> ids ->
  taken_at (bump_taken st ids) r = taken_at (slots_grid st) r + 1.
Proof.
  intros Hr. unfold taken_at at 1. rewrite bump_taken_cell.
  rewrite decide_True by done. apply cell_num_toString.
Qed.

Lemma bump_taken_other st ids r :
  r ∉ row_index <$> ids ->
  taken_at (bump_taken st ids) r = taken_at (slots_grid st) r.
Proof.
  intros Hr. unfold taken_at. rewrite bump_taken_cell.
  rewrite decide_False; [done|]. by intros [_ ?].
Qed.

Lemma slots_ok_booked env f st ids :
  slots_ok st ->
  (forall id, id ∈ ids ->
     taken_at (slots_grid st) (row_index id) < capacity_at (slots_grid st) (row_index id)) ->
  slots_ok (booked_store env f st ids).
Proof.
  intros Hok Hroom. pose proof (proj1 (slots_ok_cells _) Hok) as Hcells.
  apply slots_ok_cells. intros r. simpl slots_grid. rewrite bump_taken_capacity.
  destruct (decide (r ∈ row_index <$> ids)) as [Hr|Hr].
  - rewrite (bump_taken_taken _ _ _ Hr). apply list_elem_of_fmap in Hr as [id [-> Hin]].
    specialize (Hroom id Hin). specialize (Hcells (row_index id)). lia.
  - rewrite (bump_taken_other _ _ _ Hr). apply Hcells.
Qed.

Lemma cancelled_capacity env st sid tid r :
  capacity_at (slots_grid (cancelled_store env st sid tid)) r = capacity_at (slots_grid st) r.
Proof.
  unfold capacity_at. simpl. rewrite cell_at_set_cell.
  rewrite decide_False; [done|]. by intros [_ ?].
Qed.

Lemma slots_ok_cancelled env st sid tid :
  slots_ok st -> slots_ok (cancelled_store env st sid tid).
Proof.
  intros Hok. pose proof (proj1 (slots_ok_cells _) Hok) as Hcells.
  apply slots_ok_cells. intros r. rewrite cancelled_capacity.
  unfold taken_at at 1 2. simpl slots_grid. rewrite cell_at_set_cell.
  destruct (decide (r = row_index tid /\ SLOTS.TAKEN = SLOTS.TAKEN)) as [[-> _]|_].
  - apply decremented_render, Hcells.
  - apply Hcells.
Qed.

(** Every slot a booking answered 200 has booked had room. *)
Lemma booked_slots_had_room st b :
  validateBookingRequest b = Some [] ->
  first_failure st (throttle_phone b) (ids_of b) = None ->
  forall id, id ∈ ids_of b ->
    row_empty (slots_grid st) (row_index id) 0 3 = false /\
    ((throttle_phone b, id) ∉ active_keys st) /\
    taken_at (slots_grid st) (row_index id) < capacity_at (slots_grid st) (row_index id).
Proof.
  intros Hv Hff id Hin.
  destruct (validated_request _ Hv) as (Hids & _ & Hp & _).
  pose proof (first_failure_none _ _ _ Hids Hp Hff) as Hpass.
  rewrite Forall_forall in Hpass. by apply slot_passes, Hpass.
Qed.

Lemma slots_ok_step env req w :
  slots_ok (store w) -> slots_ok (store (snd (handler env req w))).
Proof.
  intros Hok.
  destruct (handler_store env req w)
    as [[Hst _] | [(Hm & H200 & Hv & Hff & Hst) |
               (Hm & H200 & sid & tid & phone & Hpar & Hs & Ht & Hph & Hst)]];
    rewrite Hst; [done | |].
  - apply slots_ok_booked; [done|]. intros id Hin.
    by apply (booked_slots_had_room _ _ Hv Hff id Hin).
  - by apply slots_ok_cancelled.
Qed.

(** C3.  On every slot row [0 <= taken <= capacity] is preserved by
    every request, so by every successful booking and every successful
    cancellation, and so along any sequence of requests handled one after
    the other.  A successful booking has found taken < capacity on each
    slot it books, leaves the slot's capacity alone and its taken one
    higher; a successful cancellation leaves [max(0, taken - 1)] in the
    taken cell it read. *)
Theorem C3_taken_within_capacity (env : Env) (req : Request) (w : World) :
  slots_ok (store w) ->
  let res := handler env req w in
  let g := slots_grid (store w) in
  let g' := slots_grid (store (snd res)) in
  slots_ok (store (snd res)) /\
  (method req = POST -> status (fst res) = 200 ->
   forall id, id ∈ ids_of (body req) ->
     taken_at g (row_index id) < capacity_at g (row_index id) /\
     taken_at g' (row_index id) = taken_at g (row_index id) + 1 /\
     capacity_at g' (row_index id) = capacity_at g (row_index id)) /\
  (method req = PATCH -> status (fst res) = 200 ->
   forall tid t,
     b_slotRowId (body req) = Some tid ->
     cell_num_strict (stored_taken (store w) tid) = Some t ->
     taken_at g' (row_index tid) = Z.max 0 (t - 1)).
Proof.
  intros Hok res g g'. unfold g', g, res.
  split; [by apply slots_ok_step|].
  destruct (handler_store env req w)
    as [[Hst Hn] | [(Hm & H200 & Hv & Hff & Hst) |
               (Hm & H200 & sid & tid & phone & Hpar & Hs & Ht & Hph & Hst)]].
  - split; intros Hm H200; destruct Hn; auto.
  - split; [|intros Hm'; congruence].
    intros _ _ id Hin. rewrite Hst. simpl slots_grid.
    split; [by apply (booked_slots_had_room _ _ Hv Hff id Hin)|].
    split; [|apply bump_taken_capacity].
    apply bump_taken_taken. by apply list_elem_of_fmap_2.
  - split; [intros Hm'; congruence|].
    intros _ _ tid' t Htid' Hcell. rewrite Hst.
    assert (tid' = tid) as -> by (destruct Hpar as (_ & _ & ? & _); congruence).
    unfold taken_at. simpl slots_grid. rewrite cell_at_set_cell, decide_True by done.
    unfold decremented. rewrite Hcell. simpl. apply cell_num_toString.
Qed.

Lemma C3_taken_within_capacity_witness :
  let res := handler Demo.env (Demo.post [4; 2]) (snd (handler Demo.env (Demo.patch 2 2 Demo.phone) Demo.w)) in
  let w := snd (handler Demo.env (Demo.patch 2 2 Demo.phone) Demo.w) in
  let g := slots_grid (store w) in
  let g' := slots_grid (store (snd res)) in
  slots_ok (store (snd res)) /\
  (method (Demo.post [4; 2]) = POST -> status (fst res) = 200 ->
   forall id, id ∈ ids_of (body (Demo.post [4; 2])) ->
     taken_at g (row_index id) < capacity_at g (row_index id) /\
     taken_at g' (row_index id) = taken_at g (row_index id) + 1 /\
     capacity_at g' (row_index id) = capacity_at g (row_index id)) /\
  (method (Demo.post [4; 2]) = PATCH -> status (fst res) = 200 ->
   forall tid t,
     b_slotRowId (body (Demo.post [4; 2])) = Some tid ->
     cell_num_strict (stored_taken (store w) tid) = Some t ->
     taken_at g' (row_index tid) = Z.max 0 (t - 1)).
Proof.
  apply (C3_taken_within_capacity Demo.env (Demo.post [4; 2])
           (snd (handler Demo.env (Demo.patch 2 2 Demo.phone) Demo.w))).
  apply (bool_decide_unpack _). vm_compute. exact I.
Defined.

(** The run of that instance: the cancellation of signup row 2 frees slot
    2, and the booking of slots 4 and 2 that follows is answered 200. *)
Example cancel_then_book :
  let w1 := snd (handler Demo.env (Demo.patch 2 2 Demo.phone) Demo.w) in
  let res := handler Demo.env (Demo.post [4; 2]) w1 in
  status (fst res) = 200 /\
  stored_taken (store Demo.w) 2 = "1" /\ stored_taken (store w1) 2 = "0" /\
  stored_taken (store (snd res)) 2 = "1" /\ stored_taken (store (snd res)) 4 = "1" /\
  active_keys (store (snd res)) =
    [("5557654321", 5); (Demo.phone, 4); (Demo.phone, 2)].
Proof. vm_compute. done. Qed.

(** Along any sequence of requests handled one after the other. *)
Corollary slots_ok_run steps : forall w, slots_ok (store w) -> slots_ok (store (run steps w)).
Proof.
  induction steps as [|[env req] rest IH]; intros w Hok; [done|].
  simpl. apply IH. by apply slots_ok_step.
Qed.

(** The booking and the cancellation of the scenarios, one after the
    other: slot 4 goes from taken 0 to 1, and back to 0. *)
Example book_then_cancel :
  let w1 := snd (handler Demo.env (Demo.post [4]) Demo.w) in
  let w2 := snd (handler Demo.env (Demo.patch 4 4 Demo.phone) w1) in
  stored_taken (store Demo.w) 4 = "0" /\
  stored_taken (store w1) 4 = "1" /\ stored_status (store w1) 4 = "ACTIVE" /\
  stored_taken (store w2) 4 = "0" /\
  stored_status (store w2) 4 = "CANCELLED:2029-12-31T13:00:00.000Z" /\
  length (signups_grid (store w2)) = 4%nat.
Proof. vm_compute. done. Qed.

(** ** What a booking writes, and what the listing reads *)

Lemma row_blank_content (row : list string) c :
  row_blank row = true -> content (row !! c) = "".
Proof.
  unfold row_blank. rewrite forallb_forall. intros H.
  destruct (row !! c) as [s|] eqn:Hc; [|done]. simpl.
  apply is_empty_true, H, list_elem_of_In. by eapply list_elem_of_lookup_2.
Qed.

(** Appending after the last row with data leaves every cell that holds
    data as it is. *)
Lemma append_rows_keeps_data (g new : list (list string)) r c :
  cell_at g r c <> "" -> cell_at (append_rows g new) r c = cell_at g r c.
Proof.
  unfold append_rows.
  destruct (strip_trailing_split row_blank g) as [k [Hg Hk]].
  intros Hdata. rewrite Hg in Hdata |- * at 2.
  destruct (decide (r < length (strip_trailing row_blank g))%nat) as [Hr|Hr].
  - unfold cell_at. by rewrite !lookup_app_l by done.
  - exfalso. apply Hdata. unfold cell_at. rewrite lookup_app_r by lia.
    destruct (k !! _) as [row|] eqn:Hrow; [|done]. simpl.
    apply row_blank_content. rewrite Forall_forall in Hk. apply Hk.
    by eapply list_elem_of_lookup_2.
Qed.

Lemma or_str_empty o : JS.or_str o "" = content o.
Proof. destruct o as [[|a s]|]; done. Qed.

(** Each slot of the listing is computed from columns A to D of its row. *)
Lemma listed_slot_from_cells st rows idx (row : list string) :
  read_range st slots_range = Some rows ->
  rows !! idx = Some row ->
  slot_of_row idx row = slot_at (slots_grid st) idx.
Proof.
  intros [= <-] Hrow. apply strip_trailing_lookup_Some in Hrow.
  rewrite list_lookup_fmap in Hrow.
  change (Z.to_nat (2 - 1)) with 1%nat in Hrow.
  destruct (drop 1 (slots_grid st) !! idx) as [r0|] eqn:Hr0; [|done].
  simpl in Hrow. injection Hrow as <-.
  rewrite lookup_drop in Hr0. simpl in Hr0.
  assert (forall i, (i <= 4)%nat ->
            content (row_view 0 4 r0 !! i) = cell_at (slots_grid st) (S idx) i) as Hc.
  { intros i Hi. rewrite (cell_at_row _ _ _ _ Hr0). by apply (row_view_content 0 4 r0 i). }
  unfold slot_of_row, slot_at, capacity_at, taken_at, cell_num.
  rewrite !or_str_empty, !parseInt_content.
  rewrite !Hc by (unfold SLOTS.DATE, SLOTS.LABEL, SLOTS.CAPACITY, SLOTS.TAKEN; lia).
  done.
Qed.

Lemma listing_from_cells st rows :
  read_range st slots_range = Some rows ->
  imap slot_of_row rows = imap (fun idx _ => slot_at (slots_grid st) idx) rows.
Proof.
  intros Hread. apply imap_ext. intros idx row Hrow.
  by apply (listed_slot_from_cells st rows).
Qed.

(** C10.  A booking request, whatever its outcome, writes nothing but
    appended rows of the Signups sheet and the taken cell (column D) of
    the Slots rows it books: every other cell of the Slots sheet, so each
    capacity cell (column C) and each AVAILABLE cell (column E), is as
    before, and so is every cell of the Signups sheet that held data.
    The listing read computes each slot from columns A to D of its row,
    with [available = max(0, capacity - taken)]: column E is not used. *)
Theorem C10_booking_write_footprint (env : Env) (req : Request) (w : World) :
  method req = POST ->
  let res := handler env req w in
  let st := store w in
  let st' := store (snd res) in
  let ids := ids_of (body req) in
  (forall r c,
      ~ (c = SLOTS.TAKEN /\ r ∈ row_index <$> ids) ->
      cell_at (slots_grid st') r c = cell_at (slots_grid st) r c) /\
  (forall r,
      cell_at (slots_grid st') r SLOTS.CAPACITY = cell_at (slots_grid st) r SLOTS.CAPACITY /\
      cell_at (slots_grid st') r SLOTS.AVAILABLE = cell_at (slots_grid st) r SLOTS.AVAILABLE) /\
  (signups_grid st' = signups_grid st \/
   signups_grid st' =
     append_rows (signups_grid st) (appended_row env (fields_of (body req)) st <$> ids)) /\
  (forall r c,
      cell_at (signups_grid st) r c <> "" ->
      cell_at (signups_grid st') r c = cell_at (signups_grid st) r c) /\
  (forall env' w' rows,
      cache_slots (cache w') = None ->
      fails env' (ValuesGet slots_range) = false ->
      read_range (store w') slots_range = Some rows ->
      fst (handle_listing env' w') =
      respond 200 (Dates (group_slots env'
        (imap (fun idx _ => slot_at (slots_grid (store w')) idx) rows))) /\
      forall idx,
        slot_available (slot_at (slots_grid (store w')) idx) =
        Z.max 0 (capacity_at (slots_grid (store w')) (S idx) -
                 taken_at (slots_grid (store w')) (S idx))).
Proof.
  intros Hm res st st' ids. unfold st', res.
  assert ((forall r c,
      ~ (c = SLOTS.TAKEN /\ r ∈ row_index <$> ids) ->
      cell_at (slots_grid (store (snd (handler env req w)))) r c =
      cell_at (slots_grid st) r c) /\
    (signups_grid (store (snd (handler env req w))) = signups_grid st \/
     signups_grid (store (snd (handler env req w))) =
       append_rows (signups_grid st)
         (appended_row env (fields_of (body req)) st <$> ids))) as [Hslots Hsign].
  { destruct (handler_store env req w)
      as [[Hst _] | [(_ & _ & _ & _ & Hst) | (Hm' & _)]]; [| |congruence].
    - rewrite Hst. split; [done | by left].
    - rewrite Hst. split; [|by right].
      intros r c Hn. simpl slots_grid. rewrite bump_taken_cell.
      by rewrite decide_False. }
  split; [exact Hslots|]. split; [|split; [exact Hsign|split]].
  - intros r. split; apply Hslots; by intros [? _].
  - intros r c Hdata. destruct Hsign as [-> | ->]; [done|].
    by apply append_rows_keeps_data.
  - intros env' w' rows Hc Hf Hread. split; [|done].
    destruct (handle_listing_miss env' w' Hc) as [_ Hresp].
    destruct (Hresp Hf) as [rows' [Hread' ->]].
    assert (rows' = rows) as -> by congruence.
    by rewrite (listing_from_cells (store w') rows).
Qed.

Lemma C10_booking_write_footprint_witness :
  let res := handler Demo.env (Demo.post [4; 2]) (snd (handler Demo.env (Demo.patch 2 2 Demo.phone) Demo.w)) in
  let st := store (snd (handler Demo.env (Demo.patch 2 2 Demo.phone) Demo.w)) in
  let st' := store (snd res) in
  let ids := ids_of (body (Demo.post [4; 2])) in
  (forall r c,
      ~ (c = SLOTS.TAKEN /\ r ∈ row_index <$> ids) ->
      cell_at (slots_grid st') r c = cell_at (slots_grid st) r c) /\
  (forall r,
      cell_at (slots_grid st') r SLOTS.CAPACITY = cell_at (slots_grid st) r SLOTS.CAPACITY /\
      cell_at (slots_grid st') r SLOTS.AVAILABLE = cell_at (slots_grid st) r SLOTS.AVAILABLE) /\
  (signups_grid st' = signups_grid st \/
   signups_grid st' =
     append_rows (signups_grid st)
       (appended_row Demo.env (fields_of (body (Demo.post [4; 2]))) st <$> ids)) /\
  (forall r c,
      cell_at (signups_grid st) r c <> "" ->
      cell_at (signups_grid st') r c = cell_at (signups_grid st) r c) /\
  (forall env' w' rows,
      cache_slots (cache w') = None ->
      fails env' (ValuesGet slots_range) = false ->
      read_range (store w') slots_range = Some rows ->
      fst (handle_listing env' w') =
      respond 200 (Dates (group_slots env'
        (imap (fun idx _ => slot_at (slots_grid (store w')) idx) rows))) /\
      forall idx,
        slot_available (slot_at (slots_grid (store w')) idx) =
        Z.max 0 (capacity_at (slots_grid (store w')) (S idx) -
                 taken_at (slots_grid (store w')) (S idx))).
Proof.
  apply (C10_booking_write_footprint Demo.env (Demo.post [4; 2])
           (snd (handler Demo.env (Demo.patch 2 2 Demo.phone) Demo.w))).
  reflexivity.
Defined.

(** After a booking of slot 4 the stored AVAILABLE cell of its row still
    reads 2, while the listing shows [available = 1]. *)
Example available_is_recomputed :
  let w1 := snd (handler Demo.env (Demo.post [4]) Demo.w) in
  cell_at (slots_grid (store w1)) (row_index 4) SLOTS.AVAILABLE = "2" /\
  cell_at (slots_grid (store w1)) (row_index 4) SLOTS.CAPACITY = "2" /\
  stored_taken (store w1) 4 = "1" /\
  slot_available (slot_at (slots_grid (store w1)) 2) = 1 /\
  exists d1 s1 s2 s4, fst (handler Demo.env Demo.listing w1) =
    respond 200 (Dates [d1; ("2030-01-02", [
      {| slot_id := 4; slot_date := "2030-01-02"; slot_label := "9am-10am";
         slot_capacity := 2; slot_taken := 1; slot_available := 1 |}; s4])]) /\
    d1 = ("2030-01-01", [s1; s2]).
Proof. vm_compute. repeat split. eexists _, _, _, _. split; reflexivity. Qed.

(** ** One ACTIVE signup per phone and slot *)

Lemma omap_sublist {A B} (f : A -> option B) (l1 l2 : list A) :
  l1 `sublist_of` l2 -> omap f l1 `sublist_of` omap f l2.
Proof.
  induction 1 as [|x l1 l2 _ IH|x l1 l2 _ IH]; simpl.
  - done.
  - destruct (f x); [by apply sublist_skip | done].
  - destruct (f x); [by apply sublist_cons | done].
Qed.

Lemma omap_fmap_Some {A B C} (f : B -> option C) (g : A -> B) (h : A -> C) (l : list A) :
  (forall x, f (g x) = Some (h x)) -> omap f (g <$> l) = h <$> l.
Proof.
  intros H. induction l as [|x l IH]; [done|].
  rewrite !fmap_cons. change (omap f (g x :: (g <$> l)))
    with (match f (g x) with Some y => y :: omap f (g <$> l) | None => omap f (g <$> l) end).
  by rewrite H, IH.
Qed.

Lemma omap_all_None {A B} (f : A -> option B) (l : list A) :
  Forall (fun x => f x = None) l -> omap f l = [].
Proof. induction 1 as [|x l Hx _ IH]; simpl; [done|]. by rewrite Hx. Qed.

Lemma row_blank_no_key (row : list string) : row_blank row = true -> active_key row = None.
Proof.
  intros Hb. unfold active_key.
  rewrite parseInt_content, !(row_blank_content _ _ Hb).
  by destruct (is_active row).
Qed.

(** The keys after rows are appended: those before, then those of the
    new rows (less the first new row if the sheet was empty). *)
Lemma active_keys_appended (g new : list (list string)) :
  omap active_key (drop 1 (append_rows g new)) `sublist_of`
  omap active_key (drop 1 g) ++ omap active_key new.
Proof.
  unfold append_rows.
  destruct (strip_trailing_split row_blank g) as [k [Hg Hk]].
  assert (omap active_key k = []) as Hknone.
  { apply omap_all_None. eapply Forall_impl; [exact Hk|]. apply row_blank_no_key. }
  rewrite Hg at 2.
  destruct (strip_trailing row_blank g) as [|h t]; simpl.
  - assert (omap active_key (drop 1 k) = []) as ->.
    { apply sublist_nil_r. rewrite <- Hknone. apply omap_sublist, sublist_drop. }
    simpl. apply omap_sublist, sublist_drop.
  - repeat rewrite drop_0. rewrite !omap_app, Hknone, app_nil_r. done.
Qed.

Lemma active_key_appended env f st id :
  active_key (appended_row env f st id) = Some (JS.trim (f_phone f), id).
Proof.
  unfold active_key, appended_row, signup_row, is_active.
  change ((String_of <$> _) !! SIGNUPS.STATUS) with (Some "ACTIVE").
  change ((String_of <$> _) !! SIGNUPS.SLOT_ROW_ID) with (Some (JS.toString id)).
  change ((String_of <$> _) !! SIGNUPS.PHONE) with (Some (f_phone f)).
  simpl JS.startsWith. cbv iota. simpl JS.parseInt. by rewrite parseInt_toString.
Qed.

Lemma unique_active_booked env f st ids :
  unique_active st -> NoDup ids ->
  JS.trim (f_phone f) = f_phone f ->
  (forall id, id ∈ ids -> (f_phone f, id) ∉ active_keys st) ->
  unique_active (booked_store env f st ids).
Proof.
  unfold unique_active, active_keys. intros Hold Hids Htrim Hfree. simpl signups_grid.
  eapply sublist_NoDup; [|apply active_keys_appended].
  rewrite (omap_fmap_Some active_key (appended_row env f st) (fun id => (f_phone f, id))).
  - apply NoDup_app. split; [done|]. split.
    + intros key Hkey [id [-> Hin]]%list_elem_of_fmap. by apply (Hfree id Hin).
    + apply NoDup_fmap_2; [|done]. by intros a b [= ->].
  - intros id. by rewrite active_key_appended, Htrim.
Qed.

Lemma omap_drop_insert_sublist {A B} (f : A -> option B) y (l : list A) :
  f y = None ->
  forall n i, omap f (drop n (<[i:=y]> l)) `sublist_of` omap f (drop n l).
Proof.
  intros Hy. induction l as [|x l IH]; intros n i; [done|].
  destruct i as [|i], n as [|n]; simpl.
  - rewrite Hy. destruct (f x); [by apply sublist_cons | done].
  - done.
  - specialize (IH 0%nat i). rewrite !drop_0 in IH.
    destruct (f x); [by apply sublist_skip | done].
  - apply IH.
Qed.

Lemma set_cell_in_range (g : list (list string)) r c v :
  (r < length g)%nat ->
  set_cell g r c v = <[r := <[c := v]> (pad_to (S c) "" (default [] (g !! r)))]> g.
Proof.
  intros Hr. unfold set_cell.
  assert (pad_to (S r) [] g = g) as ->; [|done].
  unfold pad_to. replace (S r - length g)%nat with 0%nat by lia. apply app_nil_r.
Qed.

Lemma cancelled_row_no_key (row : list string) ts :
  active_key (<[SIGNUPS.STATUS := "CANCELLED:" +:+ ts]> (pad_to 10 "" row)) = None.
Proof.
  unfold active_key, is_active.
  rewrite list_lookup_insert_eq by (rewrite length_pad_to; unfold SIGNUPS.STATUS; lia).
  done.
Qed.

Lemma unique_active_cancelled env st sid tid :
  (row_index sid < length (signups_grid st))%nat ->
  unique_active st -> unique_active (cancelled_store env st sid tid).
Proof.
  unfold unique_active, active_keys. intros Hr Hold. simpl signups_grid.
  rewrite set_cell_in_range by done.
  eapply sublist_NoDup; [exact Hold|].
  apply omap_drop_insert_sublist, cancelled_row_no_key.
Qed.

(** Every request keeps the pairs of ACTIVE signups distinct, provided a
    booking request does not name a slot twice. *)
Lemma unique_active_step env req w :
  unique_active (store w) ->
  (method req = POST -> NoDup (ids_of (body req))) ->
  unique_active (store (snd (handler env req w))).
Proof.
  intros Hold Hnodup.
  destruct (handler_store env req w)
    as [[Hst _] | [(Hm & H200 & Hv & Hff & Hst) |
               (Hm & H200 & sid & tid & phone & Hpar & Hs & Ht & Hph & Hst)]];
    rewrite Hst; [done | |].
  - destruct (validated_request _ Hv) as (_ & _ & _ & Htrim).
    apply unique_active_booked; [done | by apply Hnodup | exact Htrim |].
    intros id Hin. by apply (booked_slots_had_room _ _ Hv Hff id Hin).
  - apply unique_active_cancelled; [|done].
    apply (stored_phone_row_present _ _ phone); [apply Hpar | done].
Qed.

Lemma unique_active_run steps :
  forall w,
    unique_active (store w) ->
    Forall (fun step => method (snd step) = POST -> NoDup (ids_of (body (snd step)))) steps ->
    unique_active (store (run steps w)).
Proof.
  induction steps as [|[env req] rest IH]; intros w Hok Hsteps; [done|].
  apply Forall_cons in Hsteps as [Hreq Hrest].
  simpl. apply IH; [|done]. by apply unique_active_step.
Qed.

(** ** The header row of the Signups sheet *)

Lemma header_kept st :
  has_header st ->
  exists h t, strip_trailing row_blank (signups_grid st) = h :: t.
Proof.
  unfold has_header. intros Hh.
  destruct (signups_grid st !! 0%nat) as [h|] eqn:Hg.
  - destruct (row_blank h) eqn:Hb.
    + assert (row_empty (signups_grid st) 0 0 9 = true) as He; [|congruence].
      apply row_empty_true. intros i _. rewrite (cell_at_row _ _ _ h) by done.
      by apply row_blank_content.
    + pose proof (strip_trailing_keep row_blank _ _ _ Hg Hb) as Hk.
      destruct (strip_trailing row_blank (signups_grid st)) as [|h' t]; [done|]. eauto.
  - assert (row_empty (signups_grid st) 0 0 9 = true) as He; [|congruence].
    apply row_empty_true. intros i _. by apply cell_at_no_row.
Qed.

Lemma row_empty_row (g g' : list (list string)) r c0 c1 :
  g !! r = g' !! r -> row_empty g r c0 c1 = row_empty g' r c0 c1.
Proof. intros H. unfold row_empty, cell_at. by rewrite H. Qed.

(** With a header in row 1, the rows of a booking are appended below
    it: row 1 is left as it was. *)
Lemma booked_keeps_row_1 env f st ids :
  has_header st ->
  signups_grid (booked_store env f st ids) !! 0%nat = signups_grid st !! 0%nat.
Proof.
  intros Hh. destruct (header_kept st Hh) as (h & t & Hs).
  simpl signups_grid. unfold append_rows. rewrite Hs. simpl.
  symmetry. apply (strip_trailing_lookup_Some row_blank). by rewrite Hs.
Qed.

Lemma has_header_booked env f st ids :
  has_header st -> has_header (booked_store env f st ids).
Proof.
  intros Hh. unfold has_header in *. rewrite <- Hh.
  apply row_empty_row. by apply booked_keeps_row_1.
Qed.

Lemma has_header_cancelled env st sid tid :
  has_header st -> has_header (cancelled_store env st sid tid).
Proof.
  unfold has_header. intros Hh.
  destruct (row_empty (signups_grid (cancelled_store env st sid tid)) 0 0 9) eqn:He; [|done].
  rewrite row_empty_true in He. simpl signups_grid in He.
  destruct (decide (row_index sid = 0%nat)) as [H0|H0].
  - specialize (He SIGNUPS.STATUS ltac:(unfold SIGNUPS.STATUS; lia)).
    rewrite cell_at_set_cell in He. rewrite decide_True in He by done. discriminate He.
  - rewrite <- Hh. symmetry. apply row_empty_true. intros i Hi.
    specialize (He i Hi). rewrite cell_at_set_cell in He.
    rewrite decide_False in He; [done|]. intros [? _]. congruence.
Qed.

Lemma has_header_step env req w :
  has_header (store w) -> has_header (store (snd (handler env req w))).
Proof.
  intros Hh.
  destruct (handler_store env req w)
    as [[Hst _] | [(_ & _ & _ & _ & Hst) |
               (_ & _ & sid & tid & phone & _ & _ & _ & _ & Hst)]];
    rewrite Hst; [done | by apply has_header_booked | by apply has_header_cancelled].
Qed.

Lemma has_header_run steps :
  forall w, has_header (store w) -> has_header (store (run steps w)).
Proof.
  induction steps as [|[env req] rest IH]; intros w Hh; [done|].
  simpl. apply IH. by apply has_header_step.
Qed.

(** A booking leaves row 1 of a sheet with a header as it was, whatever
    its outcome. *)
Lemma booking_keeps_row_1 env req w :
  method req = POST -> has_header (store w) ->
  signups_grid (store (snd (handler env req w))) !! 0%nat =
  signups_grid (store w) !! 0%nat.
Proof.
  intros Hm Hh.
  destruct (handler_store env req w)
    as [[Hst _] | [(_ & _ & _ & _ & Hst) | (Hp & _)]];
    [by rewrite Hst | rewrite Hst; by apply booked_keeps_row_1 | congruence].
Qed.

(** C2, as amended.  For a booking request that passes validation and
    the throttle and whose two reads succeed: if a requested slot id has,
    among the data rows of the Signups sheet (sheet row 2 on, the rows the
    duplicate scan reads), a signup row with the same phone, the same
    slotRowId and a status starting with ACTIVE (an empty status cell
    counting as ACTIVE), then some requested slot fails a check, the
    answer is the error of the first requested slot that fails (a 400 or a
    409), and nothing is written; when the duplicate slot is itself that
    first slot and its slot row is there, the answer is the 409 "Already
    booked <label> on <date>." that names it.  Consequently, along
    requests handled one after the other, the ACTIVE signup rows among the
    data rows keep pairwise distinct (phone, slotRowId) pairs, provided no
    booking request names a slot id twice.  On a sheet whose row 1 holds
    the header, row 1 keeps holding it, and a booking leaves row 1 as it
    was: the rows it appends are data rows, so that the data rows hold
    every signup the system writes. *)
Theorem C2_duplicate_booking_guard (env : Env) (req : Request) (w : World) :
  method req = POST ->
  allowed env req w ->
  reaches_booking (body req) (entered env req w) ->
  let ids := ids_of (body req) in
  let phone := throttle_phone (body req) in
  fails env (ValuesBatchGet (slot_row_range <$> ids)) = false ->
  fails env (ValuesGet signups_range) = false ->
  let res := handler env req w in
  (forall id,
      id ∈ ids -> (phone, id) ∈ active_keys (store w) ->
      exists first,
        List.find (slot_fails (store w) phone) ids = Some first /\
        fst res = rejection (store w) phone first /\
        (status (fst res) = 400 \/ status (fst res) = 409) /\
        (exists e, payload (fst res) = Error e) /\
        store (snd res) = store w /\
        log (snd res) = log w ++ [ValuesBatchGet (slot_row_range <$> ids);
                                  ValuesGet signups_range] /\
        (first = id ->
         row_empty (slots_grid (store w)) (row_index id) 0 3 = false ->
         fst res = respond 409 (Error
           ("Already booked " +:+
            String_of (of_cell (seen_row (store w) id !! SLOTS.LABEL)) +:+ " on " +:+
            String_of (of_cell (seen_row (store w) id !! SLOTS.DATE)) +:+ ".")))) /\
  (forall steps w0,
      unique_active (store w0) ->
      Forall (fun step => method (snd step) = POST -> NoDup (ids_of (body (snd step))))
             steps ->
      unique_active (store (run steps w0)) /\
      (has_header (store w0) -> has_header (store (run steps w0)))) /\
  (forall env' req' w',
      method req' = POST -> has_header (store w') ->
      signups_grid (store (snd (handler env' req' w'))) !! 0%nat =
      signups_grid (store w') !! 0%nat).
Proof.
  intros Hm Hadm Hreach ids phone Hf1 Hf2 res.
  split; [|split].
  - intros id Hin Hdup.
    assert (Exists (fun i => slot_fails (store w) phone i = true) ids) as Hfails.
    { apply Exists_exists. exists id. split; [done|]. unfold slot_fails.
      rewrite (bool_decide_true _ Hdup). by rewrite orb_true_r. }
    destruct (find_first_failing _ _ Hfails) as [id0 [Hfind _]].
    destruct (rejected_at_first_failure env req w id0 Hm Hadm Hreach Hf1 Hf2 Hfind)
      as (Hres & Hst & Hlog).
    fold res in Hres, Hst, Hlog. fold ids phone in Hres, Hlog, Hfind.
    destruct (rejection_shape (store w) phone id0) as [Hstatus He].
    exists id0. rewrite Hres. repeat split; try done.
    intros Heq Hrow. rewrite Heq. unfold rejection. by rewrite Hrow, bool_decide_true.
  - intros steps w0 Hu Hsteps. split; [by apply unique_active_run|].
    apply has_header_run.
  - intros env' req' w'. apply booking_keeps_row_1.
Qed.

Lemma C2_duplicate_booking_guard_witness :
  let res := handler Demo.env (Demo.post [4; 2]) Demo.w in
  let w2 := run [(Demo.env, Demo.post [4; 5]); (Demo.env, Demo.patch 2 2 Demo.phone);
                 (Demo.env, Demo.post [2])] Demo.w in
  List.find (slot_fails (store Demo.w) Demo.phone) [4; 2] = Some 2 /\
  fst res = respond 409 (Error "Already booked 9am-10am on 2030-01-01.") /\
  store (snd res) = store Demo.w /\
  writes (log (snd res)) = [] /\
  unique_active (store w2) /\ has_header (store w2).
Proof.
  destruct (C2_duplicate_booking_guard Demo.env (Demo.post [4; 2]) Demo.w)
    as (Hguard & Hunique & _).
  - reflexivity.
  - reflexivity.
  - split; reflexivity.
  - reflexivity.
  - reflexivity.
  - destruct (Hguard 2) as (first & Hfind & _ & _ & _ & Hst & Hlog & Hmsg).
    + apply list_elem_of_further, list_elem_of_here.
    + apply (bool_decide_unpack _). vm_compute. exact I.
    + assert (first = 2) as -> by (vm_compute in Hfind; congruence).
      split; [reflexivity|]. split; [|split; [|split]].
      * apply Hmsg; reflexivity.
      * exact Hst.
      * rewrite Hlog. reflexivity.
      * destruct (Hunique
                    [(Demo.env, Demo.post [4; 5]); (Demo.env, Demo.patch 2 2 Demo.phone);
                     (Demo.env, Demo.post [2])] Demo.w) as [Hu Hh].
        -- apply (bool_decide_unpack _). vm_compute. exact I.
        -- repeat constructor; simpl; intros; try discriminate;
             apply (bool_decide_unpack _); vm_compute; exact I.
        -- split; [exact Hu | apply Hh; reflexivity].
Defined.

(** C2 as first stated fails twice in the demo deployment.  The
    phone holds an ACTIVE signup for slot 2, yet a request for slots 3
    and 2 is answered with the error of the full slot 3, not with a
    duplicate-booking error.  And a request naming the free slot 4 twice
    is answered 200 and appends two ACTIVE rows for the same phone and
    slot. *)
Lemma C2_duplicate_booking_counterexample :
  (Demo.phone, 2) ∈ active_keys (store Demo.w) /\
  fst (handler Demo.env (Demo.post [3; 2]) Demo.w) =
    respond 409 (Error "Slot 10am-12pm on 2030-01-01 is full.") /\
  unique_active (store Demo.w) /\
  status (fst (handler Demo.env (Demo.post [4; 4]) Demo.w)) = 200 /\
  active_keys (store (snd (handler Demo.env (Demo.post [4; 4]) Demo.w))) =
    [(Demo.phone, 2); ("5557654321", 5); (Demo.phone, 4); (Demo.phone, 4)] /\
  ~ unique_active (store (snd (handler Demo.env (Demo.post [4; 4]) Demo.w))).
Proof.
  split; [apply (bool_decide_unpack _); vm_compute; exact I|].
  split; [vm_compute; reflexivity|].
  split; [apply (bool_decide_unpack _); vm_compute; exact I|].
  split; [vm_compute; reflexivity|].
  split; [vm_compute; reflexivity|].
  apply (bool_decide_eq_false_1 _). vm_compute. reflexivity.
Qed.

(** Why the header is part of the statement: on a Signups sheet whose row
    1 is empty the first signup is appended into row 1, which the
    duplicate scan of [A2:J] does not read, so the same booking goes
    through a second time. *)
Example headerless_sheet_scenario :
  let w0 := mkWorld (mkStore [] Demo.slots) initial_cache ∅ ∅ [] in
  let w1 := snd (handler Demo.env (Demo.post [4]) w0) in
  let res := handler Demo.env (Demo.post [4]) w1 in
  ~ has_header (store w0) /\
  status (fst (handler Demo.env (Demo.post [4]) w0)) = 200 /\
  status (fst res) = 200 /\
  omap active_key (signups_grid (store (snd res))) = [(Demo.phone, 4); (Demo.phone, 4)] /\
  active_keys (store (snd res)) = [(Demo.phone, 4)] /\
  unique_active (store (snd res)).
Proof.
  split; [by vm_compute|].
  split; [vm_compute; reflexivity|].
  split; [vm_compute; reflexivity|].
  split; [vm_compute; reflexivity|].
  split; [vm_compute; reflexivity|].
  apply (bool_decide_unpack _). vm_compute. exact I.
Qed.

(** * Properties of the remaining code *)

(** ** What the branches leave alone *)

Lemma book_frame env f ids w :
  rateLimitMap (snd (book env f ids w)) = rateLimitMap w /\
  (activeBookingsMap (snd (book env f ids w)) = activeBookingsMap w \/
   activeBookingsMap (snd (book env f ids w)) =
     decrementActiveBookings (f_phone f) (activeBookingsMap w)).
Proof. open_book; auto. Qed.

Lemma handle_post_frame env b w :
  rateLimitMap (snd (handle_post env b w)) = rateLimitMap w /\
  (activeBookingsMap (snd (handle_post env b w)) = activeBookingsMap w \/
   reaches_booking b w /\
   (activeBookingsMap (snd (handle_post env b w)) =
      incrementActiveBookings (throttle_phone b) (activeBookingsMap w) \/
    activeBookingsMap (snd (handle_post env b w)) =
      decrementActiveBookings (throttle_phone b)
        (incrementActiveBookings (throttle_phone b) (activeBookingsMap w)))).
Proof.
  destruct (decide (reaches_booking b w)) as [Hr|Hr].
  - rewrite handle_post_book by done.
    destruct (book_frame env (fields_of b) (ids_of b) (acquired b w)) as [Hrl Ham].
    split; [done|]. right. split; [done|]. exact Ham.
  - destruct (handle_post_other env b w Hr) as [-> _]. auto.
Qed.

Lemma handle_patch_frame env b w :
  rateLimitMap (snd (handle_patch env b w)) = rateLimitMap w /\
  activeBookingsMap (snd (handle_patch env b w)) = activeBookingsMap w.
Proof. open_patch; auto. Qed.

Lemma handle_lookup_frame env q w :
  rateLimitMap (snd (handle_lookup env q w)) = rateLimitMap w /\
  activeBookingsMap (snd (handle_lookup env q w)) = activeBookingsMap w /\
  cache (snd (handle_lookup env q w)) = cache w /\
  writes (log (snd (handle_lookup env q w))) = writes (log w).
Proof.
  unfold handle_lookup, values_get.
  repeat (case_match; simplify_eq; simpl in * ); repeat split; try done;
    unfold writes; rewrite List.filter_app; simpl; by rewrite app_nil_r.
Qed.

Lemma handle_listing_frame env w :
  rateLimitMap (snd (handle_listing env w)) = rateLimitMap w /\
  activeBookingsMap (snd (handle_listing env w)) = activeBookingsMap w /\
  writes (log (snd (handle_listing env w))) = writes (log w).
Proof.
  unfold handle_listing, values_get.
  repeat (case_match; simplify_eq; simpl in * ); repeat split; try done;
    unfold writes; rewrite List.filter_app; simpl; by rewrite app_nil_r.
Qed.

Lemma handler_options env req w :
  method req = OPTIONS -> handler env req w = (respond 200 NoBody, w).
Proof. unfold handler. by intros ->. Qed.

Lemma handler_rateLimitMap env req w :
  method req <> OPTIONS ->
  rateLimitMap (snd (handler env req w)) =
  snd (checkRateLimit (now_rate env) (clientIP req) (rateLimitMap w)).
Proof.
  intros Hm. destruct (decide (allowed env req w)) as [Ha|Ha].
  - destruct (method req) eqn:Hmeth; [done| | | |].
    + unfold handler. rewrite Hmeth. unfold allowed in Ha.
      destruct (checkRateLimit _ _ _) as [[] rl]; simpl in *; [|done].
      destruct (JS.truthy (query_phone req)).
      * by destruct (handle_lookup_frame env (query_phone req) (with_rateLimitMap rl w)) as [-> _].
      * by destruct (handle_listing_frame env (with_rateLimitMap rl w)) as [-> _].
    + rewrite handler_post by done.
      by destruct (handle_post_frame env (body req) (entered env req w)) as [-> _].
    + rewrite handler_patch by done.
      by destruct (handle_patch_frame env (body req) (entered env req w)) as [-> _].
    + unfold handler. rewrite Hmeth. unfold allowed in Ha.
      by destruct (checkRateLimit _ _ _) as [[] rl]; simpl in *.
  - rewrite handler_denied by done. simpl.
    symmetry. apply checkRateLimit_denied_unchanged.
    unfold allowed in Ha. by destruct (fst (checkRateLimit _ _ _)).
Qed.

Lemma checkRateLimit_lookup now id (m : gmap string (list Z)) :
  fst (checkRateLimit now id m) = true ->
  snd (checkRateLimit now id m) !! id = Some (counted now id m ++ [now]).
Proof.
  unfold checkRateLimit, counted.
  destruct (_ <=? _); simpl; [done|]. intros _. by rewrite lookup_insert_eq.
Qed.

Lemma checkRateLimit_other now id id' (m : gmap string (list Z)) :
  id <> id' -> snd (checkRateLimit now id m) !! id' = m !! id'.
Proof.
  intros Hne. unfold checkRateLimit.
  destruct (_ <=? _); simpl; [done|]. by rewrite lookup_insert_ne.
Qed.

Lemma checkRateLimit_verdict now id (m m' : gmap string (list Z)) :
  counted now id m = counted now id m' ->
  fst (checkRateLimit now id m) = fst (checkRateLimit now id m').
Proof.
  unfold checkRateLimit, counted. intros ->. by destruct (_ <=? _).
Qed.

(** X1.  Every request other than a preflight is counted by the rate
    limiter, whatever it is answered: a preflight (OPTIONS) is answered 200
    with nothing changed and nothing counted; a request the limiter turns
    down is answered 429 with nothing changed; a request the limiter lets
    in, of any method and with any outcome, adds its time stamp to the
    stamps counted for its client, and touches the stamps of no other
    client. *)
Theorem X1_every_request_is_counted (env : Env) (req : Request) (w : World) :
  let res := handler env req w in
  (method req = OPTIONS -> res = (respond 200 NoBody, w)) /\
  (method req <> OPTIONS -> ~ allowed env req w ->
   res = (respond 429 (Error "Too many requests. Please try again later."), w)) /\
  (method req <> OPTIONS -> allowed env req w ->
   rateLimitMap (snd res) !! clientIP req =
     Some (counted (now_rate env) (clientIP req) (rateLimitMap w) ++ [now_rate env])) /\
  (forall id, id <> clientIP req -> rateLimitMap (snd res) !! id = rateLimitMap w !! id).
Proof.
  intros res. unfold res. repeat split.
  - apply handler_options.
  - apply handler_denied.
  - intros Hm Ha. rewrite handler_rateLimitMap by done. by apply checkRateLimit_lookup.
  - intros id Hid. destruct (decide (method req = OPTIONS)) as [Hm|Hm].
    + by rewrite handler_options.
    + rewrite handler_rateLimitMap by done. by apply checkRateLimit_other.
Qed.

(** X2.  The rate limit is kept per client: a request of one client,
    whatever it is and however it ends, does not change whether a request
    of another client is let in. *)
Theorem X2_rate_limit_is_per_client (env1 env2 : Env) (req1 req2 : Request) (w : World) :
  clientIP req1 <> clientIP req2 ->
  allowed env2 req2 (snd (handler env1 req1 w)) <-> allowed env2 req2 w.
Proof.
  intros Hne. unfold allowed.
  rewrite (checkRateLimit_verdict _ _ (rateLimitMap (snd (handler env1 req1 w))) (rateLimitMap w));
    [done|].
  unfold counted. f_equal. f_equal.
  destruct (decide (method req1 = OPTIONS)) as [Hm|Hm].
  - by rewrite handler_options.
  - rewrite handler_rateLimitMap by done. by apply checkRateLimit_other.
Qed.

Lemma X2_rate_limit_is_per_client_witness :
  allowed Demo.env (Demo.request GET (Demo.booking_body None))
    (snd (handler Demo.env
            {| method := POST; x_forwarded_for := None; x_real_ip := Some "198.51.100.9";
               query_phone := None; body := Demo.booking_body (Some [IntV 4]) |} Demo.w)) <->
  allowed Demo.env (Demo.request GET (Demo.booking_body None)) Demo.w.
Proof.
  apply (X2_rate_limit_is_per_client Demo.env Demo.env
           {| method := POST; x_forwarded_for := None; x_real_ip := Some "198.51.100.9";
              query_phone := None; body := Demo.booking_body (Some [IntV 4]) |}
           (Demo.request GET (Demo.booking_body None)) Demo.w).
  vm_compute. discriminate.
Defined.

(** ** The periodic sweep *)

Lemma recent_of_later now now' (l : list Z) :
  now <= now' -> recent_of now' (recent_of now l) = recent_of now' l.
Proof.
  intros Hle. unfold recent_of. induction l as [|t l IH]; [done|].
  rewrite !filter_cons. repeat case_decide; rewrite ?filter_cons; repeat case_decide;
    try lia; by rewrite IH.
Qed.

Lemma counted_later now now' id (m m' : gmap string (list Z)) :
  now <= now' -> counted now id m = counted now id m' ->
  counted now' id m = counted now' id m'.
Proof.
  intros Hle Heq. unfold counted in *.
  rewrite <- (recent_of_later now now' (default [] (m !! id))) by done.
  rewrite <- (recent_of_later now now' (default [] (m' !! id))) by done.
  by rewrite Heq.
Qed.

Lemma cleanup_lookup now id (m : gmap string (list Z)) :
  default [] (cleanupRateLimitMap now m !! id) = counted now id m.
Proof.
  unfold cleanupRateLimitMap, counted. rewrite lookup_omap.
  destruct (m !! id) as [l|]; simpl; [|done].
  by destruct (recent_of now l).
Qed.

Lemma counted_cleanup now id (m : gmap string (list Z)) :
  counted now id (cleanupRateLimitMap now m) = counted now id m.
Proof.
  unfold counted at 1. rewrite cleanup_lookup. unfold counted.
  by apply recent_of_later.
Qed.

Lemma run_checks_same id (ts : list Z) :
  forall now (m m' : gmap string (list Z)),
    counted now id m = counted now id m' ->
    nondecreasing now ts ->
    fst (run_checks id ts m) = fst (run_checks id ts m').
Proof.
  induction ts as [|t ts IH]; intros now m m' Heq Hmono; [done|].
  destruct Hmono as [Hle Hmono]. simpl.
  pose proof (counted_later now t id m m' Hle Heq) as Heq'.
  pose proof (checkRateLimit_verdict t id m m' Heq') as Hv.
  destruct (checkRateLimit t id m) as [ok m1] eqn:H1.
  destruct (checkRateLimit t id m') as [ok' m1'] eqn:H1'.
  simpl in Hv. subst ok'.
  specialize (IH t m1 m1').
  destruct (run_checks id ts m1) as [oks m2].
  destruct (run_checks id ts m1') as [oks' m2']. simpl in *.
  f_equal. apply IH; [|done].
  destruct ok.
  - unfold counted.
    pose proof (checkRateLimit_lookup t id m) as Hl. rewrite H1 in Hl. simpl in Hl.
    pose proof (checkRateLimit_lookup t id m') as Hl'. rewrite H1' in Hl'. simpl in Hl'.
    rewrite Hl, Hl' by done. by rewrite Heq'.
  - pose proof (checkRateLimit_denied_unchanged t id m) as Hl. rewrite H1 in Hl.
    pose proof (checkRateLimit_denied_unchanged t id m') as Hl'. rewrite H1' in Hl'.
    simpl in *. rewrite Hl, Hl' by done. done.
Qed.

(** X3.  The periodic sweep of the rate-limit map is invisible to the
    limiter.  It keeps, for every client, exactly the stamps still inside
    the window at the time of the sweep, and forgets the clients that have
    none; and as long as the clock does not go back, every later check of
    every client gets the verdict it would have got without the sweep. *)
Theorem X3_sweep_keeps_verdicts (now : Z) (m : gmap string (list Z))
    (id : string) (ts : list Z) :
  nondecreasing now ts ->
  default [] (cleanupRateLimitMap now m !! id) = counted now id m /\
  (cleanupRateLimitMap now m !! id = None <-> counted now id m = []) /\
  fst (run_checks id ts (cleanupRateLimitMap now m)) = fst (run_checks id ts m).
Proof.
  intros Hmono. split; [apply cleanup_lookup|]. split.
  - pose proof (cleanup_lookup now id m) as H.
    unfold cleanupRateLimitMap in *. rewrite lookup_omap in *.
    unfold counted in *. destruct (m !! id) as [l|]; simpl in *; [|done].
    destruct (recent_of now l) eqn:Hr; simpl in *; [done|].
    split; [done|]. intros Hc. by rewrite Hc in H.
  - apply (run_checks_same id ts now); [|done]. apply counted_cleanup.
Qed.

Lemma X3_sweep_keeps_verdicts_witness :
  let m := snd (run_checks "203.0.113.7" Demo.times ∅) in
  default [] (cleanupRateLimitMap 70000 m !! "203.0.113.7") = counted 70000 "203.0.113.7" m /\
  (cleanupRateLimitMap 70000 m !! "203.0.113.7" = None <-> counted 70000 "203.0.113.7" m = []) /\
  fst (run_checks "203.0.113.7" [70500; 71000; 120000] (cleanupRateLimitMap 70000 m)) =
  fst (run_checks "203.0.113.7" [70500; 71000; 120000] m).
Proof.
  apply (X3_sweep_keeps_verdicts 70000 (snd (run_checks "203.0.113.7" Demo.times ∅))
           "203.0.113.7" [70500; 71000; 120000]).
  simpl. lia.
Defined.

(** ** The per-phone throttle *)

Lemma active_count_insert p q c (m : gmap string Z) :
  active_count p (<[q := c]> m) = if decide (q = p) then c else active_count p m.
Proof.
  unfold active_count. case_decide as H.
  - subst. by rewrite lookup_insert_eq.
  - by rewrite lookup_insert_ne.
Qed.

Lemma active_count_incr p q (m : gmap string Z) :
  active_count p (incrementActiveBookings q m) =
  if decide (q = p) then active_count p m + 1 else active_count p m.
Proof.
  unfold incrementActiveBookings. rewrite active_count_insert.
  by case_decide; subst.
Qed.

Lemma active_count_decr p q (m : gmap string Z) :
  active_count p (decrementActiveBookings q m) =
  if decide (q = p) then (if 0 <? active_count p m then active_count p m - 1
                          else active_count p m)
  else active_count p m.
Proof.
  unfold decrementActiveBookings. fold (active_count q m).
  destruct (0 <? active_count q m) eqn:Hc.
  - rewrite active_count_insert. case_decide; subst; [by rewrite Hc | done].
  - case_decide; subst; [by rewrite Hc | done].
Qed.

(** What a request does to the in-flight count of a phone. *)
Lemma handler_active_count env req w p :
  let c := active_count p (activeBookingsMap w) in
  let c' := active_count p (activeBookingsMap (snd (handler env req w))) in
  c' = c \/
  (c' = c + 1 /\ c < CONFIG.MAX_CONCURRENT_BOOKINGS /\
   method req = POST /\ validateBookingRequest (body req) = Some [] /\
   throttle_phone (body req) = p).
Proof.
  intros c c'. unfold c, c'. clear c c'.
  destruct (decide (allowed env req w)) as [Ha|Ha]; cycle 1.
  { destruct (decide (method req = OPTIONS)) as [Hm|Hm].
    - rewrite handler_options by done. by left.
    - rewrite handler_denied by done. by left. }
  destruct (method req) eqn:Hmeth.
  - rewrite handler_options by done. by left.
  - left. unfold handler. rewrite Hmeth. unfold allowed in Ha.
    destruct (checkRateLimit _ _ _) as [[] rl]; simpl in *; [|done].
    destruct (JS.truthy (query_phone req)).
    + by destruct (handle_lookup_frame env (query_phone req) (with_rateLimitMap rl w))
        as (_ & -> & _).
    + by destruct (handle_listing_frame env (with_rateLimitMap rl w)) as (_ & -> & _).
  - rewrite handler_post by done.
    destruct (handle_post_frame env (body req) (entered env req w))
      as [_ [Hsame | [[Hv Hc] Hch]]].
    { left. by rewrite Hsame. }
    change (activeBookingsMap (entered env req w)) with (activeBookingsMap w) in *.
    unfold checkConcurrentBookings in Hc. apply Z.ltb_lt in Hc.
    fold (active_count (throttle_phone (body req)) (activeBookingsMap w)) in Hc.
    destruct Hch as [-> | ->]; rewrite ?active_count_decr, !active_count_incr;
      case_decide as Hp; try (by left); subst p.
    + right. done.
    + destruct (0 <? _) eqn:H0; [left; lia | right; done].
  - left. rewrite handler_patch by done.
    by destruct (handle_patch_frame env (body req) (entered env req w)) as [_ ->].
  - left. unfold handler. rewrite Hmeth. unfold allowed in Ha.
    by destruct (checkRateLimit _ _ _) as [[] rl]; simpl in *.
Qed.

Lemma run_active_count steps p :
  forall w,
    0 <= active_count p (activeBookingsMap w) <= CONFIG.MAX_CONCURRENT_BOOKINGS ->
    active_count p (activeBookingsMap w) <= active_count p (activeBookingsMap (run steps w)) /\
    active_count p (activeBookingsMap (run steps w)) <= CONFIG.MAX_CONCURRENT_BOOKINGS.
Proof.
  unfold CONFIG.MAX_CONCURRENT_BOOKINGS.
  induction steps as [|[env req] steps IH]; intros w Hc; simpl; [lia|].
  pose proof (handler_active_count env req w p) as Hstep. simpl in Hstep.
  unfold CONFIG.MAX_CONCURRENT_BOOKINGS in Hstep.
  destruct (IH (snd (handler env req w))) as [H1 H2]; lia.
Qed.

Lemma handler_throttled env req w :
  method req = POST -> allowed env req w ->
  validateBookingRequest (body req) = Some [] ->
  CONFIG.MAX_CONCURRENT_BOOKINGS <=
    active_count (throttle_phone (body req)) (activeBookingsMap w) ->
  handler env req w =
  (respond 429 (Error "Too many concurrent requests. Try again."), entered env req w).
Proof.
  intros Hm Ha Hv Hc. rewrite handler_post by done.
  unfold handle_post. rewrite Hv. simpl.
  change (sanitizeInput (b_phone (body req)) CONFIG.MAX_PHONE_LENGTH)
    with (throttle_phone (body req)).
  unfold checkConcurrentBookings.
  change (activeBookingsMap (entered env req w)) with (activeBookingsMap w).
  fold (active_count (throttle_phone (body req)) (activeBookingsMap w)).
  destruct (_ <? _) eqn:Hlt; [apply Z.ltb_lt in Hlt; lia | done].
Qed.

(** X4.  The in-flight count the throttle keeps for a phone stays between
    0 and the ceiling of 3 through any run of requests, and no request
    lowers it: a request leaves it as it was or raises it by one, and only
    a booking of that phone that passed validation while the count was
    below the ceiling raises it. *)
Theorem X4_throttle_count_bounds (steps : list (Env * Request)) (w : World) (p : string) :
  0 <= active_count p (activeBookingsMap w) <= CONFIG.MAX_CONCURRENT_BOOKINGS ->
  active_count p (activeBookingsMap w) <= active_count p (activeBookingsMap (run steps w)) /\
  active_count p (activeBookingsMap (run steps w)) <= CONFIG.MAX_CONCURRENT_BOOKINGS /\
  forall env req,
    let c := active_count p (activeBookingsMap w) in
    let c' := active_count p (activeBookingsMap (snd (handler env req w))) in
    c' = c \/
    (c' = c + 1 /\ c < CONFIG.MAX_CONCURRENT_BOOKINGS /\ method req = POST /\
     validateBookingRequest (body req) = Some [] /\ throttle_phone (body req) = p).
Proof.
  intros Hc. destruct (run_active_count steps p w Hc) as [H1 H2].
  repeat split; try done. intros env req. apply handler_active_count.
Qed.

Lemma X4_throttle_count_bounds_witness :
  let steps := [(Demo.env, Demo.post [3]); (Demo.env, Demo.post [4]);
                (Demo.env, Demo.post [2])] in
  active_count Demo.phone (activeBookingsMap Demo.w) <=
    active_count Demo.phone (activeBookingsMap (run steps Demo.w)) /\
  active_count Demo.phone (activeBookingsMap (run steps Demo.w)) <=
    CONFIG.MAX_CONCURRENT_BOOKINGS /\
  forall env req,
    let c := active_count Demo.phone (activeBookingsMap Demo.w) in
    let c' := active_count Demo.phone (activeBookingsMap (snd (handler env req Demo.w))) in
    c' = c \/
    (c' = c + 1 /\ c < CONFIG.MAX_CONCURRENT_BOOKINGS /\ method req = POST /\
     validateBookingRequest (body req) = Some [] /\ throttle_phone (body req) = Demo.phone).
Proof.
  apply (X4_throttle_count_bounds
           [(Demo.env, Demo.post [3]); (Demo.env, Demo.post [4]); (Demo.env, Demo.post [2])]
           Demo.w Demo.phone).
  vm_compute. split; discriminate.
Defined.

(** X5.  A phone whose in-flight count has reached the ceiling stays
    locked out: through any run of requests the count stays where it is,
    and every booking of that phone that passes the rate limiter and
    validation is answered 429 without a single Sheets call, the store and
    the count unchanged.  Only the periodic sweep, which empties the
    throttle map, lets the phone in again. *)
Theorem X5_throttle_lockout_until_sweep (steps : list (Env * Request)) (w : World)
    (p : string) :
  active_count p (activeBookingsMap w) = CONFIG.MAX_CONCURRENT_BOOKINGS ->
  let w' := run steps w in
  active_count p (activeBookingsMap w') = CONFIG.MAX_CONCURRENT_BOOKINGS /\
  (forall env req,
      method req = POST -> allowed env req w' ->
      validateBookingRequest (body req) = Some [] ->
      throttle_phone (body req) = p ->
      handler env req w' =
      (respond 429 (Error "Too many concurrent requests. Try again."),
       entered env req w')) /\
  (forall now, checkConcurrentBookings p (activeBookingsMap (sweep now w')) = true).
Proof.
  intros Hc w'.
  assert (active_count p (activeBookingsMap w') = CONFIG.MAX_CONCURRENT_BOOKINGS) as Hc'.
  { destruct (run_active_count steps p w) as [H1 H2].
    - rewrite Hc. unfold CONFIG.MAX_CONCURRENT_BOOKINGS. lia.
    - unfold w'. lia. }
  split; [done|]. split.
  - intros env req Hm Ha Hv Hp. apply handler_throttled; try done.
    rewrite Hp, Hc'. lia.
  - intros now. done.
Qed.

Lemma X5_throttle_lockout_until_sweep_witness :
  let w3 := run [(Demo.env, Demo.post [3]); (Demo.env, Demo.post [3]);
                 (Demo.env, Demo.post [3])] Demo.w in
  let w' := run [(Demo.env, Demo.patch 2 2 Demo.phone); (Demo.env, Demo.listing)] w3 in
  active_count Demo.phone (activeBookingsMap w') = CONFIG.MAX_CONCURRENT_BOOKINGS /\
  (forall env req,
      method req = POST -> allowed env req w' ->
      validateBookingRequest (body req) = Some [] ->
      throttle_phone (body req) = Demo.phone ->
      handler env req w' =
      (respond 429 (Error "Too many concurrent requests. Try again."),
       entered env req w')) /\
  (forall now, checkConcurrentBookings Demo.phone (activeBookingsMap (sweep now w')) = true).
Proof.
  apply (X5_throttle_lockout_until_sweep
           [(Demo.env, Demo.patch 2 2 Demo.phone); (Demo.env, Demo.listing)]
           (run [(Demo.env, Demo.post [3]); (Demo.env, Demo.post [3]);
                 (Demo.env, Demo.post [3])] Demo.w) Demo.phone).
  vm_compute. reflexivity.
Defined.

(** ** The slot cache *)

Lemma handle_listing_hit env w l :
  cache_slots (cache w) = Some l ->
  now_cache_get env - cache_timestamp (cache w) < CONFIG.CACHE_TTL ->
  handle_listing env w = (respond 200 (Dates l), w).
Proof.
  intros Hl Ht. unfold handle_listing, getCachedSlots, cache_TTL. rewrite Hl.
  destruct (_ <? _) eqn:Hlt; [done|]. apply Z.ltb_ge in Hlt. lia.
Qed.

Lemma handle_listing_read env w :
  getCachedSlots (now_cache_get env) (cache w) = None ->
  handle_listing env w =
  if fails env (ValuesGet slots_range)
  then (respond 500 (Error "Slots not available."), log_call (ValuesGet slots_range) w)
  else
    let result :=
      group_slots env (imap slot_of_row (default [] (read_range (store w) slots_range))) in
    (respond 200 (Dates result),
     with_cache (mkCache (Some result) (now_cache_set env))
       (log_call (ValuesGet slots_range) w)).
Proof.
  intros Hc. unfold handle_listing. rewrite Hc. unfold values_get.
  destruct (fails env _); done.
Qed.

(** X6.  Once a listing request has read the Slots sheet, every listing
    request whose clock reading is less than 30000 ms after the reading
    stored with the cache entry gets the very same answer, without any
    Sheets call and without any change to the world beyond the rate
    limiter, whatever the spreadsheet holds by then: an edit made to the
    sheet from outside is not seen before the entry expires. *)
Theorem X6_listing_served_from_cache (env1 env2 : Env) (req1 req2 : Request)
    (w : World) (edited : Store) :
  is_listing req1 -> allowed env1 req1 w ->
  getCachedSlots (now_cache_get env1) (cache w) = None ->
  fails env1 (ValuesGet slots_range) = false ->
  let res1 := handler env1 req1 w in
  let w1 := with_store edited (snd res1) in
  is_listing req2 -> allowed env2 req2 w1 ->
  now_cache_get env2 - now_cache_set env1 < CONFIG.CACHE_TTL ->
  status (fst res1) = 200 /\
  handler env2 req2 w1 = (fst res1, entered env2 req2 w1).
Proof.
  intros [Hm1 Hq1] Ha1 Hmiss Hf res1 w1 [Hm2 Hq2] Ha2 Ht.
  assert (res1 = handle_listing env1 (entered env1 req1 w)) as Hres1
    by (by apply handler_listing).
  rewrite handle_listing_read, Hf in Hres1 by done. cbv zeta in Hres1.
  split; [by rewrite Hres1|].
  rewrite handler_listing by done.
  rewrite (handle_listing_hit env2 (entered env2 req2 w1)
             (group_slots env1 (imap slot_of_row
                (default [] (read_range (store (entered env1 req1 w)) slots_range))))).
  - by rewrite Hres1.
  - unfold w1. by rewrite Hres1.
  - unfold w1. by rewrite Hres1.
Qed.

Lemma X6_listing_served_from_cache_witness :
  let res1 := handler Demo.env Demo.listing Demo.w in
  let w1 := with_store (mkStore Demo.signups []) (snd res1) in
  status (fst res1) = 200 /\
  handler (env_after 10000) Demo.listing w1 =
  (fst res1, entered (env_after 10000) Demo.listing w1).
Proof.
  apply (X6_listing_served_from_cache Demo.env (env_after 10000) Demo.listing Demo.listing
           Demo.w (mkStore Demo.signups [])).
  - split; reflexivity.
  - reflexivity.
  - reflexivity.
  - reflexivity.
  - split; reflexivity.
  - reflexivity.
  - vm_compute. reflexivity.
Defined.

(** X7.  A listing request whose clock reading is 30000 ms or more after
    the reading stored with the cache entry is not answered from the
    cache: it issues one read of the Slots range and nothing else.  When
    the read succeeds the answer is the listing computed from what the
    sheet holds now, and that listing is stored with the time of the
    request; when the read fails the answer is 500 and the cache is left as
    it was.  The spreadsheet is not written. *)
Theorem X7_listing_cache_expires (env : Env) (req : Request) (w : World) :
  is_listing req -> allowed env req w ->
  CONFIG.CACHE_TTL <= now_cache_get env - cache_timestamp (cache w) ->
  let res := handler env req w in
  let fresh :=
    group_slots env (imap slot_of_row (default [] (read_range (store w) slots_range))) in
  log (snd res) = log w ++ [ValuesGet slots_range] /\
  store (snd res) = store w /\
  (fails env (ValuesGet slots_range) = true ->
   fst res = respond 500 (Error "Slots not available.") /\ cache (snd res) = cache w) /\
  (fails env (ValuesGet slots_range) = false ->
   fst res = respond 200 (Dates fresh) /\
   cache (snd res) = mkCache (Some fresh) (now_cache_set env)).
Proof.
  intros [Hm Hq] Ha Ht res fresh. unfold res.
  rewrite handler_listing by done.
  rewrite handle_listing_read.
  - destruct (fails env _); simpl; repeat split; done.
  - change (cache (entered env req w)) with (cache w).
    unfold getCachedSlots, cache_TTL. destruct (cache_slots (cache w)); [|done].
    destruct (_ <? _) eqn:Hlt; [|done]. apply Z.ltb_lt in Hlt. lia.
Qed.

Lemma X7_listing_cache_expires_witness :
  let w1 := snd (handler Demo.env Demo.listing Demo.w) in
  let env := env_after 40000 in
  let res := handler env Demo.listing w1 in
  let fresh :=
    group_slots env (imap slot_of_row (default [] (read_range (store w1) slots_range))) in
  log (snd res) = log w1 ++ [ValuesGet slots_range] /\
  store (snd res) = store w1 /\
  (fails env (ValuesGet slots_range) = true ->
   fst res = respond 500 (Error "Slots not available.") /\ cache (snd res) = cache w1) /\
  (fails env (ValuesGet slots_range) = false ->
   fst res = respond 200 (Dates fresh) /\
   cache (snd res) = mkCache (Some fresh) (now_cache_set env)).
Proof.
  apply (X7_listing_cache_expires (env_after 40000) Demo.listing
           (snd (handler Demo.env Demo.listing Demo.w))).
  - split; reflexivity.
  - reflexivity.
  - vm_compute. discriminate.
Defined.

(** ** Sanitization *)

Lemma all_chars_filter_chars p s : JS.all_chars p (JS.filter_chars p s) = true.
Proof.
  induction s as [|c s IH]; [done|]. simpl.
  destruct (p c) eqn:Hp; simpl; [by rewrite Hp|done].
Qed.

Lemma all_chars_take_chars p n s :
  JS.all_chars p s = true -> JS.all_chars p (JS.take_chars n s) = true.
Proof.
  revert s. induction n as [|n IH]; intros [|c s]; simpl; try done.
  intros [Hc Hs]%andb_prop. by rewrite Hc, IH.
Qed.

Lemma length_take_chars n s :
  (String.length (JS.take_chars n s) <= n)%nat /\
  (String.length (JS.take_chars n s) <= String.length s)%nat.
Proof.
  revert s. induction n as [|n IH]; intros [|c s]; simpl; try lia.
  destruct (IH s). lia.
Qed.

Lemma length_filter_chars p s :
  (String.length (JS.filter_chars p s) <= String.length s)%nat.
Proof.
  induction s as [|c s IH]; [done|]. simpl. destruct (p c); simpl; lia.
Qed.

Lemma lower_char_no_angle c :
  negb (Ascii.eqb c "<" || Ascii.eqb c ">") = true ->
  negb (Ascii.eqb (JS.lower_char c) "<" || Ascii.eqb (JS.lower_char c) ">") = true.
Proof. destruct c as [[] [] [] [] [] [] [] []]; vm_compute; done. Qed.

Lemma no_angle_toLowerCase s : no_angle s = true -> no_angle (JS.toLowerCase s) = true.
Proof.
  unfold no_angle, JS.toLowerCase. induction s as [|c s IH]; [done|].
  cbn [JS.all_chars JS.map_chars]. intros [Hc Hs]%andb_prop.
  by rewrite lower_char_no_angle, IH.
Qed.

Lemma sanitizeInput_output (o : option string) (n : Z) :
  no_angle (sanitizeInput o n) = true /\
  JS.len (sanitizeInput o n) <= Z.max 0 n /\
  JS.len (sanitizeInput o n) <= JS.len (default "" o).
Proof.
  unfold sanitizeInput, no_angle, JS.len.
  destruct o as [s|]; [|simpl; lia].
  destruct (JS.is_empty s); [simpl; lia|].
  unfold JS.substring0. split; [|split].
  - apply all_chars_take_chars, all_chars_filter_chars.
  - match goal with |- context [JS.take_chars ?k ?t] =>
      destruct (length_take_chars k t) as [H _] end. lia.
  - match goal with |- context [JS.take_chars ?k ?t] =>
      destruct (length_take_chars k t) as [_ H] end.
    match type of H with (_ <= String.length (JS.filter_chars ?p ?t))%nat =>
      pose proof (length_filter_chars p t) as H1 end.
    unfold JS.trim in *.
    pose proof (length_trimEnd (JS.trimStart s)). pose proof (length_trimStart s).
    change (default "" (Some s)) with s. lia.
Qed.

(** X8.  Whatever text it is given, and whether or not the text was
    validated, [sanitizeInput] returns a text without angle brackets, no
    longer than its input and no longer than the limit it is given.  So,
    for every request body, the name, the phone, the category and the
    notes a booking stores hold no angle bracket and are within 100, 20,
    20 and 500 characters.  The stored e-mail holds no angle bracket
    either; it is the lower-casing of a text of at most 254 characters:
    the cut is made before the lower-casing, so the limit bounds the text
    that is lower-cased, not the stored e-mail. *)
Theorem X8_sanitized_fields_are_bounded (b : Body) (o : option string) (n : Z) :
  (no_angle (sanitizeInput o n) = true /\
   JS.len (sanitizeInput o n) <= Z.max 0 n /\
   JS.len (sanitizeInput o n) <= JS.len (default "" o)) /\
  let f := fields_of b in
  (no_angle (f_name f) = true /\ JS.len (f_name f) <= 100) /\
  (no_angle (f_phone f) = true /\ JS.len (f_phone f) <= 20) /\
  (no_angle (f_email f) = true /\
   exists e, f_email f = JS.toLowerCase e /\ no_angle e = true /\ JS.len e <= 254) /\
  (no_angle (f_category f) = true /\ JS.len (f_category f) <= 20) /\
  (no_angle (f_notes f) = true /\ JS.len (f_notes f) <= 500).
Proof.
  split; [apply sanitizeInput_output|]. intros f. unfold f, fields_of.
  cbn [f_name f_phone f_email f_category f_notes].
  pose proof (sanitizeInput_output (b_name b) CONFIG.MAX_NAME_LENGTH) as (? & ? & _).
  pose proof (sanitizeInput_output (b_phone b) CONFIG.MAX_PHONE_LENGTH) as (? & ? & _).
  pose proof (sanitizeInput_output (b_email b) CONFIG.MAX_EMAIL_LENGTH) as (? & ? & _).
  pose proof (sanitizeInput_output (b_category b) CONFIG.MAX_CATEGORY_LENGTH) as (? & ? & _).
  pose proof (sanitizeInput_output (b_notes b) CONFIG.MAX_NOTES_LENGTH) as (? & ? & _).
  unfold CONFIG.MAX_NAME_LENGTH, CONFIG.MAX_PHONE_LENGTH, CONFIG.MAX_EMAIL_LENGTH,
    CONFIG.MAX_CATEGORY_LENGTH, CONFIG.MAX_NOTES_LENGTH in *.
  repeat split; try done; try lia.
  - by apply no_angle_toLowerCase.
  - eexists. split; [reflexivity|]. split; [done | lia].
Qed.

(** ** Grouping the listing by date *)

Lemma group_push_keys (g : Listing) s k :
  k ∈ g.*1 -> k ∈ (group_push g s).*1.
Proof.
  induction g as [|[d l] g IH]; simpl; [by intros ?%elem_of_nil|].
  destruct (String.eqb d (slot_date s)); simpl; [done|].
  rewrite !elem_of_cons. intros [->|H]; [by left | right; by apply IH].
Qed.

Lemma group_push_key (g : Listing) s : slot_date s ∈ (group_push g s).*1.
Proof.
  induction g as [|[d l] g IH]; simpl; [apply list_elem_of_here|].
  destruct (String.eqb d (slot_date s)) eqn:He; simpl.
  - apply String.eqb_eq in He. subst. apply list_elem_of_here.
  - by apply list_elem_of_further.
Qed.

Lemma group_push_keys_inv (g : Listing) s k :
  k ∈ (group_push g s).*1 -> k ∈ g.*1 \/ k = slot_date s.
Proof.
  induction g as [|[d l] g IH]; simpl.
  - rewrite elem_of_cons. intros [->|?%elem_of_nil]; [by right | done].
  - destruct (String.eqb d (slot_date s)); simpl; [by left|].
    rewrite !elem_of_cons. intros [->|H]; [by left; left|].
    destruct (IH H); [left; by right | by right].
Qed.

Lemma group_push_NoDup (g : Listing) s : NoDup (g.*1) -> NoDup ((group_push g s).*1).
Proof.
  induction g as [|[d l] g IH]; simpl.
  - intros _. apply NoDup_singleton.
  - rewrite NoDup_cons. intros [Hd Hg].
    destruct (String.eqb d (slot_date s)) eqn:He; simpl.
    + by apply NoDup_cons.
    + apply NoDup_cons. split; [|by apply IH].
      intros [H | ->]%group_push_keys_inv; [done|].
      by rewrite String.eqb_refl in He.
Qed.

Lemma group_push_elem (g : Listing) s d l :
  NoDup (g.*1) -> (d, l) ∈ group_push g s ->
  (d <> slot_date s /\ (d, l) ∈ g) \/
  (d = slot_date s /\
   ((exists l0, (d, l0) ∈ g /\ l = l0 ++ [s]) \/ ((d ∉ g.*1) /\ l = [s]))).
Proof.
  induction g as [|[d0 l0] g IH]; simpl.
  - intros _. rewrite elem_of_cons. intros [[= -> ->] | ?%elem_of_nil]; [|done].
    right. split; [done|]. right. split; [apply not_elem_of_nil | done].
  - rewrite NoDup_cons. intros [Hd Hg].
    destruct (String.eqb d0 (slot_date s)) eqn:He.
    + apply String.eqb_eq in He. subst d0.
      rewrite elem_of_cons. intros [[= -> ->] | Hin].
      * right. split; [done|]. left. exists l0. split; [apply list_elem_of_here | done].
      * left. split; [|by apply list_elem_of_further].
        intros ->. apply Hd. apply list_elem_of_fmap. by exists (slot_date s, l).
    + apply String.eqb_neq in He.
      rewrite elem_of_cons. intros [[= -> ->] | Hin].
      * left. split; [done | apply list_elem_of_here].
      * destruct (IH Hg Hin) as [[Hne Hg'] | [-> [[l1 [Hl1 ->]] | [Hnk ->]]]].
        -- left. split; [done | by apply list_elem_of_further].
        -- right. split; [done|]. left. exists l1. split; [by apply list_elem_of_further | done].
        -- right. split; [done|]. right. split; [|done].
           rewrite not_elem_of_cons. split; [congruence | done].
Qed.

Lemma grouped_ok_step env g seen s :
  grouped_ok env g seen ->
  grouped_ok env (if slot_listed env s then group_push g s else g) (seen ++ [s]).
Proof.
  intros (Hnd & Hgr & Hall). destruct (slot_listed env s) eqn:Hs.
  - split; [by apply group_push_NoDup|]. split.
    + intros d l Hin. unfold listed_under. rewrite filter_app.
      destruct (group_push_elem g s d l Hnd Hin)
        as [[Hne Hg] | [-> [[l0 [Hl0 ->]] | [Hnk ->]]]].
      * destruct (Hgr d l Hg) as [Hl ->]. split; [done|].
        rewrite (filter_cons_False _ s) by (intros [_ ?]; congruence).
        by rewrite filter_nil, app_nil_r.
      * destruct (Hgr _ _ Hl0) as [_ ->]. split; [by destruct (listed_under _ _ _)|].
        rewrite (filter_cons_True _ s) by done. by rewrite filter_nil.
      * split; [done|].
        rewrite (filter_cons_True _ s) by done. rewrite filter_nil.
        rewrite filter_none; [done|].
        apply Forall_forall. intros s' Hs' [Hl Hd]. apply Hnk. rewrite <- Hd. by apply Hall.
    + intros s' [Hs' | ->%list_elem_of_singleton]%elem_of_app Hl.
      * apply group_push_keys. by apply Hall.
      * apply group_push_key.
  - split; [done|]. split.
    + intros d l Hin. destruct (Hgr d l Hin) as [Hl ->]. split; [done|].
      unfold listed_under. rewrite filter_app.
      rewrite (filter_cons_False _ s) by (intros [? _]; congruence).
      by rewrite filter_nil, app_nil_r.
    + intros s' [Hs' | ->%list_elem_of_singleton]%elem_of_app Hl; [by apply Hall | congruence].
Qed.

Lemma grouped_ok_fold env slots :
  forall g seen,
    grouped_ok env g seen ->
    grouped_ok env
      (fold_left (fun grouped slot =>
                    if slot_listed env slot then group_push grouped slot else grouped)
                 slots g)
      (seen ++ slots).
Proof.
  induction slots as [|s slots IH]; intros g seen Hok; simpl.
  - by rewrite app_nil_r.
  - rewrite (cons_middle s seen slots), app_assoc. apply IH. by apply grouped_ok_step.
Qed.

(** X9.  The listing groups the slots by their date text: no date occurs
    twice among the groups; the group of a date holds exactly the slots of
    that date that are shown (a date that parses to today or later and a
    capacity above zero), in sheet order, and is never empty; and every
    slot that is shown is in the group of its date, whether or not it has
    seats left. *)
Theorem X9_listing_groups_by_date (env : Env) (slots : list Slot) :
  NoDup ((group_slots env slots).*1) /\
  (forall d l, (d, l) ∈ group_slots env slots ->
               l <> [] /\ l = listed_under env d slots) /\
  (forall s, s ∈ slots -> slot_listed env s = true ->
             (slot_date s, listed_under env (slot_date s) slots) ∈ group_slots env slots /\
             s ∈ listed_under env (slot_date s) slots).
Proof.
  destruct (grouped_ok_fold env slots [] []) as (Hnd & Hgr & Hall).
  { split; [apply NoDup_nil_2|]. split; [by intros ?? ?%elem_of_nil | by intros ? ?%elem_of_nil]. }
  simpl in *. fold (group_slots env slots) in *.
  split; [done|]. split; [done|].
  intros s Hs Hl. split.
  - specialize (Hall s Hs Hl). apply list_elem_of_fmap in Hall as [[d l] [Hd Hin]].
    simpl in Hd. subst d. by destruct (Hgr _ _ Hin) as [_ <-].
  - unfold listed_under. by apply list_elem_of_filter.
Qed.

(** ** Lookup by phone *)

Lemma handler_lookup env req w :
  is_lookup req -> allowed env req w ->
  handler env req w = handle_lookup env (query_phone req) (entered env req w).
Proof.
  unfold handler, allowed, entered. intros [-> Hq] Hadm.
  destruct (checkRateLimit _ _ _) as [[] rl]; simpl in *; [|done].
  by rewrite Hq.
Qed.

Lemma handle_lookup_spec env q w :
  handle_lookup env q w =
  let phone := sanitizeInput q CONFIG.MAX_PHONE_LENGTH in
  if negb (isValidPhone (Some phone))
  then (respond 400 (Error "Invalid phone number format."), w)
  else if fails env (ValuesGet signups_range)
  then (respond 500 (Error "Failed to fetch bookings."), log_call (ValuesGet signups_range) w)
  else (respond 200 (Bookings (lookup_bookings (store w) phone)),
        log_call (ValuesGet signups_range) w).
Proof.
  unfold handle_lookup, values_get. cbv zeta.
  destruct (negb _); [done|]. destruct (fails env _); [done|].
  by rewrite read_signups_range.
Qed.

Lemma existing_of_lookup st i (x : list string) :
  existing_of st !! i = Some x ->
  exists r : list string, signups_grid st !! S i = Some r /\ x = row_view 0 9 r.
Proof.
  rewrite existing_of_rows. intros H%strip_trailing_lookup_Some.
  rewrite list_lookup_fmap in H. rewrite lookup_drop in H.
  destruct (signups_grid st !! (1 + i)%nat) as [r|] eqn:Hr; [|done].
  exists r. split; [done|]. simpl in H. congruence.
Qed.

Lemma existing_of_keep st i (r : list string) :
  signups_grid st !! S i = Some r -> row_view 0 9 r <> [] ->
  existing_of st !! i = Some (row_view 0 9 r).
Proof.
  intros Hr Hne. rewrite existing_of_rows. apply strip_trailing_keep.
  - rewrite list_lookup_fmap, lookup_drop. change (1 + i)%nat with (S i). by rewrite Hr.
  - by destruct (row_view 0 9 r).
Qed.

Lemma row_index_data n : 2 <= n -> row_index n = S (Z.to_nat (n - 2)).
Proof. unfold row_index. lia. Qed.

Lemma row_view_cell (r : list string) c :
  (c <= 9)%nat -> content (row_view 0 9 r !! c) = content (r !! c).
Proof. intros Hc. by rewrite (row_view_content 0 9 r c) by lia. Qed.

(** When a row read from the Signups range is one a lookup keeps. *)
Lemma lookup_keeps (r : list string) i phone :
  phone <> "" ->
  (JS.trim <$> bk_phone (booking_of_row i (row_view 0 9 r)) = Some phone /\
   bk_status (booking_of_row i (row_view 0 9 r)) = "ACTIVE") <->
  (JS.trim (content (r !! SIGNUPS.PHONE)) = phone /\
   (content (r !! SIGNUPS.STATUS) = "" \/ content (r !! SIGNUPS.STATUS) = "ACTIVE")).
Proof.
  intros Hp. unfold booking_of_row. cbn [bk_phone bk_status].
  rewrite trim_is_content by done.
  rewrite (row_view_cell r SIGNUPS.PHONE) by (unfold SIGNUPS.PHONE; lia).
  rewrite or_str_content.
  rewrite (row_view_cell r SIGNUPS.STATUS) by (unfold SIGNUPS.STATUS; lia).
  unfold JS.or_str. destruct (content (r !! SIGNUPS.STATUS)) eqn:Hs; simpl.
  - split; intros [? _]; split; auto.
  - split; intros [? H]; split; try done.
    + by right.
    + by destruct H.
Qed.

Lemma lookup_bookings_elem st phone bk :
  phone <> "" ->
  bk ∈ lookup_bookings st phone <->
  exists n, lists_row st phone n /\ bk = booking_at st n.
Proof.
  intros Hp. unfold lookup_bookings. rewrite list_elem_of_filter, elem_of_lookup_imap.
  split.
  - intros [Hkeep (i & x & -> & Hx)].
    destruct (existing_of_lookup st i x Hx) as (r & Hr & ->).
    apply lookup_keeps in Hkeep as [Hph Hst]; [|done].
    exists (Z.of_nat i + 2). unfold lists_row, booking_at, signup_view, stored_phone, stored_status.
    rewrite row_index_data by lia.
    replace (Z.to_nat (Z.of_nat i + 2 - 2)) with i by lia.
    rewrite !(cell_at_row _ _ _ r) by done. rewrite Hr. simpl.
    repeat split; try done. lia.
  - intros (n & (Hn & Hph & Hst) & ->).
    unfold booking_at, signup_view, stored_phone, stored_status in *.
    rewrite row_index_data in * by done.
    destruct (signups_grid st !! S (Z.to_nat (n - 2))) as [r|] eqn:Hr.
    + rewrite !(cell_at_row _ _ _ r) in * by done.
      change (default [] (Some r)) with r.
      split; [by apply (lookup_keeps r _ phone Hp)|].
      exists (Z.to_nat (n - 2)), (row_view 0 9 r). split; [done|].
      apply existing_of_keep; [done|].
      intros Hnil. rewrite row_view_nil in Hnil.
      specialize (Hnil SIGNUPS.PHONE ltac:(unfold SIGNUPS.PHONE; lia)). simpl in Hnil.
      rewrite Hnil in Hph. by subst.
    + rewrite cell_at_no_row in Hph by done. by subst.
Qed.

Lemma booking_at_row st n : 2 <= n -> bk_signupRowId (booking_at st n) = n.
Proof. intros Hn. unfold booking_at, booking_of_row. simpl. lia. Qed.

Lemma valid_phone_nonempty p : isValidPhone (Some p) = true -> p <> "".
Proof. by intros H ->. Qed.

(** X10.  A lookup by phone reads and never writes: the store, the cache
    and the throttle are left as they were.  A query whose sanitized phone
    is not a valid phone is answered 400 without any Sheets call.
    Otherwise the Signups range is read once; if the read fails the answer
    is 500; if not, the answer is 200 with exactly the bookings of the data
    rows (row 2 on) whose phone cell, trimmed, is the sanitized phone of
    the query and whose status cell is empty or exactly [ACTIVE], each
    reported under its sheet row number. *)
Theorem X10_lookup_lists_active_signups (env : Env) (req : Request) (w : World) :
  is_lookup req -> allowed env req w ->
  let phone := lookup_phone req in
  let res := handler env req w in
  (store (snd res) = store w /\ cache (snd res) = cache w /\
   activeBookingsMap (snd res) = activeBookingsMap w /\
   writes (log (snd res)) = writes (log w)) /\
  (isValidPhone (Some phone) = false ->
   res = (respond 400 (Error "Invalid phone number format."), entered env req w)) /\
  (isValidPhone (Some phone) = true ->
   log (snd res) = log w ++ [ValuesGet signups_range] /\
   (fails env (ValuesGet signups_range) = true ->
    fst res = respond 500 (Error "Failed to fetch bookings.")) /\
   (fails env (ValuesGet signups_range) = false ->
    exists bs,
      fst res = respond 200 (Bookings bs) /\
      forall bk, bk ∈ bs <->
                 exists n, lists_row (store w) phone n /\ bk = booking_at (store w) n /\
                           bk_signupRowId bk = n)).
Proof.
  intros Hl Ha phone res. unfold res. rewrite handler_lookup by done.
  split.
  - destruct (handle_lookup_frame env (query_phone req) (entered env req w))
      as (_ & ? & ? & ?).
    by rewrite handle_lookup_store.
  - rewrite handle_lookup_spec. cbv zeta. fold (lookup_phone req). fold phone.
    split.
    + by intros ->.
    + intros Hv. rewrite Hv. simpl negb. cbv iota.
      destruct (fails env _); (split; [done|]); split; try done.
      intros _. eexists. split; [done|]. intros bk.
      change (store (entered env req w)) with (store w).
      rewrite lookup_bookings_elem by (by apply valid_phone_nonempty).
      split.
      * intros (n & Hn & ->). exists n. split; [done|]. split; [done|].
        apply booking_at_row, Hn.
      * intros (n & Hn & -> & _). by exists n.
Qed.

Lemma X10_lookup_lists_active_signups_witness :
  let req := {| method := GET; x_forwarded_for := None; x_real_ip := None;
                query_phone := Some " 5551234567 "; body := Demo.booking_body None |} in
  let phone := lookup_phone req in
  let res := handler Demo.env req Demo.w in
  (store (snd res) = store Demo.w /\ cache (snd res) = cache Demo.w /\
   activeBookingsMap (snd res) = activeBookingsMap Demo.w /\
   writes (log (snd res)) = writes (log Demo.w)) /\
  (isValidPhone (Some phone) = false ->
   res = (respond 400 (Error "Invalid phone number format."),
          entered Demo.env req Demo.w)) /\
  (isValidPhone (Some phone) = true ->
   log (snd res) = log Demo.w ++ [ValuesGet signups_range] /\
   (fails Demo.env (ValuesGet signups_range) = true ->
    fst res = respond 500 (Error "Failed to fetch bookings.")) /\
   (fails Demo.env (ValuesGet signups_range) = false ->
    exists bs,
      fst res = respond 200 (Bookings bs) /\
      forall bk, bk ∈ bs <->
                 exists n, lists_row (store Demo.w) phone n /\
                           bk = booking_at (store Demo.w) n /\
                           bk_signupRowId bk = n)).
Proof.
  apply (X10_lookup_lists_active_signups Demo.env
           {| method := GET; x_forwarded_for := None; x_real_ip := None;
              query_phone := Some " 5551234567 "; body := Demo.booking_body None |} Demo.w).
  - split; reflexivity.
  - reflexivity.
Defined.

(** X11.  Booking validates the phone as it was sent, lookup validates
    the phone after sanitization.  So a booking request whose phone passes
    validation (8 to 20 characters) but is shorter than 8 characters once
    trimmed is accepted and stored under the trimmed phone, and no lookup
    can show it: every lookup whose sanitized phone is that stored phone is
    answered 400 without reading the sheet. *)
Theorem X11_short_phone_cannot_be_looked_up (env : Env) (req : Request) (w : World)
    (b : Body) (p : string) :
  validateBookingRequest b = Some [] ->
  b_phone b = Some p ->
  JS.len (JS.trim p) < 8 ->
  is_lookup req -> allowed env req w ->
  lookup_phone req = throttle_phone b ->
  throttle_phone b = JS.trim p /\
  handler env req w =
  (respond 400 (Error "Invalid phone number format."), entered env req w).
Proof.
  intros Hv Hp Hlen Hl Ha Hq.
  destruct (validate_ok b Hv) as (ids & p' & _ & _ & _ & _ & Hp' & Hvalid & _).
  assert (p' = p) as -> by congruence.
  assert (throttle_phone b = JS.trim p) as Htp.
  { unfold throttle_phone, fields_of. cbn [f_phone]. rewrite Hp.
    by apply sanitize_valid_phone. }
  split; [done|].
  rewrite handler_lookup by done. rewrite handle_lookup_spec. cbv zeta.
  fold (lookup_phone req). rewrite Hq, Htp.
  assert (isValidPhone (Some (JS.trim p)) = false) as ->; [|done].
  unfold isValidPhone. destruct (JS.is_empty _); [done|].
  destruct (8 <=? JS.len (JS.trim p)) eqn:H8; [apply Z.leb_le in H8; lia|].
  by rewrite andb_false_r.
Qed.

Lemma X11_short_phone_cannot_be_looked_up_witness :
  let b := {| b_name := Some "Al"; b_phone := Some "  12345   "; b_email := None;
              b_category := Some "Adult"; b_notes := None; b_slotIds := Some [IntV 4];
              b_signupRowId := None; b_slotRowId := None |} in
  let req := {| method := GET; x_forwarded_for := None; x_real_ip := None;
                query_phone := Some "  12345   "; body := Demo.booking_body None |} in
  let w1 := snd (handler Demo.env (Demo.request POST b) Demo.w) in
  throttle_phone b = JS.trim "  12345   " /\
  handler Demo.env req w1 =
  (respond 400 (Error "Invalid phone number format."), entered Demo.env req w1).
Proof.
  apply (X11_short_phone_cannot_be_looked_up Demo.env
           {| method := GET; x_forwarded_for := None; x_real_ip := None;
              query_phone := Some "  12345   "; body := Demo.booking_body None |}
           (snd (handler Demo.env
                   (Demo.request POST
                      {| b_name := Some "Al"; b_phone := Some "  12345   "; b_email := None;
                         b_category := Some "Adult"; b_notes := None;
                         b_slotIds := Some [IntV 4];
                         b_signupRowId := None; b_slotRowId := None |}) Demo.w))
           {| b_name := Some "Al"; b_phone := Some "  12345   "; b_email := None;
              b_category := Some "Adult"; b_notes := None; b_slotIds := Some [IntV 4];
              b_signupRowId := None; b_slotRowId := None |}
           "  12345   ").
  - reflexivity.
  - reflexivity.
  - vm_compute. reflexivity.
  - split; reflexivity.
  - reflexivity.
  - reflexivity.
Defined.

(** ** A booking and its lookup *)

Lemma booked_row env f st ids k id :
  has_header st -> ids !! k = Some id ->
  let n := Z.of_nat (length (strip_trailing row_blank (signups_grid st)) + k) + 1 in
  2 <= n /\
  signups_grid (booked_store env f st ids) !! row_index n = Some (appended_row env f st id).
Proof.
  intros Hh Hk n. destruct (header_kept st Hh) as (h & t & Hs).
  unfold n, row_index. rewrite Hs. simpl length. split; [lia|].
  simpl signups_grid. unfold append_rows. rewrite Hs.
  replace (Z.to_nat (Z.of_nat (S (length t) + k) + 1 - 1)) with (length (h :: t) + k)%nat
    by (simpl; lia).
  rewrite lookup_app_r by lia.
  replace (length (h :: t) + k - length (h :: t))%nat with k by lia.
  by rewrite list_lookup_fmap, Hk.
Qed.

Lemma row_view_appended env f st id :
  row_view 0 9 (appended_row env f st id) = appended_row env f st id.
Proof.
  unfold row_view, appended_row, signup_row.
  cbn [fmap list_fmap take drop strip_trailing is_nil].
  rewrite !andb_false_r. done.
Qed.

Lemma booking_of_appended env f st id i :
  id <> 0 ->
  let bk := booking_of_row i (appended_row env f st id) in
  bk_signupRowId bk = Z.of_nat i + 2 /\
  bk_timestamp bk = Some (nowStr env) /\
  bk_name bk = Some (f_name f) /\
  bk_email bk = Some (f_email f) /\
  bk_phone bk = Some (f_phone f) /\
  bk_category bk = Some (f_category f) /\
  bk_notes bk = Some (f_notes f) /\
  bk_slotRowId bk = Some id /\
  bk_status bk = "ACTIVE".
Proof.
  intros Hid bk. unfold bk, booking_of_row, appended_row, signup_row.
  cbn [bk_signupRowId bk_timestamp bk_name bk_email bk_phone bk_category bk_notes
       bk_slotRowId bk_status].
  repeat split.
  change ((String_of <$> _) !! SIGNUPS.SLOT_ROW_ID) with (Some (JS.toString id)).
  simpl JS.parseInt. rewrite parseInt_toString. by destruct id.
Qed.

(** X12.  A booking that is answered 200 can be looked up: when the
    Signups sheet has its header row and the stored phone is a valid phone
    (8 characters or more), a lookup whose sanitized phone is the stored
    phone, made right after the booking and with the read succeeding, is
    answered 200 with, for every booked slot, a booking that carries that
    slot's row number, the sanitized fields of the request, the time stamp
    of the booking and the status [ACTIVE]. *)
Theorem X12_booked_slots_can_be_looked_up (env1 env2 : Env) (req1 req2 : Request)
    (w : World) :
  method req1 = POST ->
  status (fst (handler env1 req1 w)) = 200 ->
  has_header (store w) ->
  let f := fields_of (body req1) in
  let w1 := snd (handler env1 req1 w) in
  isValidPhone (Some (f_phone f)) = true ->
  is_lookup req2 -> allowed env2 req2 w1 ->
  lookup_phone req2 = f_phone f ->
  fails env2 (ValuesGet signups_range) = false ->
  exists bs,
    fst (handler env2 req2 w1) = respond 200 (Bookings bs) /\
    forall id, id ∈ ids_of (body req1) ->
      exists bk, bk ∈ bs /\
        bk_slotRowId bk = Some id /\
        bk_timestamp bk = Some (nowStr env1) /\
        bk_name bk = Some (f_name f) /\
        bk_email bk = Some (f_email f) /\
        bk_phone bk = Some (f_phone f) /\
        bk_category bk = Some (f_category f) /\
        bk_notes bk = Some (f_notes f) /\
        bk_status bk = "ACTIVE".
Proof.
  intros Hm H200 Hh f w1 Hvalid Hl Ha Hq Hf.
  destruct (handler_store env1 req1 w) as [[_ Hn] | [(_ & _ & Hv & _ & Hst) | (Hp & _)]];
    [by destruct Hn; [left|] | | congruence].
  fold w1 f in Hst.
  destruct (validated_request _ Hv) as (Hids & _ & Hne & Htrim).
  change (throttle_phone (body req1)) with (f_phone f) in *.
  rewrite handler_lookup by done. rewrite handle_lookup_spec. cbv zeta.
  fold (lookup_phone req2). rewrite Hq, Hvalid, Hf. simpl negb. cbv iota.
  eexists. split; [done|]. intros id Hid.
  change (store (entered env2 req2 w1)) with (store w1). rewrite Hst.
  apply list_elem_of_lookup in Hid as [k Hk].
  destruct (booked_row env1 f (store w) _ k id Hh Hk) as [Hn Hrow].
  set (n := Z.of_nat (length (strip_trailing row_blank (signups_grid (store w))) + k) + 1) in *.
  assert (1 <= id) as Hid1.
  { rewrite Forall_forall in Hids. apply Hids. by eapply list_elem_of_lookup_2. }
  exists (booking_at (booked_store env1 f (store w) (ids_of (body req1))) n).
  assert (booking_at (booked_store env1 f (store w) (ids_of (body req1))) n =
          booking_of_row (Z.to_nat (n - 2)) (appended_row env1 f (store w) id)) as Hbk.
  { unfold booking_at, signup_view. rewrite Hrow.
    change (default [] (Some ?r)) with r. by rewrite row_view_appended. }
  split.
  - apply lookup_bookings_elem; [done|]. exists n. split; [|done].
    unfold lists_row, stored_phone, stored_status.
    rewrite !(cell_at_row _ _ _ _ Hrow).
    split; [done|]. split; [exact Htrim | by right].
  - rewrite Hbk.
    destruct (booking_of_appended env1 f (store w) id (Z.to_nat (n - 2)))
      as (_ & ? & ? & ? & ? & ? & ? & ? & ?); [lia|]. done.
Qed.

Lemma X12_booked_slots_can_be_looked_up_witness :
  let req2 := {| method := GET; x_forwarded_for := None; x_real_ip := None;
                 query_phone := Some Demo.phone; body := Demo.booking_body None |} in
  let f := fields_of (body (Demo.post [4; 5])) in
  let w1 := snd (handler Demo.env (Demo.post [4; 5]) Demo.w) in
  exists bs,
    fst (handler Demo.env req2 w1) = respond 200 (Bookings bs) /\
    forall id, id ∈ ids_of (body (Demo.post [4; 5])) ->
      exists bk, bk ∈ bs /\
        bk_slotRowId bk = Some id /\
        bk_timestamp bk = Some (nowStr Demo.env) /\
        bk_name bk = Some (f_name f) /\
        bk_email bk = Some (f_email f) /\
        bk_phone bk = Some (f_phone f) /\
        bk_category bk = Some (f_category f) /\
        bk_notes bk = Some (f_notes f) /\
        bk_status bk = "ACTIVE".
Proof.
  apply (X12_booked_slots_can_be_looked_up Demo.env Demo.env (Demo.post [4; 5])
           {| method := GET; x_forwarded_for := None; x_real_ip := None;
              query_phone := Some Demo.phone; body := Demo.booking_body None |} Demo.w).
  - reflexivity.
  - vm_compute. reflexivity.
  - vm_compute. reflexivity.
  - reflexivity.
  - split; reflexivity.
  - reflexivity.
  - reflexivity.
  - reflexivity.
Defined.

(** ** A cancellation and the lookups around it *)

Lemma set_cell_other_row (g : list (list string)) r c v i :
  i <> r -> default [] (set_cell g r c v !! i) = default [] (g !! i).
Proof.
  intros Hne. unfold set_cell. rewrite list_lookup_insert_ne by done.
  apply pad_to_default.
Qed.

Lemma cancelled_status_not_active ts :
  "CANCELLED:" +:+ ts <> "" /\ "CANCELLED:" +:+ ts <> "ACTIVE".
Proof. split; discriminate. Qed.

Lemma lists_row_cancelled env st sid tid phone n :
  1 <= sid ->
  lists_row (cancelled_store env st sid tid) phone n <-> lists_row st phone n /\ n <> sid.
Proof.
  intros Hsid. unfold lists_row, stored_phone, stored_status. simpl signups_grid.
  rewrite !cell_at_set_cell.
  rewrite (decide_False (P := _ /\ SIGNUPS.PHONE = SIGNUPS.STATUS)) by (by intros [_ ?]).
  destruct (decide (n = sid)) as [->|Hne].
  - rewrite decide_True by done.
    destruct (cancelled_status_not_active (isoNow env)) as [H1 H2].
    split; [intros (_ & _ & [?|?]); done | intros [_ ?]; done].
  - split.
    + intros (Hn & Hp & Hs). case_decide as Hd; [|done].
      destruct Hd as [Hd _]. unfold row_index in Hd. lia.
    + intros [(Hn & Hp & Hs) _]. case_decide as Hd; [|done].
      destruct Hd as [Hd _]. unfold row_index in Hd. lia.
Qed.

Lemma booking_at_cancelled env st sid tid n :
  1 <= sid -> 2 <= n -> n <> sid ->
  booking_at (cancelled_store env st sid tid) n = booking_at st n.
Proof.
  intros Hsid Hn Hne. unfold booking_at, signup_view. simpl signups_grid.
  rewrite set_cell_other_row; [done|]. unfold row_index. lia.
Qed.

Lemma lookup_bookings_cancelled env st sid tid phone bk :
  1 <= sid -> phone <> "" ->
  bk ∈ lookup_bookings (cancelled_store env st sid tid) phone <->
  bk ∈ lookup_bookings st phone /\ bk_signupRowId bk <> sid.
Proof.
  intros Hsid Hp. rewrite !lookup_bookings_elem by done. split.
  - intros (n & [Hl Hne]%lists_row_cancelled & ->); [|done].
    assert (2 <= n) as Hn by apply Hl.
    rewrite booking_at_cancelled by done. split; [by exists n|].
    by rewrite booking_at_row.
  - intros [(n & Hl & ->) Hne].
    assert (2 <= n) as Hn by apply Hl.
    rewrite booking_at_row in Hne by done.
    exists n. split; [by apply lists_row_cancelled | by rewrite booking_at_cancelled].
Qed.

(** X13.  After a cancellation that is answered 200, the booking of the
    cancelled signup row is gone from every lookup, and nothing else
    changes in any lookup: a lookup of any valid phone made after the
    cancellation returns exactly the bookings the same lookup returned
    before it, less the one of the cancelled row. *)
Theorem X13_cancelled_booking_leaves_lookup (env1 env2 : Env) (req : Request)
    (q : option string) (w : World) (sid : Z) :
  method req = PATCH ->
  status (fst (handler env1 req w)) = 200 ->
  b_signupRowId (body req) = Some sid ->
  isValidPhone (Some (sanitizeInput q CONFIG.MAX_PHONE_LENGTH)) = true ->
  fails env2 (ValuesGet signups_range) = false ->
  let w1 := snd (handler env1 req w) in
  exists before after,
    fst (handle_lookup env2 q w) = respond 200 (Bookings before) /\
    fst (handle_lookup env2 q w1) = respond 200 (Bookings after) /\
    forall bk, bk ∈ after <-> bk ∈ before /\ bk_signupRowId bk <> sid.
Proof.
  intros Hm H200 Hsid Hv Hf w1.
  destruct (handler_store env1 req w)
    as [[_ Hn] | [(Hp & _) | (_ & _ & sid' & tid & phone & Hpar & Hs & Ht & Hph & Hst)]];
    [by destruct Hn; [right|] | congruence |].
  assert (sid' = sid) as -> by (destruct Hpar as (? & _); congruence).
  rewrite !handle_lookup_spec. cbv zeta. rewrite Hv, Hf. simpl negb. cbv iota.
  eexists _, _. split; [done|]. split; [done|].
  intros bk. fold w1 in Hst. rewrite Hst.
  apply lookup_bookings_cancelled; [done|]. by apply valid_phone_nonempty.
Qed.

Lemma X13_cancelled_booking_leaves_lookup_witness :
  let w1 := snd (handler Demo.env (Demo.patch 2 2 Demo.phone) Demo.w) in
  exists before after,
    fst (handle_lookup Demo.env (Some Demo.phone) Demo.w) = respond 200 (Bookings before) /\
    fst (handle_lookup Demo.env (Some Demo.phone) w1) = respond 200 (Bookings after) /\
    forall bk, bk ∈ after <-> bk ∈ before /\ bk_signupRowId bk <> 2.
Proof.
  apply (X13_cancelled_booking_leaves_lookup Demo.env Demo.env
           (Demo.patch 2 2 Demo.phone) (Some Demo.phone) Demo.w 2).
  - reflexivity.
  - vm_compute. reflexivity.
  - reflexivity.
  - reflexivity.
  - reflexivity.
Defined.

Lemma apply_cancel_directives env st sid tid newTaken :
  1 <= sid -> 1 <= tid ->
  apply_batch st (cancel_directives env sid tid newTaken) =
  Some (mkStore
          (set_cell (signups_grid st) (row_index sid) SIGNUPS.STATUS
             ("CANCELLED:" +:+ isoNow env))
          (set_cell (slots_grid st) (row_index tid) SLOTS.TAKEN
             (render (NumberValue newTaken)))).
Proof.
  intros Hs Ht. unfold cancel_directives, apply_batch, apply_directive.
  destruct (sid - 1 <? 0) eqn:H1; [apply Z.ltb_lt in H1; lia|].
  destruct (tid - 1 <? 0) eqn:H2; [apply Z.ltb_lt in H2; lia|].
  simpl. done.
Qed.

(** A cancellation by the holder of the stored phone, with no Sheets call
    failing. *)
Lemma handle_patch_authorized env b w sid tid phone :
  cancel_params b sid tid phone -> 1 <= sid -> 1 <= tid ->
  JS.trim (stored_phone (store w) sid) = phone ->
  (forall c, fails env c = false) ->
  handle_patch env b w =
  (respond 200 (Message "Booking cancelled successfully."),
   mkWorld (cancelled_store env (store w) sid tid) (mkCache None 0)
     (rateLimitMap w) (activeBookingsMap w)
     (log w ++ [ValuesGet (signup_row_range sid); ValuesGet (taken_cell_range tid);
                BatchUpdate (cancel_directives env sid tid
                               (decremented (stored_taken (store w) tid)))])).
Proof.
  intros Hpar Hsid Htid Hphone Hf.
  assert (phone <> "") as Hp by apply Hpar.
  destruct (stored_phone_row_present _ _ _ Hp Hphone) as [Hpresent Hlen].
  rewrite (handle_patch_params _ _ _ _ _ _ Hpar).
  unfold values_get. rewrite Hf.
  pose proof (read_signup_row (store w) sid phone Hsid Hp) as Hread.
  rewrite Hpresent in Hread. destruct Hread as [row [-> Hiff]].
  change (head [row]) with (Some row). cbv iota beta.
  rewrite bool_decide_true by (by apply Hiff). simpl negb. cbv iota.
  rewrite Hf.
  change (store (log_call _ w)) with (store w).
  destruct (read_taken_cell (store w) tid Htid) as [slotValues [-> Hcur]].
  cbv zeta. rewrite Hcur. fold (decremented (stored_taken (store w) tid)).
  unfold batchUpdate. rewrite Hf.
  change (store (log_call _ (log_call _ w))) with (store w).
  rewrite apply_cancel_directives by done.
  unfold cancelled_store, with_cache, with_store, log_call, invalidateCache. simpl.
  by rewrite <- !app_assoc.
Qed.

Lemma handle_lookup_200 env q w bs :
  fst (handle_lookup env q w) = respond 200 (Bookings bs) ->
  isValidPhone (Some (sanitizeInput q CONFIG.MAX_PHONE_LENGTH)) = true /\
  bs = lookup_bookings (store w) (sanitizeInput q CONFIG.MAX_PHONE_LENGTH) /\
  store (snd (handle_lookup env q w)) = store w.
Proof.
  rewrite handle_lookup_spec. cbv zeta.
  destruct (isValidPhone _); simpl; [|done].
  destruct (fails env _); simpl; [done|]. by intros [= ->].
Qed.

(** X14.  Every booking a lookup returns can be cancelled with the
    identifiers it carries: a cancellation that names the booking's signup
    row, its slot row (when that is a row number, 1 or more) and the
    sanitized phone of the lookup is authorized, and with no Sheets call
    failing it is answered 200, marks that signup row [CANCELLED:<time>]
    and leaves every other row of the Signups sheet as it was. *)
Theorem X14_looked_up_booking_can_be_cancelled (env1 env2 : Env) (req1 req2 : Request)
    (w : World) (bs : list Booking) (bk : Booking) (tid : Z) :
  is_lookup req1 -> allowed env1 req1 w ->
  fst (handler env1 req1 w) = respond 200 (Bookings bs) ->
  bk ∈ bs ->
  bk_slotRowId bk = Some tid -> 1 <= tid ->
  let w1 := snd (handler env1 req1 w) in
  method req2 = PATCH -> allowed env2 req2 w1 ->
  cancel_params (body req2) (bk_signupRowId bk) tid (lookup_phone req1) ->
  (forall c, fails env2 c = false) ->
  let res := handler env2 req2 w1 in
  fst res = respond 200 (Message "Booking cancelled successfully.") /\
  stored_status (store (snd res)) (bk_signupRowId bk) = "CANCELLED:" +:+ isoNow env2 /\
  forall r c,
    r <> row_index (bk_signupRowId bk) ->
    cell_at (signups_grid (store (snd res))) r c = cell_at (signups_grid (store w)) r c.
Proof.
  intros Hl Ha Hres Hin Htid Htid1 w1 Hm Ha2 Hpar Hf res.
  unfold res, w1 in *. clear res w1.
  rewrite (handler_lookup env1 req1 w) in * by done.
  destruct (handle_lookup_200 _ _ _ _ Hres) as (Hv & -> & Hst).
  fold (lookup_phone req1) in *.
  apply lookup_bookings_elem in Hin as (n & (Hn & Hph & _) & ->);
    [|by apply valid_phone_nonempty].
  rewrite booking_at_row in * by done.
  rewrite handler_patch by done.
  rewrite (handle_patch_authorized env2 (body req2) _ n tid (lookup_phone req1));
    try done; try lia.
  - cbn [fst snd store]. change (store (entered env2 req2 ?x)) with (store x).
    rewrite Hst. change (store (entered env1 req1 w)) with (store w).
    split; [done|]. split.
    + unfold stored_status, cancelled_store. cbn [signups_grid].
      rewrite cell_at_set_cell. by rewrite decide_True.
    + intros r c Hr. unfold cancelled_store. cbn [signups_grid].
      rewrite cell_at_set_cell. rewrite decide_False; [done|]. by intros [? _].
  - change (store (entered env2 req2 ?x)) with (store x). rewrite Hst. exact Hph.
Qed.

Lemma X14_looked_up_booking_can_be_cancelled_witness :
  let req1 := {| method := GET; x_forwarded_for := None; x_real_ip := None;
                 query_phone := Some "5557654321"; body := Demo.booking_body None |} in
  let w1 := snd (handler Demo.env req1 Demo.w) in
  let bk := booking_at (store Demo.w) 3 in
  let res := handler Demo.env (Demo.patch 3 5 "5557654321") w1 in
  fst res = respond 200 (Message "Booking cancelled successfully.") /\
  stored_status (store (snd res)) (bk_signupRowId bk) = "CANCELLED:" +:+ isoNow Demo.env /\
  forall r c,
    r <> row_index (bk_signupRowId bk) ->
    cell_at (signups_grid (store (snd res))) r c = cell_at (signups_grid (store Demo.w)) r c.
Proof.
  apply (X14_looked_up_booking_can_be_cancelled Demo.env Demo.env
           {| method := GET; x_forwarded_for := None; x_real_ip := None;
              query_phone := Some "5557654321"; body := Demo.booking_body None |}
           (Demo.patch 3 5 "5557654321") Demo.w
           [booking_at (store Demo.w) 3] (booking_at (store Demo.w) 3) 5).
  - split; reflexivity.
  - reflexivity.
  - vm_compute. reflexivity.
  - apply list_elem_of_here.
  - vm_compute. reflexivity.
  - lia.
  - reflexivity.
  - reflexivity.
  - repeat split; discriminate.
  - reflexivity.
Defined.

(** X15.  A cancellation compares the caller's phone as it was sent,
    neither trimmed nor sanitized, with the trimmed phone cell.  So a
    cancellation whose phone has white space at either end is never
    authorized, whatever the sheet holds: it is not answered 200 and the
    store is left as it was. *)
Theorem X15_cancel_takes_phone_as_sent (env : Env) (req : Request) (w : World)
    (phone : string) :
  method req = PATCH ->
  b_phone (body req) = Some phone ->
  JS.trim phone <> phone ->
  status (fst (handler env req w)) <> 200 /\
  store (snd (handler env req w)) = store w.
Proof.
  intros Hm Hp Htrim.
  destruct (handler_store env req w)
    as [[Hst Hn] | [(Hpost & _) | (_ & _ & sid & tid & phone' & Hpar & _ & _ & Hph & _)]].
  - split; [apply Hn; by right | done].
  - congruence.
  - destruct Hpar as (_ & _ & _ & _ & Hp' & _).
    assert (phone' = phone) as -> by congruence.
    destruct Htrim. rewrite <- Hph. apply trim_idem.
Qed.

Lemma X15_cancel_takes_phone_as_sent_witness :
  status (fst (handler Demo.env (Demo.patch 2 2 " 5551234567") Demo.w)) <> 200 /\
  store (snd (handler Demo.env (Demo.patch 2 2 " 5551234567") Demo.w)) = store Demo.w.
Proof.
  apply (X15_cancel_takes_phone_as_sent Demo.env (Demo.patch 2 2 " 5551234567") Demo.w
           " 5551234567").
  - reflexivity.
  - reflexivity.
  - vm_compute. discriminate.
Defined.

Lemma decremented_cell_num cell :
  cell_num (render (NumberValue (decremented cell))) = Z.max 0 (cell_num cell - 1).
Proof.
  unfold decremented, cell_num_strict, cell_num.
  destruct (JS.is_empty cell) eqn:He.
  - apply is_empty_true in He. subst. done.
  - destruct (JS.parseInt_str cell) as [t|]; simpl; [|done].
    fold (cell_num (JS.toString (0 `max` (t - 1)))). by rewrite cell_num_toString.
Qed.

Lemma stored_phone_cancelled env st sid tid n :
  stored_phone (cancelled_store env st sid tid) n = stored_phone st n.
Proof.
  unfold stored_phone, cancelled_store. cbn [signups_grid].
  rewrite cell_at_set_cell. rewrite decide_False; [done|]. by intros [_ ?].
Qed.

(** X16.  A cancellation does not look at the status cell, so it can be
    repeated: after a cancellation that was answered 200, the same request
    sent again is authorized again and, with no Sheets call failing, is
    answered 200 again and lowers the taken count of the slot once more
    (never below zero). *)
Theorem X16_cancellation_can_be_repeated (env1 env2 : Env) (req : Request) (w : World)
    (tid : Z) :
  method req = PATCH ->
  status (fst (handler env1 req w)) = 200 ->
  b_slotRowId (body req) = Some tid ->
  let w1 := snd (handler env1 req w) in
  allowed env2 req w1 ->
  (forall c, fails env2 c = false) ->
  let res := handler env2 req w1 in
  fst res = respond 200 (Message "Booking cancelled successfully.") /\
  taken_at (slots_grid (store w1)) (row_index tid) =
    Z.max 0 (taken_at (slots_grid (store w)) (row_index tid) - 1) /\
  taken_at (slots_grid (store (snd res))) (row_index tid) =
    Z.max 0 (taken_at (slots_grid (store w1)) (row_index tid) - 1).
Proof.
  intros Hm H200 Htid w1 Ha Hf res.
  destruct (handler_store env1 req w)
    as [[_ Hn] | [(Hp & _) | (_ & _ & sid & tid' & phone & Hpar & Hs & Ht & Hph & Hst)]];
    [by destruct Hn; [right|] | congruence |].
  assert (tid' = tid) as -> by (destruct Hpar as (_ & _ & ? & _); congruence).
  fold w1 in Hst.
  assert (forall st, taken_at (slots_grid (cancelled_store env1 st sid tid)) (row_index tid) =
                     Z.max 0 (taken_at (slots_grid st) (row_index tid) - 1)) as Hdec1.
  { intros st. unfold taken_at, cancelled_store. cbn [slots_grid].
    rewrite cell_at_set_cell, decide_True by done. apply decremented_cell_num. }
  assert (forall st, taken_at (slots_grid (cancelled_store env2 st sid tid)) (row_index tid) =
                     Z.max 0 (taken_at (slots_grid st) (row_index tid) - 1)) as Hdec2.
  { intros st. unfold taken_at, cancelled_store. cbn [slots_grid].
    rewrite cell_at_set_cell, decide_True by done. apply decremented_cell_num. }
  unfold res. rewrite handler_patch by done.
  rewrite (handle_patch_authorized env2 (body req) _ sid tid phone); try done.
  - cbn [fst snd store]. change (store (entered env2 req w1)) with (store w1).
    split; [done|]. split; [by rewrite Hst | apply Hdec2].
  - change (store (entered env2 req w1)) with (store w1).
    by rewrite Hst, stored_phone_cancelled.
Qed.

Lemma X16_cancellation_can_be_repeated_witness :
  let w1 := snd (handler Demo.env (Demo.patch 3 5 "5557654321") Demo.w) in
  let res := handler Demo.env (Demo.patch 3 5 "5557654321") w1 in
  fst res = respond 200 (Message "Booking cancelled successfully.") /\
  taken_at (slots_grid (store w1)) (row_index 5) =
    Z.max 0 (taken_at (slots_grid (store Demo.w)) (row_index 5) - 1) /\
  taken_at (slots_grid (store (snd res))) (row_index 5) =
    Z.max 0 (taken_at (slots_grid (store w1)) (row_index 5) - 1).
Proof.
  apply (X16_cancellation_can_be_repeated Demo.env Demo.env
           (Demo.patch 3 5 "5557654321") Demo.w 5).
  - reflexivity.
  - vm_compute. reflexivity.
  - reflexivity.
  - reflexivity.
  - reflexivity.
Defined.

(** ** The Sheets calls of a request *)

Ltac close_log :=
  eexists; split;
  [ unfold log_call, with_store, with_cache, with_activeBookingsMap; simpl;
    rewrite <- ?app_assoc; first [ reflexivity | symmetry; apply app_nil_r ]
  | repeat split; simpl; lia || reflexivity ].

Lemma book_log env f ids w :
  exists calls, log (snd (book env f ids w)) = log w ++ calls /\ within_quota calls.
Proof. unfold within_quota. open_book; close_log. Qed.

Lemma handle_patch_log env b w :
  exists calls, log (snd (handle_patch env b w)) = log w ++ calls /\ within_quota calls.
Proof. unfold within_quota. open_patch; close_log. Qed.

Lemma handle_lookup_log env q w :
  exists calls, log (snd (handle_lookup env q w)) = log w ++ calls /\ within_quota calls.
Proof.
  unfold within_quota, handle_lookup, values_get.
  repeat (case_match; simplify_eq; simpl in * ); close_log.
Qed.

Lemma handle_listing_log env w :
  exists calls, log (snd (handle_listing env w)) = log w ++ calls /\ within_quota calls.
Proof.
  unfold within_quota, handle_listing, values_get.
  repeat (case_match; simplify_eq; simpl in * ); close_log.
Qed.

Lemma no_call_within_quota (l : list Call) :
  exists calls, l = l ++ calls /\ within_quota calls.
Proof. exists []. split; [by rewrite app_nil_r|]. repeat split; simpl; lia. Qed.

Lemma handler_log env req w :
  exists calls, log (snd (handler env req w)) = log w ++ calls /\ within_quota calls.
Proof.
  destruct (decide (method req = OPTIONS)) as [Hm|Hm].
  { rewrite handler_options by done. apply no_call_within_quota. }
  destruct (decide (allowed env req w)) as [Ha|Ha]; cycle 1.
  { rewrite handler_denied by done. apply no_call_within_quota. }
  destruct (method req) eqn:Hmeth; [done| | | |].
  - unfold handler. rewrite Hmeth. unfold allowed in Ha.
    destruct (checkRateLimit _ _ _) as [[] rl]; simpl in *; [|done].
    destruct (JS.truthy (query_phone req)).
    + apply (handle_lookup_log env (query_phone req) (with_rateLimitMap rl w)).
    + apply (handle_listing_log env (with_rateLimitMap rl w)).
  - rewrite handler_post by done.
    destruct (decide (reaches_booking (body req) (entered env req w))) as [Hr|Hr].
    + rewrite handle_post_book by done.
      apply (book_log env _ _ (acquired (body req) (entered env req w))).
    + destruct (handle_post_other env (body req) (entered env req w) Hr) as [-> _].
      apply no_call_within_quota.
  - rewrite handler_patch by done.
    apply (handle_patch_log env (body req) (entered env req w)).
  - unfold handler. rewrite Hmeth. unfold allowed in Ha.
    destruct (checkRateLimit _ _ _) as [[] rl]; simpl in *; [|done].
    apply no_call_within_quota.
Qed.

(** X17.  Whatever the request and whatever fails, a request issues at
    most three Sheets calls, at most one of them a write and that one last;
    a request that is not answered 200 leaves the spreadsheet exactly as it
    was; and a request that is neither a POST nor a PATCH issues no write
    and leaves the spreadsheet as it was even when it is answered 200. *)
Theorem X17_sheet_changes_only_on_success (env : Env) (req : Request) (w : World) :
  let res := handler env req w in
  (exists calls, log (snd res) = log w ++ calls /\ within_quota calls) /\
  (status (fst res) <> 200 -> store (snd res) = store w) /\
  (method req <> POST -> method req <> PATCH ->
   store (snd res) = store w /\ writes (log (snd res)) = writes (log w)).
Proof.
  intros res. unfold res. split; [apply handler_log|]. split.
  - intros Hst.
    destruct (handler_store env req w) as [[H _] | [(_ & H & _) | (_ & H & _)]]; done.
  - intros Hpost Hpatch.
    destruct (handler_store env req w) as [[H _] | [(H & _) | (H & _)]]; try done.
    split; [done|].
    destruct (decide (method req = OPTIONS)) as [Hm|Hm].
    { by rewrite handler_options. }
    destruct (decide (allowed env req w)) as [Ha|Ha]; cycle 1.
    { by rewrite handler_denied. }
    destruct (method req) eqn:Hmeth; try done.
    + unfold handler. rewrite Hmeth. unfold allowed in Ha.
      destruct (checkRateLimit _ _ _) as [[] rl]; simpl in *; [|done].
      destruct (JS.truthy (query_phone req)).
      * by destruct (handle_lookup_frame env (query_phone req) (with_rateLimitMap rl w))
          as (_ & _ & _ & ->).
      * by destruct (handle_listing_frame env (with_rateLimitMap rl w)) as (_ & _ & ->).
    + unfold handler. rewrite Hmeth. unfold allowed in Ha.
      by destruct (checkRateLimit _ _ _) as [[] rl]; simpl in *.
Qed.

(** ** The throttle and the outcome of a booking *)

Lemma book_outcome env f ids w :
  ((status (fst (book env f ids w)) = 200 \/ status (fst (book env f ids w)) = 500) /\
   activeBookingsMap (snd (book env f ids w)) =
     decrementActiveBookings (f_phone f) (activeBookingsMap w)) \/
  ((status (fst (book env f ids w)) = 400 \/ status (fst (book env f ids w)) = 409) /\
   activeBookingsMap (snd (book env f ids w)) = activeBookingsMap w).
Proof.
  open_book; try (left; split; [auto | done]).
  match goal with
  | H : book_loop _ _ _ _ _ _ _ _ = LoopReturn _ |- _ =>
      apply book_loop_return in H as [H _]
  end.
  right. split; done.
Qed.

(** X18.  A booking that passed validation and the throttle releases the
    throttle exactly when it runs to its end: answered 200 (written) or
    500 (a Sheets call or the building of the write failed), the in-flight
    count of its phone is back where it was; answered 400 or 409 by the
    loop over the slots (slot data missing, already booked, slot full), the
    count stays one higher.  No other answer is possible. *)
Theorem X18_throttle_released_by_outcome (env : Env) (req : Request) (w : World) :
  method req = POST -> allowed env req w ->
  reaches_booking (body req) (entered env req w) ->
  let p := throttle_phone (body req) in
  0 <= active_count p (activeBookingsMap w) ->
  let res := handler env req w in
  ((status (fst res) = 200 \/ status (fst res) = 500) /\
   active_count p (activeBookingsMap (snd res)) = active_count p (activeBookingsMap w)) \/
  ((status (fst res) = 400 \/ status (fst res) = 409) /\
   active_count p (activeBookingsMap (snd res)) =
     active_count p (activeBookingsMap w) + 1).
Proof.
  intros Hm Ha Hr p Hc res. unfold res.
  rewrite handler_post by done. rewrite handle_post_book by done.
  destruct (book_outcome env (fields_of (body req)) (ids_of (body req))
              (acquired (body req) (entered env req w))) as [[Hs ->] | [Hs ->]].
  - left. split; [done|].
    change (f_phone (fields_of (body req))) with p.
    change (activeBookingsMap (acquired (body req) (entered env req w)))
      with (incrementActiveBookings p (activeBookingsMap w)).
    rewrite active_count_decr, active_count_incr, !decide_True by done.
    destruct (0 <? _) eqn:H0; [lia|]. apply Z.ltb_ge in H0. lia.
  - right. split; [done|].
    change (activeBookingsMap (acquired (body req) (entered env req w)))
      with (incrementActiveBookings p (activeBookingsMap w)).
    by rewrite active_count_incr, decide_True.
Qed.

Lemma X18_throttle_released_by_outcome_witness :
  let p := throttle_phone (body (Demo.post [4; 3])) in
  let res := handler Demo.env (Demo.post [4; 3]) Demo.w in
  ((status (fst res) = 200 \/ status (fst res) = 500) /\
   active_count p (activeBookingsMap (snd res)) =
     active_count p (activeBookingsMap Demo.w)) \/
  ((status (fst res) = 400 \/ status (fst res) = 409) /\
   active_count p (activeBookingsMap (snd res)) =
     active_count p (activeBookingsMap Demo.w) + 1).
Proof.
  apply (X18_throttle_released_by_outcome Demo.env (Demo.post [4; 3]) Demo.w).
  - reflexivity.
  - reflexivity.
  - split; reflexivity.
  - vm_compute. discriminate.
Defined.

(** ** A booking of free slots *)

Lemma find_none_forall {A} (p : A -> bool) (l : list A) :
  List.find p l = None <-> Forall (fun x => p x = false) l.
Proof.
  induction l as [|x l IH]; simpl; [by split; [constructor|]|].
  destruct (p x) eqn:Hx.
  - split; [done|]. intros H. apply Forall_cons in H as [? _]. congruence.
  - rewrite IH. split; [by constructor | by intros [_ ?]%Forall_cons].
Qed.

(** X19.  With no Sheets call failing, a booking that passed validation
    and the throttle is answered 200 exactly when none of its slots fails
    a check, that is when every slot row is there, the phone holds no
    ACTIVE signup for it and its taken count is below its capacity.  It
    then issues its two reads and one write, appends one signup row per
    slot, raises each taken count by one and empties the slot cache. *)
Theorem X19_booking_of_free_slots_succeeds (env : Env) (req : Request) (w : World) :
  method req = POST -> allowed env req w ->
  reaches_booking (body req) (entered env req w) ->
  (forall c, fails env c = false) ->
  let ids := ids_of (body req) in
  let phone := throttle_phone (body req) in
  let f := fields_of (body req) in
  let res := handler env req w in
  (status (fst res) = 200 <-> Forall (fun id => slot_fails (store w) phone id = false) ids) /\
  (Forall (fun id => slot_fails (store w) phone id = false) ids ->
   fst res = respond 200 (Message "Booking successful!") /\
   store (snd res) = booked_store env f (store w) ids /\
   cache (snd res) = mkCache None 0 /\
   log (snd res) =
     log w ++ [ValuesBatchGet (slot_row_range <$> ids); ValuesGet signups_range;
               BatchUpdate (booking_write env f (store w) ids)]).
Proof.
  intros Hm Ha Hr Hf ids phone f res.
  destruct Hr as [Hv Hc]. destruct (validated_request _ Hv) as (Hids & _ & Hne & _).
  fold ids phone in Hids, Hne.
  assert (res = book env f ids (acquired (body req) (entered env req w))) as Hres.
  { unfold res. rewrite handler_post by done. by rewrite handle_post_book. }
  rewrite book_spec in Hres by done.
  change (f_phone f) with phone in Hres.
  change (store (acquired (body req) (entered env req w))) with (store w) in Hres.
  rewrite first_failure_grid in Hres by done.
  destruct (List.find (slot_fails (store w) phone) ids) as [id|] eqn:Hfind.
  - simpl in Hres.
    assert (~ Forall (fun id => slot_fails (store w) phone id = false) ids) as Hn.
    { intros H%find_none_forall. congruence. }
    split; [|done]. split; [|done]. rewrite Hres. simpl.
    destruct (rejection_shape (store w) phone id) as [[H|H] _]; rewrite H; done.
  - simpl in Hres. rewrite Hf in Hres.
    apply find_none_forall in Hfind.
    split; [split; [done | by rewrite Hres]|]. intros _. rewrite Hres.
    repeat split. simpl. by rewrite <- !app_assoc.
Qed.

Lemma X19_booking_of_free_slots_succeeds_witness :
  let ids := ids_of (body (Demo.post [4; 5])) in
  let phone := throttle_phone (body (Demo.post [4; 5])) in
  let f := fields_of (body (Demo.post [4; 5])) in
  let res := handler Demo.env (Demo.post [4; 5]) Demo.w in
  (status (fst res) = 200 <->
   Forall (fun id => slot_fails (store Demo.w) phone id = false) ids) /\
  (Forall (fun id => slot_fails (store Demo.w) phone id = false) ids ->
   fst res = respond 200 (Message "Booking successful!") /\
   store (snd res) = booked_store Demo.env f (store Demo.w) ids /\
   cache (snd res) = mkCache None 0 /\
   log (snd res) =
     log Demo.w ++ [ValuesBatchGet (slot_row_range <$> ids); ValuesGet signups_range;
                    BatchUpdate (booking_write Demo.env f (store Demo.w) ids)]).
Proof.
  apply (X19_booking_of_free_slots_succeeds Demo.env (Demo.post [4; 5]) Demo.w).
  - reflexivity.
  - reflexivity.
  - split; reflexivity.
  - reflexivity.
Defined.

(** ** The e-mail pattern *)

Lemma all_chars_app p a b :
  JS.all_chars p (a +:+ b) = JS.all_chars p a && JS.all_chars p b.
Proof. induction a as [|c a IH]; simpl; [done|]. by rewrite IH, andb_assoc. Qed.

Lemma span_chars_spec p s a b :
  JS.span_chars p s = (a, b) ->
  s = a +:+ b /\ JS.all_chars p a = true /\
  (b = "" \/ exists c r, b = String c r /\ p c = false).
Proof.
  revert a b. induction s as [|c s IH]; intros a b; simpl.
  - intros [= <- <-]. auto.
  - destruct (p c) eqn:Hc.
    + destruct (JS.span_chars p s) as [a' b']. intros [= <- <-].
      destruct (IH a' b' eq_refl) as (-> & Ha & Hb). simpl. by rewrite Hc, Ha.
    + intros [= <- <-]. repeat split. right. eauto.
Qed.

Lemma span_chars_app p a c r :
  JS.all_chars p a = true -> p c = false ->
  JS.span_chars p (a +:+ String c r) = (a, String c r).
Proof.
  intros Ha Hc. induction a as [|x a IH]; simpl in *.
  - by rewrite Hc.
  - apply andb_prop in Ha as [Hx Ha]. by rewrite Hx, IH.
Qed.

Lemma has_inner_dot_from_spec s :
  has_inner_dot_from s = true <-> exists a b, s = a +:+ "." +:+ b /\ b <> "".
Proof.
  induction s as [|c s IH]; simpl.
  - split; [done|]. intros (a & b & H & _). by destruct a.
  - destruct s as [|c' s'].
    + split; [done|]. intros (a & b & H & Hb).
      destruct a as [|x a]; simpl in H; [injection H as _ H; by subst|].
      injection H as _ H. by destruct a.
    + destruct (Ascii.eqb c ".") eqn:Hc; simpl.
      * apply Ascii.eqb_eq in Hc. subst. split; [|done]. intros _.
        exists "", (String c' s'). done.
      * rewrite IH. split.
        -- intros (a & b & -> & Hb). exists (String c a), b. done.
        -- intros (a & b & H & Hb). destruct a as [|x a]; simpl in H.
           ++ injection H as -> _. by rewrite Ascii.eqb_refl in Hc.
           ++ injection H as _ H. by exists a, b.
Qed.

Lemma has_inner_dot_spec s :
  has_inner_dot s = true <->
  exists a b, s = a +:+ "." +:+ b /\ a <> "" /\ b <> "".
Proof.
  destruct s as [|c s]; simpl.
  - split; [done|]. intros (a & b & H & _). by destruct a.
  - rewrite has_inner_dot_from_spec. split.
    + intros (a & b & -> & Hb). exists (String c a), b. done.
    + intros (a & b & H & Ha & Hb). destruct a as [|x a]; [done|].
      simpl in H. injection H as _ H. by exists a, b.
Qed.

Lemma emailRegex_test_shape e : emailRegex_test e = true <-> email_shape e.
Proof.
  unfold emailRegex_test, email_shape. split.
  - destruct (JS.span_chars email_char e) as [loc rest] eqn:Hspan.
    apply span_chars_spec in Hspan as (-> & Hloc & _).
    destruct rest as [|c dom]; [done|].
    intros [[[Hc Hne]%andb_prop Hdom]%andb_prop Hdot]%andb_prop.
    apply Ascii.eqb_eq in Hc. subst c.
    apply has_inner_dot_spec in Hdot as (a & b & -> & Ha & Hb).
    rewrite !all_chars_app in Hdom.
    apply andb_prop in Hdom as [Ha' [_ Hb']%andb_prop].
    exists loc, a, b. repeat split; try done.
    intros ->. done.
  - intros (loc & a & b & -> & Hloc & Ha & Hb & Hl & Ha' & Hb').
    change (loc +:+ "@" +:+ a +:+ "." +:+ b) with (loc +:+ String "@" (a +:+ "." +:+ b)).
    rewrite span_chars_app by done.
    rewrite Ascii.eqb_refl. simpl andb.
    assert (JS.is_empty loc = false) as -> by (by destruct loc).
    simpl negb. simpl andb.
    rewrite !all_chars_app, Ha', Hb'. simpl.
    apply has_inner_dot_spec. by exists a, b.
Qed.

(** X20.  The e-mail check accepts a missing or empty e-mail, and
    otherwise exactly the texts of at most 254 characters of the form
    [local@a.b], where [local], [a] and [b] are non-empty and hold neither
    white space nor [@] (so there is exactly one [@], and the part after it
    has a dot with something on both sides). *)
Theorem X20_accepted_emails (email : option string) :
  isValidEmail email = true <->
  email = None \/ email = Some "" \/
  exists e, email = Some e /\ email_shape e /\ JS.len e <= CONFIG.MAX_EMAIL_LENGTH.
Proof.
  destruct email as [e|]; simpl; [|by split; [left|]].
  destruct (JS.is_empty e) eqn:He.
  - apply is_empty_true in He. subst. split; [by right; left | done].
  - apply is_empty_false in He. rewrite andb_true_iff, emailRegex_test_shape, Z.leb_le.
    split.
    + intros [Hs Hl]. right. right. by exists e.
    + intros [? | [[= ->] | (e' & [= <-] & Hs & Hl)]]; done.
Qed.

(** ** The selection the client submits *)

Lemma updateSelectedSlots_sublist l : Client.updateSelectedSlots l `sublist_of` l.
Proof.
  unfold Client.updateSelectedSlots. etrans; [apply sublist_take | apply sublist_filter].
Qed.

Lemma selection_ok_sublist l k :
  k `sublist_of` l -> selection_ok l -> selection_ok k.
Proof.
  intros Hs (Hv & Hn & Hl). split; [|split].
  - apply Forall_forall. intros x Hx. rewrite Forall_forall in Hv.
    apply Hv. by eapply elem_of_sublist.
  - eapply sublist_NoDup; [exact Hn|]. by apply fmap_sublist.
  - apply sublist_length in Hs. lia.
Qed.

Lemma updateSelectedSlots_valid l :
  Forall (fun slot => Client.valid_slot slot = true) l ->
  (length l <= Client.MAX_SLOTS_PER_BOOKING)%nat ->
  Client.updateSelectedSlots l = l.
Proof.
  intros Hv Hl. unfold Client.updateSelectedSlots.
  rewrite filter_all by done. by apply take_ge.
Qed.

Lemma toggleSlot_ok d l r sel : selection_ok sel -> selection_ok (Client.toggleSlot d l r sel).
Proof.
  intros Hok. unfold Client.toggleSlot.
  destruct (existsb _ sel) eqn:Hex.
  - eapply selection_ok_sublist; [|exact Hok].
    etrans; [apply updateSelectedSlots_sublist | apply sublist_filter].
  - destruct (_ <=? _)%nat eqn:Hfull; [done|]. apply Nat.leb_gt in Hfull.
    destruct Hok as (Hv & Hn & Hl).
    destruct (Client.valid_slot (Client.mkSelected r d l)) eqn:Hnew.
    + rewrite updateSelectedSlots_valid.
      * split; [|split].
        -- apply Forall_app. split; [done|]. by constructor.
        -- rewrite fmap_app. apply NoDup_app. split; [done|]. split; [|apply NoDup_singleton].
           intros x Hx ->%list_elem_of_singleton.
           apply list_elem_of_fmap in Hx as (s & Hs & Hin).
           assert (existsb (fun slot => Client.same_id (Client.id slot) r) sel = true);
             [|congruence].
           apply existsb_exists. exists s. split; [by apply list_elem_of_In|].
           simpl in Hs. rewrite <- Hs.
           unfold Client.valid_slot in Hnew. simpl in Hnew.
           destruct r as [z|]; [|done]. simpl. apply Z.eqb_refl.
        -- rewrite length_app. simpl. unfold Client.MAX_SLOTS_PER_BOOKING in *. lia.
      * apply Forall_app. split; [done|]. by constructor.
      * rewrite length_app. simpl. unfold Client.MAX_SLOTS_PER_BOOKING in *. lia.
    + unfold Client.updateSelectedSlots. rewrite filter_app.
      rewrite (filter_cons_False _ (Client.mkSelected r d l)) by congruence.
      rewrite filter_nil, app_nil_r, filter_all by done.
      rewrite take_ge by done. done.
Qed.

Lemma act_ok a sel : selection_ok sel -> selection_ok (act a sel).
Proof.
  intros Hok. destruct a as [d l r | i |]; simpl.
  - by apply toggleSlot_ok.
  - eapply selection_ok_sublist; [|exact Hok].
    etrans; [apply updateSelectedSlots_sublist | apply sublist_filter].
  - split; [constructor|]. split; [constructor | simpl; lia].
Qed.

Lemma selection_after_ok actions : selection_ok (selection_after actions).
Proof.
  unfold selection_after.
  assert (selection_ok []) as H0 by (split; [constructor|]; split; [constructor | simpl; lia]).
  revert H0. generalize (@nil Client.Selected).
  induction actions as [|a actions IH]; intros sel Hok; simpl; [done|].
  apply IH. by apply act_ok.
Qed.

Lemma slotIds_nums sel :
  Forall (fun slot => Client.valid_slot slot = true) sel ->
  Some <$> (slot_num <$> Client.slotIds sel) = Client.id <$> sel.
Proof.
  induction 1 as [|s sel Hs _ IH]; [done|].
  unfold Client.slotIds in *. rewrite !fmap_cons, IH. f_equal.
  unfold Client.valid_slot in Hs. by destruct (Client.id s).
Qed.

Lemma elem_of_push_if c msg errors (x : string) :
  x ∈ push_if c msg errors -> x = msg \/ x ∈ errors.
Proof.
  unfold push_if. destruct c; [|by right].
  rewrite elem_of_app, list_elem_of_singleton. tauto.
Qed.

(** X21.  Whatever the user clicks, starting from a fresh page, the
    client's selection holds complete slots only, names no slot id twice
    and holds at most ten slots.  So the [slotIds] the client posts are
    integers other than zero, at most ten, each at most once: a booking
    request of the shipped client never names a slot twice (the case in
    which the server would append two ACTIVE rows for one slot), and never
    draws the server's "Only up to 10 slots allowed." *)
Theorem X21_client_selection_has_no_duplicates (actions : list Action) :
  let selectedSlots := selection_after actions in
  selection_ok selectedSlots /\
  Forall (fun v => exists z, v = IntV z /\ z <> 0) (Client.slotIds selectedSlots) /\
  forall body,
    b_slotIds body = Some (Client.slotIds selectedSlots) ->
    NoDup (ids_of body) /\
    (length (ids_of body) <= 10)%nat /\
    forall errors,
      validateBookingRequest body = Some errors ->
      "Only up to 10 slots allowed." ∉ errors.
Proof.
  intros sel. pose proof (selection_after_ok actions) as Hok. fold sel in Hok.
  destruct Hok as (Hv & Hn & Hl). split; [done|]. split.
  - unfold Client.slotIds. apply Forall_fmap. eapply Forall_impl; [exact Hv|].
    intros s Hs. unfold Client.valid_slot in Hs. simpl.
    destruct (Client.id s) as [z|]; [|done]. exists z. split; [done|].
    intros ->. done.
  - intros body Hb.
    assert (length (Client.slotIds sel) <= 10)%nat as Hlen.
    { unfold Client.slotIds. rewrite length_fmap. exact Hl. }
    split; [|split].
    + unfold ids_of. rewrite Hb. simpl.
      apply (NoDup_fmap_1 Some). by rewrite slotIds_nums.
    + unfold ids_of. rewrite Hb. simpl. by rewrite length_fmap.
    + intros errors. unfold validateBookingRequest. rewrite Hb.
      assert ((CONFIG.MAX_SLOTS_PER_BOOKING <? Z.of_nat (length (Client.slotIds sel))) = false)
        as ->.
      { apply Z.ltb_ge. unfold CONFIG.MAX_SLOTS_PER_BOOKING. lia. }
      intros [= <-] Hin.
      repeat (apply elem_of_push_if in Hin as [Hin | Hin]; [discriminate Hin|]).
      by apply elem_of_nil in Hin.
Qed.

(** ** The phone check of the client and the one of the server *)

Lemma all_chars_filter_inv p q s :
  JS.all_chars q (JS.filter_chars p s) = true ->
  JS.all_chars (fun c => negb (p c) || q c) s = true.
Proof.
  induction s as [|c s IH]; [done|]. simpl.
  destruct (p c) eqn:Hp; simpl.
  - intros [Hq Hs]%andb_prop. by rewrite Hq, IH.
  - intros Hs. by rewrite IH.
Qed.

Lemma all_chars_trimStart_eq q s :
  (forall c, JS.is_ws c = true -> q c = true) ->
  JS.all_chars q (JS.trimStart s) = JS.all_chars q s.
Proof.
  intros Hq. induction s as [|c s IH]; [done|]. simpl.
  destruct (JS.is_ws c) eqn:Hw; [|done]. by rewrite IH, (Hq c Hw).
Qed.

Lemma all_chars_trimEnd_eq q s :
  (forall c, JS.is_ws c = true -> q c = true) ->
  JS.all_chars q (JS.trimEnd s) = JS.all_chars q s.
Proof.
  intros Hq. induction s as [|c s IH]; [done|]. simpl.
  destruct (JS.is_ws c) eqn:Hw; simpl.
  - destruct (JS.is_empty (JS.trimEnd s)) eqn:He; simpl.
    + apply is_empty_true in He. rewrite He in IH. simpl in IH.
      by rewrite <- IH, (Hq c Hw).
    + by rewrite IH.
  - by rewrite IH.
Qed.

Lemma all_chars_filter_eq p q s :
  (forall c, p c = false -> q c = true) ->
  JS.all_chars q (JS.filter_chars p s) = JS.all_chars q s.
Proof.
  intros Hq. induction s as [|c s IH]; [done|]. simpl.
  destruct (p c) eqn:Hp; simpl; [by rewrite IH|]. by rewrite IH, (Hq c Hp).
Qed.

Lemma filter_chars_trimStart p s :
  (forall c, JS.is_ws c = true -> p c = false) ->
  JS.filter_chars p (JS.trimStart s) = JS.filter_chars p s.
Proof.
  intros Hp. induction s as [|c s IH]; [done|]. simpl.
  destruct (JS.is_ws c) eqn:Hw; [|done]. by rewrite IH, (Hp c Hw).
Qed.

Lemma filter_chars_trimEnd p s :
  (forall c, JS.is_ws c = true -> p c = false) ->
  JS.filter_chars p (JS.trimEnd s) = JS.filter_chars p s.
Proof.
  intros Hp. induction s as [|c s IH]; [done|]. simpl.
  destruct (JS.is_ws c) eqn:Hw; simpl.
  - destruct (JS.is_empty (JS.trimEnd s)) eqn:He; simpl.
    + apply is_empty_true in He. rewrite He in IH. simpl in IH.
      by rewrite <- IH, (Hp c Hw).
    + by rewrite (Hp c Hw), IH.
  - by rewrite IH.
Qed.

(** What the client's check says of the text. *)
Lemma client_phone_chars p :
  Client.isValidPhone (Some p) = true ->
  JS.all_chars (fun c => phone_char c || Ascii.eqb c ".") p = true /\
  10 <= JS.len (JS.filter_chars (fun c => negb (Client.formatting_char c)) p).
Proof.
  unfold Client.isValidPhone. destruct (JS.is_empty p); [done|].
  set (cleaned := JS.filter_chars _ p).
  intros [[Hd H10]%andb_prop _]%andb_prop. apply Z.leb_le in H10.
  assert (JS.all_chars (fun c => JS.is_digit c || Ascii.eqb c "+") cleaned = true /\
          10 <= JS.len cleaned) as [Hc Hl].
  { destruct cleaned as [|c r]; [done|].
    destruct (Ascii.eqb c "+") eqn:Hplus.
    - simpl. rewrite Hplus, orb_true_r. simpl. split.
      + eapply all_chars_impl; [|exact Hd]. intros x ->. done.
      + unfold JS.len in *. simpl. lia.
    - split; [|done]. eapply all_chars_impl; [|exact Hd]. intros x ->. done. }
  split; [|done].
  apply all_chars_filter_inv in Hc.
  eapply all_chars_impl; [|exact Hc]. intros c. unfold phone_char, Client.formatting_char.
  destruct (JS.is_digit c), (JS.is_ws c), (Ascii.eqb c "-"), (Ascii.eqb c "+"),
    (Ascii.eqb c "("), (Ascii.eqb c ")"), (Ascii.eqb c "."); done.
Qed.

Lemma sanitized_dots o n :
  JS.len (default "" o) <= n ->
  has_dot (sanitizeInput o n) = has_dot (default "" o).
Proof.
  unfold has_dot, sanitizeInput. destruct o as [s|]; [|done]. simpl default.
  destruct (JS.is_empty s) eqn:He; [apply is_empty_true in He; by subst|].
  intros Hn. f_equal. unfold JS.substring0.
  rewrite take_chars_all.
  - rewrite all_chars_filter_eq.
    + unfold JS.trim. rewrite all_chars_trimEnd_eq, all_chars_trimStart_eq; [done| |];
        intros c; by destruct c as [[] [] [] [] [] [] [] []].
    + intros c. by destruct c as [[] [] [] [] [] [] [] []].
  - pose proof (length_filter_chars
                  (fun c => negb (Ascii.eqb c "<" || Ascii.eqb c ">")) (JS.trim s)).
    unfold JS.trim in *.
    pose proof (length_trimEnd (JS.trimStart s)). pose proof (length_trimStart s).
    unfold JS.len in Hn. lia.
Qed.

Lemma phone_char_no_dot s :
  JS.all_chars phone_char s = true -> has_dot s = false.
Proof.
  intros H. unfold has_dot. rewrite (all_chars_impl phone_char _ s); [done| |done].
  intros c. by destruct c as [[] [] [] [] [] [] [] []].
Qed.

Lemma isValidPhone_chars p :
  isValidPhone (Some p) = true -> JS.all_chars phone_char p = true.
Proof.
  unfold isValidPhone. destruct (JS.is_empty p); [done|].
  by intros [[? _]%andb_prop _]%andb_prop.
Qed.

(** X22.  The client checks a lookup phone with its own pattern (10 to 15
    digits once spaces, dashes, parentheses and dots are removed), the
    server with another (8 to 20 digits, spaces, dashes, plus signs and
    parentheses).  For a phone of at most 20 characters that passes the
    client's check, the server's lookup accepts it exactly when it holds no
    dot: a dotted phone that the client lets through is answered 400
    "Invalid phone number format." by the server, without reading the
    sheet. *)
Theorem X22_client_and_server_phone_checks (env : Env) (req : Request) (w : World)
    (p : string) :
  Client.isValidPhone (Some p) = true ->
  JS.len p <= CONFIG.MAX_PHONE_LENGTH ->
  is_lookup req -> query_phone req = Some p -> allowed env req w ->
  (has_dot p = false <-> isValidPhone (Some (lookup_phone req)) = true) /\
  (has_dot p = true ->
   handler env req w =
   (respond 400 (Error "Invalid phone number format."), entered env req w)) /\
  (has_dot p = false -> status (fst (handler env req w)) <> 400).
Proof.
  intros Hc Hlen Hl Hq Ha.
  destruct (client_phone_chars p Hc) as [Hchars H10].
  assert (has_dot (lookup_phone req) = has_dot p) as Hdots.
  { unfold lookup_phone. rewrite Hq. by apply sanitized_dots. }
  assert (has_dot p = false -> isValidPhone (Some (lookup_phone req)) = true) as Hok.
  { intros Hnd. unfold has_dot in Hnd. apply negb_false_iff in Hnd.
    assert (JS.all_chars phone_char p = true) as Hpc.
    { clear -Hchars Hnd. induction p as [|c p IH]; [done|]. simpl in *.
      apply andb_prop in Hchars as [H1 H2]. apply andb_prop in Hnd as [H3 H4].
      rewrite IH by done. rewrite andb_true_r.
      apply negb_true_iff in H3. rewrite H3 in H1. by rewrite orb_false_r in H1. }
    assert (isValidPhone (Some p) = true) as Hvp.
    { unfold isValidPhone. destruct (JS.is_empty p) eqn:He.
      - apply is_empty_true in He. subst. done.
      - rewrite Hpc. simpl.
        pose proof (length_filter_chars (fun c => negb (Client.formatting_char c)) p).
        unfold JS.len, CONFIG.MAX_PHONE_LENGTH in *.
        apply andb_true_iff. split; [apply Z.leb_le | apply Z.leb_le]; lia. }
    unfold lookup_phone. rewrite Hq, sanitize_valid_phone by done.
    unfold isValidPhone.
    assert (10 <= JS.len (JS.trim p)) as Hlt.
    { pose proof (length_filter_chars (fun c => negb (Client.formatting_char c)) (JS.trim p))
        as Hf.
      unfold JS.trim in Hf at 1.
      rewrite filter_chars_trimEnd, filter_chars_trimStart in Hf;
        [| intros c Hw; unfold Client.formatting_char; by rewrite Hw
         | intros c Hw; unfold Client.formatting_char; by rewrite Hw].
      unfold JS.len in *. lia. }
    destruct (JS.is_empty (JS.trim p)) eqn:He.
    { apply is_empty_true in He. rewrite He in Hlt. unfold JS.len in Hlt. simpl in Hlt. lia. }
    unfold JS.trim. rewrite all_chars_trimEnd by (by apply all_chars_trimStart). simpl.
    fold (JS.trim p).
    pose proof (length_trimEnd (JS.trimStart p)). pose proof (length_trimStart p).
    unfold JS.trim, JS.len, CONFIG.MAX_PHONE_LENGTH in *.
    apply andb_true_iff. split; apply Z.leb_le; lia. }
  assert (isValidPhone (Some (lookup_phone req)) = true -> has_dot p = false) as Hback.
  { intros Hv. rewrite <- Hdots. by apply phone_char_no_dot, isValidPhone_chars. }
  split; [by split|]. split.
  - intros Hd. rewrite handler_lookup by done. rewrite handle_lookup_spec. cbv zeta.
    fold (lookup_phone req).
    destruct (isValidPhone (Some (lookup_phone req))) eqn:Hv; [|done].
    rewrite Hback in Hd by done. done.
  - intros Hnd. rewrite handler_lookup by done. rewrite handle_lookup_spec. cbv zeta.
    fold (lookup_phone req). rewrite (Hok Hnd). simpl. by destruct (fails env _).
Qed.

Lemma X22_client_and_server_phone_checks_witness :
  let req := {| method := GET; x_forwarded_for := None; x_real_ip := None;
                query_phone := Some "555.123.4567"; body := Demo.booking_body None |} in
  (has_dot "555.123.4567" = false <-> isValidPhone (Some (lookup_phone req)) = true) /\
  (has_dot "555.123.4567" = true ->
   handler Demo.env req Demo.w =
   (respond 400 (Error "Invalid phone number format."), entered Demo.env req Demo.w)) /\
  (has_dot "555.123.4567" = false -> status (fst (handler Demo.env req Demo.w)) <> 400).
Proof.
  apply (X22_client_and_server_phone_checks Demo.env
           {| method := GET; x_forwarded_for := None; x_real_ip := None;
              query_phone := Some "555.123.4567"; body := Demo.booking_body None |}
           Demo.w "555.123.4567").
  - reflexivity.
  - vm_compute. discriminate.
  - split; reflexivity.
  - reflexivity.
  - reflexivity.
Defined.

(** ** The answers of the handler *)

Ltac close_answer :=
  unfold answer_ok; simpl;
  first [ left; split; reflexivity
        | right; split; [repeat (first [left; reflexivity | right]); reflexivity
                        | reflexivity] ].

Lemma book_answer env f ids w :
  answer_ok (fst (book env f ids w)) /\
  status (fst (book env f ids w)) <> 403 /\ status (fst (book env f ids w)) <> 404 /\
  status (fst (book env f ids w)) <> 405.
Proof.
  open_book; try (split; [close_answer | done]).
  match goal with
  | H : book_loop _ _ _ _ _ _ _ _ = LoopReturn _ |- _ =>
      apply book_loop_return in H as [[Hs|Hs] [e He]];
      (split; [|rewrite Hs; done]); right; rewrite Hs, He; simpl; auto 10
  end.
Qed.

Lemma handle_post_answer env b w :
  answer_ok (fst (handle_post env b w)) /\
  status (fst (handle_post env b w)) <> 403 /\ status (fst (handle_post env b w)) <> 404 /\
  status (fst (handle_post env b w)) <> 405.
Proof.
  unfold handle_post.
  destruct (validateBookingRequest b) as [[|e errs]|]; simpl;
    try (split; [close_answer | done]).
  destruct (checkConcurrentBookings _ _); simpl; [apply book_answer|].
  split; [close_answer | done].
Qed.

Lemma handle_patch_answer env b w :
  answer_ok (fst (handle_patch env b w)) /\
  status (fst (handle_patch env b w)) <> 409 /\ status (fst (handle_patch env b w)) <> 405 /\
  status (fst (handle_patch env b w)) <> 429.
Proof. open_patch; (split; [close_answer | done]). Qed.

Lemma handle_lookup_answer env q w :
  answer_ok (fst (handle_lookup env q w)) /\
  (status (fst (handle_lookup env q w)) = 200 \/ status (fst (handle_lookup env q w)) = 400 \/
   status (fst (handle_lookup env q w)) = 500).
Proof.
  rewrite handle_lookup_spec. cbv zeta.
  destruct (negb _); [split; [close_answer | auto]|].
  destruct (fails env _); (split; [close_answer | auto]).
Qed.

Lemma handle_listing_answer env w :
  answer_ok (fst (handle_listing env w)) /\
  (status (fst (handle_listing env w)) = 200 \/ status (fst (handle_listing env w)) = 500).
Proof.
  unfold handle_listing, values_get.
  repeat (case_match; simplify_eq; simpl in * ); (split; [close_answer | auto]).
Qed.

(** X23.  Every answer of the handler is a 200 whose body is not an
    error, or one of 400, 403, 404, 405, 409, 429 and 500 with an error
    body, so the client's test [response.ok && data.ok] is the test for
    status 200.  A 403 or a 404 is only given to a PATCH, a 409 only to a
    POST, a 405 only to a method other than OPTIONS, GET, POST and PATCH;
    a GET is answered 200, 400, 429 or 500. *)
Theorem X23_answers_of_the_handler (env : Env) (req : Request) (w : World) :
  let r := fst (handler env req w) in
  answer_ok r /\
  (status r = 403 \/ status r = 404 -> method req = PATCH) /\
  (status r = 409 -> method req = POST) /\
  (status r = 405 -> method req = OtherMethod) /\
  (method req = GET ->
   status r = 200 \/ status r = 400 \/ status r = 429 \/ status r = 500).
Proof.
  intros r. unfold r. clear r.
  destruct (decide (method req = OPTIONS)) as [Hm|Hm].
  { rewrite handler_options by done. simpl.
    split; [close_answer|]. repeat split; try done; try congruence. by intros [|]. }
  destruct (decide (allowed env req w)) as [Ha|Ha]; cycle 1.
  { rewrite handler_denied by done. simpl.
    split; [close_answer|]. repeat split; try done; auto. by intros [|]. }
  destruct (method req) eqn:Hmeth; [done| | | |].
  - unfold handler. rewrite Hmeth. unfold allowed in Ha.
    destruct (checkRateLimit _ _ _) as [[] rl]; simpl in *; [|done].
    destruct (JS.truthy (query_phone req)).
    + destruct (handle_lookup_answer env (query_phone req) (with_rateLimitMap rl w))
        as [Hok Hs].
      split; [done|]. repeat split; intros; try lia; tauto.
    + destruct (handle_listing_answer env (with_rateLimitMap rl w)) as [Hok Hs].
      split; [done|]. repeat split; intros; try lia; tauto.
  - rewrite handler_post by done.
    destruct (handle_post_answer env (body req) (entered env req w)) as (Hok & ? & ? & ?).
    split; [done|]. repeat split; try done. by intros [|].
  - rewrite handler_patch by done.
    destruct (handle_patch_answer env (body req) (entered env req w)) as (Hok & ? & ? & ?).
    split; [done|]. repeat split; try done.
  - unfold handler. rewrite Hmeth. unfold allowed in Ha.
    destruct (checkRateLimit _ _ _) as [[] rl]; simpl in *; [|done].
    split; [close_answer|]. repeat split; try done. by intros [|].
Qed.

(** ** A cancellation frees the slot for the phone *)

Lemma omap_insert_removed {A B} (f : A -> option B) (l : list A) j x y k :
  l !! j = Some x -> f x = Some k -> f y = None -> NoDup (omap f l) ->
  forall k', k' ∈ omap f (<[j := y]> l) <-> k' ∈ omap f l /\ k' <> k.
Proof.
  intros Hj Hx Hy Hnd k'.
  rewrite (insert_take_drop l j y) by (by eapply lookup_lt_Some).
  pose proof (take_drop_middle l j x Hj) as Hl.
  remember (take j l) as a eqn:Ha. remember (drop (S j) l) as b eqn:Hb.
  clear Ha Hb Hj. subst l.
  rewrite !omap_app in *. cbn [omap list_omap] in *. rewrite Hx in *. rewrite Hy.
  apply NoDup_app in Hnd as (_ & Hdis & Hnd2).
  apply NoDup_cons in Hnd2 as [Hk2 _].
  rewrite !elem_of_app, elem_of_cons. split.
  - intros [H1 | H2].
    + split; [by left|]. intros ->. apply (Hdis k H1). apply list_elem_of_here.
    + split; [by right; right|]. by intros ->.
  - intros [[H1 | [-> | H2]] Hne]; [by left | done | by right].
Qed.

(** X24.  A cancellation answered 200 frees the slot for the phone: when
    no two ACTIVE signups claimed the same (phone, slot) pair before, the
    pair claimed by the cancelled signup row is claimed by no ACTIVE signup
    afterwards, so a new booking of that slot by that phone is no longer
    refused as already booked, and every other pair stays claimed as it
    was. *)
Theorem X24_cancellation_frees_the_pair (env : Env) (req : Request) (w : World)
    (sid : Z) (key : string * Z) :
  method req = PATCH ->
  status (fst (handler env req w)) = 200 ->
  b_signupRowId (body req) = Some sid -> 2 <= sid ->
  unique_active (store w) ->
  active_key (signup_row_at (store w) sid) = Some key ->
  let st1 := store (snd (handler env req w)) in
  (key ∉ active_keys st1) /\
  (forall k, k ∈ active_keys st1 <-> k ∈ active_keys (store w) /\ k <> key) /\
  unique_active st1.
Proof.
  intros Hm H200 Hsid Hsid2 Hnd Hkey st1.
  destruct (handler_store env req w)
    as [[_ Hn] | [(Hp & _) | (_ & _ & sid' & tid & phone & Hpar & Hs & Ht & Hph & Hst)]];
    [by destruct Hn; [right|] | congruence |].
  assert (sid' = sid) as -> by (destruct Hpar as (? & _); congruence).
  fold st1 in Hst.
  assert (phone <> "") as Hpne by apply Hpar.
  destruct (stored_phone_row_present _ _ _ Hpne Hph) as [_ Hlen].
  assert (forall k, k ∈ active_keys st1 <-> k ∈ active_keys (store w) /\ k <> key) as Hiff.
  { intros k. rewrite Hst. unfold active_keys, cancelled_store. cbn [signups_grid].
    rewrite set_cell_in_range by done.
    rewrite drop_insert_ge by (unfold row_index; lia).
    apply (omap_insert_removed active_key _ _ (signup_row_at (store w) sid)); try done.
    - unfold signup_row_at. rewrite lookup_drop.
      replace (1 + (row_index sid - 1))%nat with (row_index sid) by (unfold row_index; lia).
      destruct (signups_grid (store w) !! row_index sid) eqn:Hg; [done|].
      apply lookup_ge_None in Hg. lia.
    - apply cancelled_row_no_key. }
  split; [|split; [done|]].
  - intros Hin. apply Hiff in Hin as [_ ?]. done.
  - rewrite Hst. by apply unique_active_cancelled.
Qed.

Lemma X24_cancellation_frees_the_pair_witness :
  let st1 := store (snd (handler Demo.env (Demo.patch 2 2 Demo.phone) Demo.w)) in
  ((Demo.phone, 2) ∉ active_keys st1) /\
  (forall k, k ∈ active_keys st1 <-> k ∈ active_keys (store Demo.w) /\ k <> (Demo.phone, 2)) /\
  unique_active st1.
Proof.
  apply (X24_cancellation_frees_the_pair Demo.env (Demo.patch 2 2 Demo.phone) Demo.w 2
           (Demo.phone, 2)).
  - reflexivity.
  - vm_compute. reflexivity.
  - reflexivity.
  - lia.
  - apply (bool_decide_unpack _). vm_compute. exact I.
  - vm_compute. reflexivity.
Defined.

(** ** Validated fields are stored whole *)




